(** * Covasim base classes: population store, contact layers, transmission tree

    A shallow embedding of [covasim/base.py]: the classes [BasePeople],
    [Contacts], [Layer] and [TransTree].

    Python objects are mutable and shared, so the embedding keeps a heap:
    every [BasePeople] instance is a cell holding its [__dict__], and every
    numpy array stored in a people attribute is a cell holding its elements
    (arrays are resized in place by [ndarray.resize], and [sc.dcp] makes
    copies that must not share with the original).  The heap also records
    which arrays do not own their data, since numpy will not resize those.
    Methods are computations
    in a state-and-exception monad over that heap; an exception leaves the
    heap as it was when it was raised. *)

From Stdlib Require Import ZArith QArith.
From stdpp Require Import gmap strings list fin_maps sorting.
Close Scope Q_scope.
Local Open Scope Z_scope.

(** ** Exceptions and results *)

Inductive exn :=
| AttributeError
| IndexError
| KeyError
| TypeError
| ValueError
| UnboundLocalError
| AssertionError
| SystemError. (* a dangling reference: never raised from a well-formed heap *)

Inductive res (A : Type) :=
| Ok (a : A)
| Raise (e : exn).
Arguments Ok {A} a.
Arguments Raise {A} e.

#[export] Instance res_ret : MRet res := fun A a => Ok a.
#[export] Instance res_bind : MBind res := fun A B f m =>
  match m with
  | Ok a => f a
  | Raise e => Raise e
  end.

(** ** What numpy contributes

    Array elements, element types and the conversion [np.array(v, dtype=d)]
    are numpy's; the table of element types of the people attributes
    ([_dtypes]) is filled in by a subclass.  They are parameters here. *)

Class Numpy := {
  elt : Type;                      (* an array element *)
  dtype : Type;                    (* a numpy element type *)
  astype : dtype -> elt -> elt;    (* conversion of one element to a dtype *)
  zero : elt;                      (* what [ndarray.resize] pads with *)
  is_nonzero : elt -> bool;        (* element truthiness, as [nonzero] sees it *)
  of_int : Z -> elt;               (* an element of [np.arange] *)
}.

(** One concrete choice, used to run the model: integer elements, with a
    boolean dtype (0 or 1) and an object dtype (any integer). *)

Inductive zdtype := np_bool | np_object.

#[export] Instance Z_numpy : Numpy := {|
  elt := Z;
  dtype := zdtype;
  astype d x := match d with
                | np_bool => if x =? 0 then 0 else 1
                | np_object => x
                end;
  zero := 0;
  is_nonzero x := negb (x =? 0);
  of_int x := x;
|}.

(** ** Python dicts that are iterated: insertion-ordered association lists *)

Module Dict.
Section Dict.
Context {V : Type}.

Fixpoint get (d : list (string * V)) (k : string) : option V :=
  match d with
  | [] => None
  | (k', v) :: t => if String.eqb k' k then Some v else get t k
  end.

Definition mem (d : list (string * V)) (k : string) : bool :=
  match get d k with Some _ => true | None => false end.

(* d[k] = v: replaces in place, or appends a new key at the end *)
Fixpoint set (d : list (string * V)) (k : string) (v : V) : list (string * V) :=
  match d with
  | [] => [(k, v)]
  | (k', v') :: t => if String.eqb k' k then (k', v) :: t else (k', v') :: set t k v
  end.

(* del d[k] *)
Fixpoint remove (d : list (string * V)) (k : string) : list (string * V) :=
  match d with
  | [] => []
  | (k', v') :: t => if String.eqb k' k then t else (k', v') :: remove t k
  end.

Definition keys (d : list (string * V)) : list string := map fst d.
End Dict.
End Dict.

(** ** Values *)

(** A cell of a contact-edge column: person index, weight or layer tag. *)
Inductive cell :=
| CInt (n : Z)
| CFloat (q : Q)
| CStr (s : string).

(** The three entries of the parameter dict [pars] that this file reads;
    [None] is an absent key. *)
Record Pars := {
  par_pop_size : option Z;
  par_beta_layer : option (list (string * Q));
  par_contacts : option (list (string * Z));
}.

(** A transmission tree: [sources] and [targets]. *)
Record TransTreeObj := {
  sources : list (option Z);
  targets : list (list Z);
}.

Section Values.
Context `{Numpy}.

(** [cvd.PeopleKeys()]: the state names and the contact columns with
    their dtypes. *)
Record PeopleKeys := {
  all_states : list string;
  contacts : list (string * dtype);
}.

(** A [Layer] is a dict of columns with two attributes. *)
Record LayerObj := {
  basekey : string;
  layer_info : list (string * dtype);
  cols : list (string * list cell);
}.

(** Whatever an attribute of a people object can hold. *)
Inductive pyval :=
| VNone
| VBool (b : bool)
| VInt (n : Z)
| VArr (l : nat)                               (* a numpy array, by reference *)
| VDtype (d : dtype)
| VDtypes (t : gmap string dtype)
| VPars (p : Pars)
| VKeys (k : PeopleKeys)
| VLayerInfo (li : list (string * dtype))
| VContacts (c : list (string * LayerObj))
| VTransTree (t : TransTreeObj).

(** ** The heap and the monad *)

Record heap := Heap {
  arrs : list (list elt);               (* numpy arrays *)
  objs : list (gmap string pyval);      (* people objects: their __dict__ *)
  views : list nat;                     (* the arrays that do not own their data *)
}.

(** An array that does not own its data is a view of another array's
    buffer, or an array read back from a pickle.  An array that the code
    makes ([np.array], [np.concatenate], a deep copy) owns its data: from
    the location [base] on, no array is a view. *)
Definition own_from (base : nat) (vs : list nat) : list nat :=
  filter (fun l => (l < base)%nat) vs.

Definition M (A : Type) : Type := heap -> res A * heap.

#[export] Instance M_ret : MRet M := fun A a h => (Ok a, h).
#[export] Instance M_bind : MBind M := fun A B f m h =>
  match m h with
  | (Ok a, h') => f a h'
  | (Raise e, h') => (Raise e, h')
  end.

Definition raise {A} (e : exn) : M A := fun h => (Raise e, h).

(** A computation that does not touch the heap. *)
Definition lift {A} (r : res A) : M A := fun h => (r, h).

Definition alloc_arr (a : list elt) : M nat := fun h =>
  (Ok (length (arrs h)),
   Heap (arrs h ++ [a]) (objs h) (own_from (length (arrs h)) (views h))).

Definition read_arr (l : nat) : M (list elt) := fun h =>
  match arrs h !! l with
  | Some a => (Ok a, h)
  | None => (Raise SystemError, h)
  end.

Definition write_arr (l : nat) (a : list elt) : M unit := fun h =>
  (Ok tt, Heap (<[l := a]> (arrs h)) (objs h) (views h)).

(** [v.flags.owndata] *)
Definition owndata (l : nat) : M bool := fun h =>
  (Ok (bool_decide (l ∉ views h)), h).

Definition alloc_obj (d : gmap string pyval) : M nat := fun h =>
  (Ok (length (objs h)), Heap (arrs h) (objs h ++ [d]) (views h)).

Definition read_obj (o : nat) : M (gmap string pyval) := fun h =>
  match objs h !! o with
  | Some d => (Ok d, h)
  | None => (Raise SystemError, h)
  end.

Definition write_obj (o : nat) (d : gmap string pyval) : M unit := fun h =>
  (Ok tt, Heap (arrs h) (<[o := d]> (objs h)) (views h)).

(** [for x in l: body(x)] *)
Fixpoint for_ {A} (l : list A) (body : A -> M unit) : M unit :=
  match l with
  | [] => mret tt
  | x :: t => _ ← body x; for_ t body
  end.

(** [self.name] and [self.name = v] *)
Definition getattr (self : nat) (name : string) : M pyval :=
  d ← read_obj self;
  match d !! name with
  | Some v => mret v
  | None => raise AttributeError
  end.

Definition setattr (self : nat) (name : string) (v : pyval) : M unit :=
  d ← read_obj self;
  write_obj self (<[name := v]> d).

(** Truthiness of a value ([if v], [v and ...]). *)
Definition truthy (v : pyval) : M bool :=
  match v with
  | VNone => mret false
  | VBool b => mret b
  | VInt n => mret (negb (n =? 0))
  | VArr l =>
      a ← read_arr l;
      match a with
      | [] => mret false
      | [x] => mret (is_nonzero x)
      | _ => raise ValueError   (* truth value of an array is ambiguous *)
      end
  | VDtype _ => mret true
  | VDtypes t => mret (negb (bool_decide (t = ∅)))
  | VPars p =>
      mret (match par_pop_size p, par_beta_layer p, par_contacts p with
            | None, None, None => false
            | _, _, _ => true
            end)
  | VKeys _ => mret true
  | VLayerInfo li => mret (match li with [] => false | _ => true end)
  | VContacts c => mret (match c with [] => false | _ => true end)
  | VTransTree _ => mret true
  end.

(** [len(v)] *)
Definition py_len (v : pyval) : M Z :=
  match v with
  | VArr l => a ← read_arr l; mret (Z.of_nat (length a))
  | VDtypes t => mret (Z.of_nat (size t))
  | VPars p =>
      mret (Z.b2z (bool_decide (is_Some (par_pop_size p)))
            + Z.b2z (bool_decide (is_Some (par_beta_layer p)))
            + Z.b2z (bool_decide (is_Some (par_contacts p))))
  | VLayerInfo li => mret (Z.of_nat (length li))
  | VContacts c => mret (Z.of_nat (length c))
  | VNone | VBool _ | VInt _ | VDtype _ | VKeys _ | VTransTree _ => raise TypeError
  end.

(** [a + b] on the scalars *)
Definition py_add (a b : pyval) : M pyval :=
  match a, b with
  | VInt x, VInt y => mret (VInt (x + y))
  | VInt x, VBool y => mret (VInt (x + Z.b2z y))
  | VBool x, VInt y => mret (VInt (Z.b2z x + y))
  | VBool x, VBool y => mret (VInt (Z.b2z x + Z.b2z y))
  | _, _ => raise TypeError
  end.

(** [np.arange(n)] *)
Definition arange (n : Z) : list Z := map Z.of_nat (seq 0 (Z.to_nat n)).

(** [np.concatenate([a, b])] of two attribute values *)
Definition np_concatenate (a b : pyval) : M (list elt) :=
  match a, b with
  | VArr la, VArr lb => xa ← read_arr la; xb ← read_arr lb; mret (xa ++ xb)
  | _, _ => raise ValueError
  end.

(** [v.nonzero()[0]]: the positions of the nonzero elements, ascending *)
Fixpoint nonzero_from (i : Z) (a : list elt) : list Z :=
  match a with
  | [] => []
  | x :: t => if is_nonzero x then i :: nonzero_from (i + 1) t
              else nonzero_from (i + 1) t
  end.

Definition nonzero (v : pyval) : M (list Z) :=
  match v with
  | VArr l => a ← read_arr l; mret (nonzero_from 0 a)
  | _ => raise AttributeError
  end.

(** [v.resize(n, refcheck=False)] of a one-dimensional contiguous array:
    in place, truncating or zero-padding.  numpy refuses to change the size
    of an array that does not own its data; a resize to the size the array
    has changes nothing and is allowed. *)
Definition ndarray_resize (v : pyval) (n : Z) : M unit :=
  match v with
  | VArr l =>
      a ← read_arr l;
      own ← owndata l;
      if n <? 0 then raise ValueError
      else if bool_decide (Z.to_nat n ≠ length a) && negb own then raise ValueError
      else write_arr l (resize (Z.to_nat n) zero a)
  | _ => raise AttributeError
  end.

(** [sc.dcp(obj)] of a people object.  The copy must share no array with
    the original, and arrays shared between attributes of the original
    stay shared in the copy (deepcopy's memo).  The arrays are duplicated
    behind the existing ones, and the copy's references moved into the
    duplicate. *)
Definition relocate (base : nat) (v : pyval) : pyval :=
  match v with
  | VArr l => VArr (base + l)%nat
  | _ => v
  end.

Definition dup_arrays : M nat := fun h =>
  (Ok (length (arrs h)),
   Heap (arrs h ++ arrs h) (objs h) (own_from (length (arrs h)) (views h))).

Definition sc_dcp (self : nat) : M nat :=
  d ← read_obj self;
  base ← dup_arrays;
  alloc_obj (relocate base <$> d).

End Values.

(** ** TransTree *)

Module TransTree.

Definition __init__ (pop_size : option Z) (sources : option (list (option Z)))
    (targets : option (list (list Z))) : TransTreeObj :=
  let sources :=
    match sources with
    | None =>
        match pop_size with
        | None => []
        | Some n => replicate (Z.to_nat n) None          (* [None]*pop_size *)
        end
    | Some s => s
    end in
  let targets :=
    match targets with
    | None =>
        match pop_size with
        | None => []
        | Some n => map (fun _ => []) (arange n)         (* [[] for p in range(pop_size)] *)
        end
    | Some t => t
    end in
  {| sources := sources; targets := targets |}.

End TransTree.

(** ** Layer *)

Module Layer.
Section Layer.
Context `{Numpy}.

(* called as Layer(layer_info=...) throughout: no keyword columns *)
Definition __init__ (layer_info : list (string * dtype)) : LayerObj :=
  {| basekey := "p1";
     layer_info := layer_info;
     cols := foldl (fun c kd => Dict.set c (fst kd) []) [] layer_info |}.

Definition __getitem__ (self : LayerObj) (key : string) : res (list cell) :=
  match Dict.get (cols self) key with
  | Some c => Ok c
  | None => Raise KeyError
  end.

Definition __setitem__ (self : LayerObj) (key : string) (v : list cell) : LayerObj :=
  {| basekey := basekey self;
     layer_info := layer_info self;
     cols := Dict.set (cols self) key v |}.

Definition __len__ (self : LayerObj) : Z :=
  match __getitem__ self (basekey self) with
  | Ok c => Z.of_nat (length c)
  | Raise _ => 0
  end.

(* Lengths only: element types of edge columns are not tracked, so the
   assertion on [dtype] has no counterpart. *)
Definition validate (self : LayerObj) : res unit :=
  c ← __getitem__ self (basekey self);
  let n := length c in
  foldl (fun acc kd =>
           _ ← acc;
           c' ← __getitem__ self (fst kd);
           if bool_decide (n = length c') then Ok tt else Raise AssertionError)
        (Ok tt) (layer_info self).

End Layer.
End Layer.

(** ** Contacts *)

(** A key given to [Contacts.__getitem__]: a layer name or a position. *)
Inductive ckey :=
| KStr (s : string)
| KInt (i : Z).

Module Contacts.
Section Contacts.
Context `{Numpy}.

(* Contacts(): an empty dict *)
Definition __init__ : list (string * LayerObj) := [].

Definition __getitem__ (self : list (string * LayerObj)) (key : ckey) : res LayerObj :=
  match key with
  | KStr s =>
      match Dict.get self s with
      | Some l => Ok l
      | None => Raise KeyError     (* indexing the key list by a string fails: KE re-raised *)
      end
  | KInt i =>
      (* layer names are strings: the dict lookup fails, the position is tried *)
      let ks := Dict.keys self in
      let n := Z.of_nat (length ks) in
      let j := if i <? 0 then i + n else i in
      if (0 <=? j) && (j <? n) then
        match ks !! Z.to_nat j with
        | Some dictkey =>
            match Dict.get self dictkey with
            | Some l => Ok l
            | None => Raise KeyError
            end
        | None => Raise KeyError
        end
      else Raise KeyError
  end.

End Contacts.
End Contacts.

(** ** BasePeople *)

(** What [covasim.defaults] and numpy provide to [BasePeople.__init__]. *)
Class Defaults `{Numpy} := {
  cvd_PeopleKeys : PeopleKeys;
  np_float32 : dtype;
}.

(** What [add_contacts] is given.  Of the shapes it accepts, the per-person
    list is embedded; a [Layer], an array, a dict or a [Contacts] go through
    pandas and are not.  [Unrecognised] is any value of no accepted shape. *)
Inductive contacts_arg :=
| PerPerson (l : list (list (string * list Z)))   (* per person: layer name -> neighbours *)
| Unrecognised.

(** A row of the edge dataframe handled by [remove_duplicates]. *)
Record edge := {
  p1 : Z;
  p2 : Z;
  beta : Q;
  layer : string;
}.

Module BasePeople.
Section BasePeople.
Context `{Numpy}.

Definition __getitem__ (self : nat) (key : string) : M pyval :=
  d ← read_obj self;
  match d !! key with
  | Some v => mret v
  | None => raise AttributeError
  end.

Definition __setitem__ (self : nat) (key : string) (value : pyval) : M unit :=
  lock ← getattr self "_lock";
  locked ← truthy lock;
  d ← read_obj self;
  if locked && negb (bool_decide (is_Some (d !! key))) then raise AttributeError
  else write_obj self (<[key := value]> d).

Definition __len__ (self : nat) : M Z :=
  v ← getattr self "pop_size";
  match v with
  | VInt n => if n <? 0 then raise ValueError else mret n
  | VBool b => mret (Z.b2z b)
  | _ => raise TypeError
  end.

(* keys(): always called without [which] in this file *)
Definition keys (self : nat) : M (list string) :=
  kl ← getattr self "keylist";
  match kl with
  | VKeys k => mret (all_states k)
  | _ => raise AttributeError
  end.

(* everything that goes wrong is swallowed by the bare except *)
Definition contact_keys (self : nat) : M (list string) :=
  fun h =>
    (Ok match objs h !! self with
        | Some d =>
            match d !! "pars" with
            | Some (VPars p) =>
                match par_beta_layer p with
                | Some bl => Dict.keys bl
                | None => []
                end
            | Some (VContacts c) =>
                match Dict.get c "beta_layer" with
                | Some l => Dict.keys (cols l)
                | None => []
                end
            | _ => []
            end
        | None => []
        end, h).

(* value: the contents of an array-like; np.array makes a new array of it *)
Definition set_ (self : nat) (key : string) (value : list elt) (die : bool) : M unit :=
  current ← __getitem__ self key;
  dts ← getattr self "_dtypes";
  dt ← match dts with
       | VDtypes t =>
           match t !! key with
           | Some d => mret d
           | None => raise KeyError
           end
       | _ => raise TypeError
       end;
  let value := map (astype dt) value in
  _ ← (if die then
         n ← py_len current;
         if bool_decide (Z.of_nat (length value) ≠ n) then raise IndexError
         else mret tt
       else mret tt);
  l ← alloc_arr value;
  __setitem__ self key (VArr l).

Definition get (self : nat) (key : string) : M pyval := __getitem__ self key.

Definition true_ (self : nat) (key : string) : M (list Z) :=
  v ← __getitem__ self key;
  nonzero v.

(* ~self[key].nonzero()[0]: the complement is taken of the index array *)
Definition false_ (self : nat) (key : string) : M (list Z) :=
  v ← __getitem__ self key;
  idx ← nonzero v;
  mret (map Z.lnot idx).

(* keys: after sc.promotetolist *)
Definition resize_ (self : nat) (pop_size : option Z) (keys_ : option (list string)) : M unit :=
  pop_size ← match pop_size with
             | None => __len__ self
             | Some n => mret n
             end;
  _ ← setattr self "pop_size" (VInt pop_size);
  ks ← match keys_ with
       | None => keys self
       | Some ks => mret ks
       end;
  for_ ks (fun key =>
    v ← __getitem__ self key;
    ndarray_resize v pop_size).

(* verbose only prints *)
Definition validate (self : nat) (die : bool) : M unit :=
  expected_len ← __len__ self;
  ks ← keys self;
  for_ ks (fun key =>
    v ← __getitem__ self key;
    actual_len ← py_len v;
    if bool_decide (actual_len ≠ expected_len) then
      if die then raise IndexError
      else resize_ self None (Some [key])
    else mret tt).

Definition __add__ (self people2 : nat) : M nat :=
  newpeople ← sc_dcp self;
  ks ← keys self;
  _ ← for_ ks (fun key =>
         a ← __getitem__ newpeople key;
         b ← __getitem__ people2 key;
         v ← np_concatenate a b;
         set_ newpeople key v false);
  n1 ← getattr newpeople "pop_size";
  n2 ← getattr people2 "pop_size";
  n ← py_add n1 n2;
  _ ← setattr newpeople "pop_size" n;
  _ ← validate newpeople true;
  n ← __len__ newpeople;
  _ ← set_ newpeople "uid" (map of_int (arange n)) true;
  mret newpeople.


Definition init_contacts (self : nat) (output : bool) (keys_ : option (list string))
    : M (option (list (string * LayerObj))) :=
  ks ← match keys_ with
       | None => contact_keys self
       | Some ks => mret ks
       end;
  contacts ← match ks with
             | [] => mret Contacts.__init__
             | _ =>
                 li ← getattr self "layer_info";
                 match li with
                 | VLayerInfo li =>
                     mret (foldl (fun c key => Dict.set c key (Layer.__init__ li))
                                 Contacts.__init__ ks)
                 | _ => raise AttributeError
                 end
             end;
  if output then mret (Some contacts)
  else
    cur ← getattr self "contacts";
    match cur with
    | VNone => _ ← setattr self "contacts" (VContacts contacts); mret None
    | VContacts c0 =>
        _ ← setattr self "contacts"
              (VContacts (foldl (fun c kl => Dict.set c (fst kl) (snd kl)) c0 contacts));
        mret None
    | VArr _ =>
        (* a string is no index of an array *)
        match contacts with [] => mret None | _ => raise IndexError end
    | _ =>
        (* with no layer to write the loop does nothing; a scalar has no
           item assignment (a dictionary of dtypes or of parameters holds
           no layers and is taken as one) *)
        match contacts with [] => mret None | _ => raise TypeError end
    end.

(* the object is created, then filled in *)
Definition __init__ `{!Defaults} (pars : option Pars) (pop_size : option Z) : M nat :=
  self ← alloc_obj ∅;
  _ ← setattr self "pars" (match pars with Some p => VPars p | None => VNone end);
  pop_size ← match pop_size with
             | Some n => mret n
             | None =>
                 match pars with
                 | Some p =>
                     match par_pop_size p with
                     | Some n => mret n
                     | None => raise KeyError
                     end
                 | None => mret 0
                 end
             end;
  _ ← setattr self "pop_size" (VInt pop_size);
  _ ← setattr self "t" (VInt 0);
  _ ← setattr self "_lock" (VBool false);
  _ ← setattr self "_default_dtype" (VDtype np_float32);
  _ ← setattr self "keylist" (VKeys cvd_PeopleKeys);
  _ ← setattr self "layer_info" (VLayerInfo (contacts cvd_PeopleKeys));
  _ ← setattr self "contacts" VNone;
  _ ← init_contacts self false None;
  _ ← setattr self "transtree"
        (VTransTree (TransTree.__init__ (Some pop_size) None None));
  mret self.

(* keylist.contacts, of the value found in [self.keylist] *)
Definition keylist_contacts (kl : pyval) : option (list (string * dtype)) :=
  match kl with
  | VKeys k => Some (contacts k)
  | _ => None
  end.

(* new_contacts[lkey][col] = v: the layer is looked up first (KeyError when
   it is not there), and changed where it sits in the dict *)
Definition new_col (nc : list (string * LayerObj)) (lkey : option string)
    (col : string) (v : list cell) : res (list (string * LayerObj)) :=
  match lkey with
  | None => Raise UnboundLocalError
  | Some lkey =>
      l ← Contacts.__getitem__ nc (KStr lkey);
      Ok (Dict.set nc lkey (Layer.__setitem__ l col v))
  end.

Definition extend_col (nc : list (string * LayerObj)) (lkey : option string)
    (col : string) (v : list cell) : res (list (string * LayerObj)) :=
  match lkey with
  | None => Raise UnboundLocalError
  | Some lkey =>
      l ← Contacts.__getitem__ nc (KStr lkey);
      c ← Layer.__getitem__ l col;
      Ok (Dict.set nc lkey (Layer.__setitem__ l col (c ++ v)))
  end.

(* for p,cdict in enumerate(contacts), from person p on *)
Fixpoint edgelist_people (lkey : option string) (p : Z)
    (contacts : list (list (string * list Z))) (nc : list (string * LayerObj))
    : res (list (string * LayerObj)) :=
  match contacts with
  | [] => Ok nc
  | cdict :: rest =>
      nc ← foldl (fun acc kc =>
                    nc ← acc;
                    let n := length (snd kc) in
                    nc ← extend_col nc lkey "p1" (replicate n (CInt p));
                    nc ← extend_col nc lkey "p2" (map CInt (snd kc));
                    extend_col nc lkey "layer" (replicate n (CStr (fst kc))))
                 (Ok nc) cdict;
      edgelist_people lkey (p + 1) rest nc
  end.

Definition make_edgelist (self : nat) (contacts : list (list (string * list Z)))
    : M (list (string * LayerObj)) :=
  let new_contacts := Contacts.__init__ in
  match contacts with
  | [] => raise IndexError                                  (* contacts[0] *)
  | c0 :: _ =>
      let lkeys := Dict.keys c0 in
      new_contacts ← lift (foldl (fun acc lkey =>
                                    nc ← acc;
                                    nc ← new_col nc (Some lkey) "p1" [];
                                    nc ← new_col nc (Some lkey) "p2" [];
                                    new_col nc (Some lkey) "layer" [])
                                 (Ok new_contacts) lkeys);
      (* the second loop names the layer by [lkey], what the first loop left in it *)
      new_contacts ← lift (edgelist_people (last lkeys) 0 contacts new_contacts);
      new_contacts ← foldl (fun acc lkey =>
                              nc ← acc;
                              li ← getattr self "layer_info";
                              li ← match li with
                                   | VLayerInfo li => mret li
                                   | _ => raise AttributeError
                                   end;
                              kl ← getattr self "keylist";
                              old ← lift (Contacts.__getitem__ nc (KStr lkey));
                              new_layer ← foldl (fun acc kv =>
                                  new_layer ← acc;
                                  match keylist_contacts kl with
                                  | Some dts =>
                                      if Dict.mem dts (fst kv)
                                      then mret (Layer.__setitem__ new_layer (fst kv) (snd kv))
                                      else raise KeyError
                                  | None => raise AttributeError
                                  end)
                                (mret (Layer.__init__ li)) (cols old);
                              mret (Dict.set nc lkey new_layer))
                           (mret new_contacts) lkeys;
      mret new_contacts
  end.

(* self.contacts[lkey] *)
Definition self_layer (self : nat) (lkey : string) : M LayerObj :=
  c ← getattr self "contacts";
  match c with
  | VContacts c => lift (Contacts.__getitem__ c (KStr lkey))
  | _ => raise TypeError
  end.

Definition add_contacts (self : nat) (contacts : contacts_arg) (key : option string)
    (beta : option Q) : M unit :=
  key ← match key with
         | None =>
             ks ← contact_keys self;
             match ks with
             | [] => raise IndexError
             | k :: _ => mret k
             end
         | Some k => mret k
         end;
  c ← getattr self "contacts";
  _ ← match c with
      | VContacts c =>
          if Dict.mem c key then mret tt
          else
            li ← getattr self "layer_info";
            match li with
            | VLayerInfo li =>
                setattr self "contacts" (VContacts (Dict.set c key (Layer.__init__ li)))
            | _ => raise AttributeError
            end
      | _ => raise TypeError
      end;
  new_contacts ← match contacts with
                 | PerPerson l => make_edgelist self l
                 | Unrecognised => raise TypeError
                 end;
  _ ← foldl (fun acc ll =>
               beta ← acc;
               let lkey := fst ll in
               let new_layer := snd ll in
               c ← lift (Layer.__getitem__ new_layer "p1");
               let n := length c in
               let new_layer :=
                 if Dict.mem (cols new_layer) "layer" then new_layer
                 else Layer.__setitem__ new_layer "layer" (replicate n (CStr key)) in
               let stale :=
                 match Dict.get (cols new_layer) "beta" with
                 | None => true
                 | Some b => negb (bool_decide (length b = n))
                 end in
               '(beta, new_layer) ←
                 (if stale then
                    b ← match beta with
                        | Some b => mret b
                        | None =>
                            pars ← getattr self "pars";
                            match pars with
                            | VPars p =>
                                match par_beta_layer p with
                                | Some bl =>
                                    match Dict.get bl key with
                                    | Some b => mret b
                                    | None => raise KeyError
                                    end
                                | None => raise KeyError
                                end
                            | _ => raise TypeError
                            end
                        end;
                    mret (Some b, Layer.__setitem__ new_layer "beta" (replicate n (CFloat b)))
                  else mret (beta, new_layer));
               li ← getattr self "layer_info";
               li ← match li with
                    | VLayerInfo li => mret li
                    | _ => raise AttributeError
                    end;
               _ ← for_ (Dict.keys li) (fun col =>
                      mine ← self_layer self lkey;
                      old ← lift (Layer.__getitem__ mine col);
                      new ← lift (Layer.__getitem__ new_layer col);
                      c ← getattr self "contacts";
                      match c with
                      | VContacts c =>
                          setattr self "contacts"
                            (VContacts (Dict.set c lkey (Layer.__setitem__ mine col (old ++ new))))
                      | _ => raise TypeError
                      end);
               mine ← self_layer self lkey;
               _ ← lift (Layer.validate mine);
               mret beta)
            (mret beta) new_contacts;
  mret tt.

(** [remove_duplicates(df)], on the rows of the dataframe *)

Definition minmax (e : edge) : edge :=
  {| p1 := Z.min (p1 e) (p2 e);
     p2 := Z.max (p1 e) (p2 e);
     beta := beta e;
     layer := layer e |}.

(* the order of sort_values(['p1', 'p2']) *)
Definition row_le (a b : edge) : bool :=
  (p1 a <? p1 b) || ((p1 a =? p1 b) && (p2 a <=? p2 b)).

Fixpoint insert_row (e : edge) (l : list edge) : list edge :=
  match l with
  | [] => [e]
  | x :: t => if row_le e x then e :: l else x :: insert_row e t
  end.

Definition sort_values (df : list edge) : list edge := foldr insert_row [] df.

Definition same_pair (a b : edge) : bool := (p1 a =? p1 b) && (p2 a =? p2 b).

(* drop_duplicates(['p1', 'p2']): the first row of each pair is kept *)
Fixpoint drop_duplicates_from (seen : list edge) (df : list edge) : list edge :=
  match df with
  | [] => []
  | x :: t =>
      if existsb (same_pair x) seen then drop_duplicates_from seen t
      else x :: drop_duplicates_from (x :: seen) t
  end.

Definition drop_duplicates (df : list edge) : list edge := drop_duplicates_from [] df.

Definition remove_duplicates (df : list edge) : list edge :=
  let df := map minmax df in
  let df := sort_values df in
  let df := drop_duplicates df in
  filter (fun e => p1 e ≠ p2 e) df.

(* dynamic_keys: after sc.promotetolist *)
Definition remove_dynamic_contacts (self : nat) (dynamic_keys : list string) : M unit :=
  for_ dynamic_keys (fun key =>
    pars ← getattr self "pars";
    cfg ← match pars with
          | VPars p =>
              match par_contacts p with
              | Some cfg => mret cfg
              | None => raise KeyError
              end
          | _ => raise TypeError
          end;
    if Dict.mem cfg key then
      c ← getattr self "contacts";
      match c with
      | VContacts c =>
          if Dict.mem c key then setattr self "contacts" (VContacts (Dict.remove c key))
          else raise KeyError
      | _ => raise AttributeError
      end
    else mret tt).

End BasePeople.
End BasePeople.


(** ** ParsObj

    An object around a parameter dict, [self.pars].  Its state is that
    dict, or nothing when the attribute has not been set.  ([self.pars] is
    the very dict given to the first [update_pars]; what the caller sees of
    it afterwards is not followed here.) *)

(** What [update_pars] can be given *)
Inductive pars_arg (V : Type) :=
| NoPars                              (* None *)
| DictPars (d : list (string * V))    (* a dict *)
| NotADict.                           (* anything else *)
Arguments NoPars {V}.
Arguments DictPars {V} d.
Arguments NotADict {V}.

Module ParsObj.
Section ParsObj.
Context {V : Type}.

(* the result, and [self.pars] afterwards *)
Definition update_pars (self : option (list (string * V))) (pars : pars_arg V)
    (create : bool) : res unit * option (list (string * V)) :=
  match pars with
  | NoPars => (Ok tt, self)
  | NotADict => (Raise TypeError, self)
  | DictPars p =>
      (* if not hasattr(self, 'pars'): self.pars = pars *)
      let self_pars := match self with Some c => c | None => p end in
      let mismatches :=
        if create then []
        else List.filter (fun key => negb (Dict.mem self_pars key)) (Dict.keys p) in
      match mismatches with
      | _ :: _ => (Raise KeyError, Some self_pars)
      | [] =>
          (* self.pars.update(pars) *)
          (Ok tt, Some (foldl (fun c kv => Dict.set c (fst kv) (snd kv)) self_pars p))
      end
  end.

Definition __init__ (pars : pars_arg V) : res unit * option (list (string * V)) :=
  update_pars None pars true.

Definition __getitem__ (self : option (list (string * V))) (key : string) : res V :=
  match self with
  | None => Raise AttributeError
  | Some c =>
      match Dict.get c key with
      | Some v => Ok v
      | None => Raise KeyError
      end
  end.

(* sc.suggest only words the message *)
Definition __setitem__ (self : option (list (string * V))) (key : string) (value : V)
    : res unit * option (list (string * V)) :=
  match self with
  | None => (Raise AttributeError, self)
  | Some c =>
      if Dict.mem c key then (Ok tt, Some (Dict.set c key value))
      else (Raise KeyError, self)
  end.

End ParsObj.
End ParsObj.

(** * Vocabulary of the statements *)

Section Vocabulary.
Context `{Numpy}.

(** The value of an attribute of a store, and the array it refers to. *)
Definition attr_val (h : heap) (self : nat) (name : string) : option pyval :=
  d ← objs h !! self; d !! name.

Definition attr (h : heap) (self : nat) (key : string) : option (list elt) :=
  v ← attr_val h self key;
  match v with
  | VArr l => arrs h !! l
  | _ => None
  end.

(** A store with schema [k] and size [n]: every state of the schema is an
    attribute holding an array. *)
Definition has_arrays (h : heap) (self : nat) (k : PeopleKeys) (n : Z) : Prop :=
  attr_val h self "keylist" = Some (VKeys k)
  ∧ attr_val h self "pop_size" = Some (VInt n)
  ∧ ∀ key, key ∈ all_states k → is_Some (attr h self key).

(** An initialized population store: the schema names are distinct, the
    table of dtypes [t] covers them, and every array has [n] elements of
    its declared dtype. *)
Definition people_store (h : heap) (self : nat) (k : PeopleKeys)
    (t : gmap string dtype) (n : Z) : Prop :=
  has_arrays h self k n
  ∧ NoDup (all_states k)
  ∧ (∃ lk, attr_val h self "_lock" = Some (VBool lk))
  ∧ attr_val h self "_dtypes" = Some (VDtypes t)
  ∧ ∀ key, key ∈ all_states k →
      ∃ a dt, attr h self key = Some a
              ∧ Z.of_nat (length a) = n
              ∧ t !! key = Some dt
              ∧ Forall (λ x, astype dt x = x) a.

(** What [h'] keeps of store [o] of [h]: its attributes and its arrays. *)
Definition preserved (h h' : heap) (o : nat) : Prop :=
  (∀ d, objs h !! o = Some d → objs h' !! o = Some d)
  ∧ (∀ key a, attr h o key = Some a → attr h' o key = Some a).

(** No array of [h] is an attribute of store [o] of [h']. *)
Definition shares_nothing (h h' : heap) (o : nat) : Prop :=
  ∀ name l, attr_val h' o name = Some (VArr l) → (length (arrs h) ≤ l)%nat.

(** The schema arrays of store [self] that do not have [n] elements own
    their data: numpy will resize them. *)
Definition resizable (h : heap) (self : nat) (k : PeopleKeys) (n : Z) : Prop :=
  ∀ key l a, key ∈ all_states k →
    attr_val h self key = Some (VArr l) →
    arrs h !! l = Some a →
    Z.of_nat (length a) ≠ n →
    l ∉ views h.

(** A schema array of store [self] that does not have [n] elements and
    does not own its data. *)
Definition has_short_view (h : heap) (self : nat) (k : PeopleKeys) (n : Z) : Prop :=
  ∃ key l a, key ∈ all_states k
    ∧ attr_val h self key = Some (VArr l)
    ∧ arrs h !! l = Some a
    ∧ Z.of_nat (length a) ≠ n
    ∧ l ∈ views h.

(** While [validate] runs on [h], every array is as it was or, if it owns
    its data, resized. *)
Definition resized_or_same (h : heap) (N : Z) (A : list (list elt)) : Prop :=
  ∀ l a, arrs h !! l = Some a →
         A !! l = Some a
         ∨ ((l ∉ views h) ∧ A !! l = Some (resize (Z.to_nat N) zero a)).

(** The body of the loop of [validate] *)
Definition validate_body (self : nat) (expected_len : Z) (die : bool)
    (key : string) : M unit :=
  v ← BasePeople.__getitem__ self key;
  actual_len ← py_len v;
  if bool_decide (actual_len ≠ expected_len) then
    if die then raise IndexError
    else BasePeople.resize_ self None (Some [key])
  else mret tt.

(** The layers that [init_contacts] makes for a store *)
Definition fresh_layers (self : nat) (h : heap) (li : list (string * dtype))
    : list (string * LayerObj) :=
  foldl (λ c key, Dict.set c key (Layer.__init__ li)) Contacts.__init__
        match (BasePeople.contact_keys self h).1 with
        | Ok ks => ks
        | Raise _ => []
        end.

(** The layer mapping of a store *)
Definition layers (h : heap) (self : nat) : option (list (string * LayerObj)) :=
  v ← attr_val h self "contacts";
  match v with
  | VContacts c => Some c
  | _ => None
  end.

End Vocabulary.

(** ** A small store to run the model on

    Integer elements; three states; what a subclass does after the base
    initialization is done by hand: the arrays are put in place, their
    dtypes recorded, and the attribute names locked. *)

Definition sample_keys : PeopleKeys :=
  {| all_states := ["uid"; "age"; "susceptible"];
     contacts := [("p1", np_object); ("p2", np_object);
                  ("beta", np_object); ("layer", np_object)] |}.

#[export] Instance sample_defaults : Defaults :=
  {| cvd_PeopleKeys := sample_keys; np_float32 := np_object |}.

Definition sample_pars : Pars :=
  {| par_pop_size := Some 3;
     par_beta_layer := Some [("h", 1%Q); ("c", 1%Q)];
     par_contacts := Some [("h", 4); ("c", 20)] |}.

Definition sample_dtypes : gmap string dtype :=
  <["uid" := np_object]> (<["age" := np_object]> (<["susceptible" := np_bool]> ∅)).

Definition sample_people (uid age susceptible : list Z) : M nat :=
  self ← BasePeople.__init__ (Some sample_pars) (Some (Z.of_nat (length uid)));
  l ← alloc_arr uid;
  _ ← BasePeople.__setitem__ self "uid" (VArr l);
  l ← alloc_arr age;
  _ ← BasePeople.__setitem__ self "age" (VArr l);
  l ← alloc_arr susceptible;
  _ ← BasePeople.__setitem__ self "susceptible" (VArr l);
  _ ← setattr self "_dtypes" (VDtypes sample_dtypes);
  _ ← setattr self "_lock" (VBool true);
  mret self.

(** Two stores: number 0 with three people, number 1 with two. *)
Definition sample_heap : heap :=
  (( _ ← sample_people [0; 1; 2] [30; 40; 50] [1; 0; 1];
     sample_people [0; 1] [60; 70] [0; 1]) (Heap [] [] [])).2.

(** The per-person contact list [{'h':[1,2]}, {'h':[0]}, {'h':[0]}]. *)
Definition sample_adjacency : contacts_arg :=
  PerPerson [[("h", [1; 2])]; [("h", [0])]; [("h", [0])]].

(** The edge rows (0,1), (0,2), (1,0), (2,0) of a household layer. *)
Definition household_rows : list edge :=
  map (λ pq, {| p1 := pq.1; p2 := pq.2; beta := 1%Q; layer := "h" |})
      [(0, 1); (0, 2); (1, 0); (2, 0)].

(** The layers of the first sample store: ['h'] and ['c'], both empty. *)
Definition sample_layers : list (string * LayerObj) := default [] (layers sample_heap 0).

(** Parameters whose [contacts] entry lists the households only, and the
    first sample store with them as its [pars]: it has a layer ['c'] that
    the parameter does not list. *)
Definition home_pars : Pars :=
  {| par_pop_size := Some 3;
     par_beta_layer := Some [("h", 1%Q); ("c", 1%Q)];
     par_contacts := Some [("h", 4)] |}.

Definition unlisted_heap : heap := (setattr 0 "pars" (VPars home_pars) sample_heap).2.

(** A store that has nothing but its lock, set. *)
Definition locked_dict : gmap string pyval := <["_lock" := VBool true]> ∅.
Definition locked_heap : heap := Heap [] [locked_dict] [].

(** The first sample store after [set('age', [31, 41], die=False)]: its
    [age] has two elements where [pop_size] says three. *)
Definition ragged_heap : heap := (BasePeople.set_ 0 "age" [31; 41] false sample_heap).2.

(** The ragged store when its [age] is a view of another array's first two
    elements, as after [people['age'] = other[:2]]. *)
Definition view_heap : heap :=
  Heap (arrs ragged_heap) (objs ragged_heap) [length (arrs sample_heap)].

(** The attributes of the first sample store *)
Definition sample_dict : gmap string pyval := default ∅ (objs sample_heap !! 0%nat).

(** ** Vocabulary of the frame of [__add__] *)

Section FrameVocabulary.
Context `{Numpy}.

(** While [__add__] runs on [h0].  A value is new when it is no array of
    [h0]; a heap extends [h0] when the arrays and the objects of [h0] are
    still there as they were, and the object made first after them, if
    there is one, holds new values only. *)
Definition new_val (h0 : heap) (v : pyval) : Prop :=
  ∀ l, v = VArr l → (length (arrs h0) ≤ l)%nat.

Definition new_dict (h0 : heap) (d : gmap string pyval) : Prop :=
  ∀ name v, d !! name = Some v → new_val h0 v.

Definition extends (h0 h : heap) : Prop :=
  arrs h0 `prefix_of` arrs h
  ∧ objs h0 `prefix_of` objs h
  ∧ ∀ d, objs h !! length (objs h0) = Some d → new_dict h0 d.

(** A computation that takes extensions of [h0] to extensions of [h0], and
    whose result, when it returns one, satisfies [R]. *)
Definition keeps {X} (h0 : heap) (m : M X) (R : X → Prop) : Prop :=
  ∀ h, extends h0 h → extends h0 (m h).2 ∧ ∀ x, (m h).1 = Ok x → R x.

End FrameVocabulary.

(** * Properties *)

(** ** remove_duplicates *)

Section RemoveDuplicates.
Import BasePeople.

Lemma row_le_spec a b :
  row_le a b = true ↔ p1 a < p1 b ∨ (p1 a = p1 b ∧ p2 a ≤ p2 b).
Proof. unfold row_le. rewrite orb_true_iff, andb_true_iff. lia. Qed.

Lemma row_le_false a b : row_le a b = false → row_le b a = true.
Proof.
  intros Hf. apply row_le_spec.
  destruct (row_le a b) eqn:E; [done|].
  assert (¬ (p1 a < p1 b ∨ (p1 a = p1 b ∧ p2 a ≤ p2 b))) by (rewrite <- row_le_spec, E; done).
  lia.
Qed.

Lemma row_le_trans a b c :
  row_le a b = true → row_le b c = true → row_le a c = true.
Proof. rewrite !row_le_spec. lia. Qed.

Lemma same_pair_spec a b : same_pair a b = true ↔ p1 a = p1 b ∧ p2 a = p2 b.
Proof. unfold same_pair. rewrite andb_true_iff. lia. Qed.

Lemma minmax_ordered e : p1 (minmax e) ≤ p2 (minmax e).
Proof. simpl. lia. Qed.

Lemma minmax_id e : p1 e ≤ p2 e → minmax e = e.
Proof.
  destruct e as [a b w l]. unfold minmax. simpl. intros Hle.
  by rewrite Z.min_l, Z.max_r by lia.
Qed.

(** sort_values sorts, and keeps every row *)

Lemma insert_row_elem e l x : x ∈ insert_row e l ↔ x = e ∨ x ∈ l.
Proof.
  induction l as [|y t IH]; simpl.
  - rewrite list_elem_of_singleton, elem_of_nil. tauto.
  - destruct (row_le e y); [apply elem_of_cons|].
    rewrite !elem_of_cons, IH. tauto.
Qed.

Lemma sort_values_elem l x : x ∈ sort_values l ↔ x ∈ l.
Proof.
  induction l as [|y t IH]; simpl; [done|].
  rewrite insert_row_elem, elem_of_cons, IH. done.
Qed.

Lemma insert_row_sorted e l :
  StronglySorted (λ a b, row_le a b = true) l →
  StronglySorted (λ a b, row_le a b = true) (insert_row e l).
Proof.
  induction 1 as [|y t Hs IH Hy]; simpl.
  - repeat constructor.
  - destruct (row_le e y) eqn:E.
    + constructor; [by constructor|].
      constructor; [done|].
      eapply Forall_impl; [exact Hy|]. intros z Hz. by eapply row_le_trans.
    + constructor; [done|].
      apply Forall_forall. intros z Hz. apply insert_row_elem in Hz as [->|Hz].
      * by apply row_le_false.
      * rewrite Forall_forall in Hy. by apply Hy.
Qed.

Lemma sort_values_sorted l : StronglySorted (λ a b, row_le a b = true) (sort_values l).
Proof. induction l; simpl; [constructor|by apply insert_row_sorted]. Qed.

Lemma insert_row_head e l :
  Forall (λ x, row_le e x = true) l → insert_row e l = e :: l.
Proof. destruct 1 as [|y t Hy _]; simpl; [done|by rewrite Hy]. Qed.

Lemma sort_values_id l :
  StronglySorted (λ a b, row_le a b = true) l → sort_values l = l.
Proof.
  induction 1 as [|y t Hs IH Hy]; simpl; [done|].
  rewrite IH. by apply insert_row_head.
Qed.

(** drop_duplicates keeps rows of the frame, in order, one per pair *)

Lemma drop_duplicates_from_elem seen l x :
  x ∈ drop_duplicates_from seen l → x ∈ l ∧ existsb (same_pair x) seen = false.
Proof.
  revert seen. induction l as [|y t IH]; intros seen; simpl.
  { by intros ?%elem_of_nil. }
  destruct (existsb (same_pair y) seen) eqn:E.
  - intros [? ?]%IH. split; [by right|done].
  - rewrite elem_of_cons. intros [->|Hx]; [split; [by left|done]|].
    apply IH in Hx as [? Hx]. split; [by right|].
    simpl in Hx. by apply orb_false_elim in Hx as [_ ?].
Qed.

Lemma drop_duplicates_from_sorted (R : edge → edge → Prop) seen l :
  StronglySorted R l → StronglySorted R (drop_duplicates_from seen l).
Proof.
  intros Hs. revert seen. induction Hs as [|y t Hs IH Hy]; intros seen; simpl.
  - constructor.
  - destruct (existsb (same_pair y) seen); [apply IH|].
    constructor; [apply IH|].
    apply Forall_forall. intros z [Hz _]%drop_duplicates_from_elem.
    rewrite Forall_forall in Hy. by apply Hy.
Qed.

Lemma drop_duplicates_from_distinct seen l :
  StronglySorted (λ a b, same_pair a b = false) (drop_duplicates_from seen l).
Proof.
  revert seen. induction l as [|y t IH]; intros seen; simpl; [constructor|].
  destruct (existsb (same_pair y) seen) eqn:E; [apply IH|].
  constructor; [apply IH|].
  apply Forall_forall. intros z [_ Hz]%drop_duplicates_from_elem.
  simpl in Hz. apply orb_false_elim in Hz as [Hz _].
  destruct (same_pair y z) eqn:E'; [|done].
  apply same_pair_spec in E'. 
  assert (same_pair z y = true) by (apply same_pair_spec; lia). congruence.
Qed.

Lemma drop_duplicates_from_id seen l :
  Forall (λ x, existsb (same_pair x) seen = false) l →
  StronglySorted (λ a b, same_pair a b = false) l →
  drop_duplicates_from seen l = l.
Proof.
  intros Hseen Hs. revert seen Hseen.
  induction Hs as [|y t Hs IH Hy]; intros seen Hseen; simpl; [done|].
  apply Forall_cons in Hseen as [Hy' Ht]. rewrite Hy'. f_equal.
  apply IH. apply Forall_forall. intros z Hz. simpl.
  rewrite Forall_forall in Ht, Hy. rewrite (Ht z Hz), orb_false_r.
  specialize (Hy z Hz).
  destruct (same_pair z y) eqn:E'; [|done].
  apply same_pair_spec in E'.
  assert (same_pair y z = true) by (apply same_pair_spec; lia). congruence.
Qed.

Lemma filter_sorted (R : edge → edge → Prop) (P : edge → Prop) `{!∀ e, Decision (P e)} l :
  StronglySorted R l → StronglySorted R (filter P l).
Proof.
  induction 1 as [|y t Hs IH Hy]; [constructor|].
  rewrite filter_cons. destruct (decide (P y)); [|done].
  constructor; [done|].
  apply Forall_forall. intros z [_ Hz]%list_elem_of_filter.
  rewrite Forall_forall in Hy. by apply Hy.
Qed.

Lemma filter_id (P : edge → Prop) `{!∀ e, Decision (P e)} l :
  Forall P l → filter P l = l.
Proof.
  induction 1 as [|y t Hy Ht IH]; [done|].
  rewrite filter_cons, decide_True by done. by f_equal.
Qed.

Lemma StronglySorted_lookup (R : edge → edge → Prop) l i j a b :
  StronglySorted R l → (i < j)%nat → l !! i = Some a → l !! j = Some b → R a b.
Proof.
  intros Hs. revert i j. induction Hs as [|y t Hs IH Hy]; intros i j Hij Ha Hb; [done|].
  destruct j as [|j]; [lia|]. destruct i as [|i]; simpl in *.
  - injection Ha as ->. rewrite Forall_forall in Hy. apply Hy.
    by eapply list_elem_of_lookup_2.
  - apply (IH i j); [lia|done..].
Qed.

(** The rows that [remove_duplicates] returns. *)
Lemma remove_duplicates_rows df :
  let R := remove_duplicates df in
  Forall (λ e, p1 e < p2 e) R ∧
  StronglySorted (λ a b, row_le a b = true) R ∧
  StronglySorted (λ a b, same_pair a b = false) R.
Proof.
  unfold remove_duplicates, drop_duplicates. simpl. split; [|split].
  - apply Forall_forall. intros e [Hne He]%list_elem_of_filter.
    apply drop_duplicates_from_elem in He as [He _].
    apply sort_values_elem, list_elem_of_fmap in He as [e0 [-> _]].
    pose proof (minmax_ordered e0). lia.
  - apply filter_sorted, drop_duplicates_from_sorted, sort_values_sorted.
  - apply filter_sorted, drop_duplicates_from_distinct.
Qed.

End RemoveDuplicates.

(** C3: [remove_duplicates] is idempotent; the rows it returns have
    [p1 <= p2] and no self-pair, no two of them join the same two people
    (in either order), and they are sorted by [(p1, p2)]. *)
Theorem remove_duplicates_idempotent_canonical (df : list edge) :
  BasePeople.remove_duplicates (BasePeople.remove_duplicates df)
    = BasePeople.remove_duplicates df
  ∧ Forall (λ e, p1 e ≠ p2 e ∧ p1 e ≤ p2 e) (BasePeople.remove_duplicates df)
  ∧ (∀ i j a b,
       BasePeople.remove_duplicates df !! i = Some a →
       BasePeople.remove_duplicates df !! j = Some b →
       i ≠ j →
       ¬ ((p1 a = p1 b ∧ p2 a = p2 b) ∨ (p1 a = p2 b ∧ p2 a = p1 b)))
  ∧ (∀ i j a b,
       (i < j)%nat →
       BasePeople.remove_duplicates df !! i = Some a →
       BasePeople.remove_duplicates df !! j = Some b →
       p1 a < p1 b ∨ (p1 a = p1 b ∧ p2 a ≤ p2 b)).
Proof.
  destruct (remove_duplicates_rows df) as (Hlt & Hsort & Hdist).
  set (R := BasePeople.remove_duplicates df) in *.
  split; [|split; [|split]].
  - unfold BasePeople.remove_duplicates at 1. simpl.
    assert (map BasePeople.minmax R = R) as ->.
    { clear Hsort Hdist. induction Hlt as [|e t He Ht IH]; simpl; [done|].
      rewrite IH, minmax_id by lia. done. }
    rewrite sort_values_id by done.
    unfold BasePeople.drop_duplicates.
    rewrite drop_duplicates_from_id; [|by apply Forall_forall|done].
    apply filter_id. eapply Forall_impl; [exact Hlt|]. simpl. lia.
  - eapply Forall_impl; [exact Hlt|]. simpl. lia.
  - intros i j a b Ha Hb Hij Heq.
    assert (p1 a < p2 a ∧ p1 b < p2 b) as [??].
    { rewrite Forall_forall in Hlt. split; apply Hlt; by eapply list_elem_of_lookup_2. }
    assert (BasePeople.same_pair a b = true ∧ BasePeople.same_pair b a = true) as [E1 E2].
    { rewrite !same_pair_spec. lia. }
    destruct (decide (i < j)%nat).
    + pose proof (StronglySorted_lookup _ _ _ _ _ _ Hdist ltac:(done) Ha Hb). simpl in *. congruence.
    + pose proof (StronglySorted_lookup _ _ j i _ _ Hdist ltac:(lia) Hb Ha). simpl in *. congruence.
  - intros i j a b Hij Ha Hb.
    apply row_le_spec. exact (StronglySorted_lookup _ _ _ _ _ _ Hsort Hij Ha Hb).
Qed.

(** ** Running the monad *)

Section Run.
Context `{Numpy}.

Lemma bind_ok {A B} (m : M A) (f : A → M B) h a h' :
  m h = (Ok a, h') → (m ≫= f) h = f a h'.
Proof. intros E. unfold mbind, M_bind. by rewrite E. Qed.

Lemma bind_raise {A B} (m : M A) (f : A → M B) h e h' :
  m h = (Raise e, h') → (m ≫= f) h = (Raise e, h').
Proof. intros E. unfold mbind, M_bind. by rewrite E. Qed.

Lemma getattr_ok h self d name v :
  objs h !! self = Some d → d !! name = Some v → getattr self name h = (Ok v, h).
Proof.
  intros Ho Hv. unfold getattr, read_obj, mbind, M_bind. by rewrite Ho, Hv.
Qed.

Lemma getattr_missing h self d name :
  objs h !! self = Some d → d !! name = None →
  getattr self name h = (Raise AttributeError, h).
Proof.
  intros Ho Hv. unfold getattr, read_obj, mbind, M_bind. by rewrite Ho, Hv.
Qed.

Lemma setattr_ok h self d name v :
  objs h !! self = Some d →
  setattr self name v h
    = (Ok tt, Heap (arrs h) (<[self := <[name := v]> d]> (objs h)) (views h)).
Proof. intros Ho. unfold setattr, read_obj, mbind, M_bind. by rewrite Ho. Qed.

(** The object made last *)
Lemma lookup_last {X} (l : list X) (x : X) : (l ++ [x]) !! length l = Some x.
Proof. by rewrite lookup_app_r, Nat.sub_diag by lia. Qed.

Lemma insert_last {X} (l : list X) (x y : X) : <[length l := y]> (l ++ [x]) = l ++ [y].
Proof. by rewrite insert_app_r_alt, Nat.sub_diag by lia. Qed.

Lemma setattr_last A O V d name v :
  setattr (length O) name v (Heap A (O ++ [d]) V)
    = (Ok tt, Heap A (O ++ [<[name := v]> d]) V).
Proof.
  erewrite setattr_ok by apply lookup_last. simpl. by rewrite insert_last.
Qed.

Lemma getattr_last A O V d name v :
  d !! name = Some v →
  getattr (length O) name (Heap A (O ++ [d]) V) = (Ok v, Heap A (O ++ [d]) V).
Proof. intros Hv. eapply getattr_ok; [apply lookup_last|done]. Qed.

End Run.

(** One step of a computation whose first action is known *)
Tactic Notation "mstep" tactic3(tac) := erewrite bind_ok; [|tac]; cbv beta iota.

(** ** The transmission tree of a new store *)

Section Init.
Context `{Defaults}.

Lemma arange_length n : length (arange n) = Z.to_nat n.
Proof. unfold arange. by rewrite length_map, length_seq. Qed.

Lemma contact_keys_total self h :
  ∃ ks, BasePeople.contact_keys self h = (Ok ks, h).
Proof. unfold BasePeople.contact_keys. by eexists. Qed.

Lemma init_contacts_last A O V d li :
  d !! "contacts" = Some VNone →
  d !! "layer_info" = Some (VLayerInfo li) →
  BasePeople.init_contacts (length O) false None (Heap A (O ++ [d]) V)
    = (Ok None, Heap A (O ++ [<["contacts" :=
          VContacts (fresh_layers (length O) (Heap A (O ++ [d]) V) li)]> d]) V).
Proof.
  intros Hc Hli. unfold BasePeople.init_contacts, fresh_layers.
  destruct (contact_keys_total (length O) (Heap A (O ++ [d]) V)) as [ks Hks].
  rewrite Hks. mstep (exact Hks).
  destruct ks as [|k ks].
  - mstep reflexivity. mstep (by apply getattr_last).
    mstep (apply setattr_last). reflexivity.
  - mstep (mstep (by apply getattr_last); reflexivity).
    mstep (by apply getattr_last).
    mstep (apply setattr_last). reflexivity.
Qed.

Lemma init_last pars n h :
  ∃ d, BasePeople.__init__ pars (Some n) h
         = (Ok (length (objs h)), Heap (arrs h) (objs h ++ [d]) (views h))
       ∧ d !! "pop_size" = Some (VInt n)
       ∧ d !! "_lock" = Some (VBool false)
       ∧ d !! "transtree" = Some (VTransTree (TransTree.__init__ (Some n) None None)).
Proof.
  unfold BasePeople.__init__. eexists.
  mstep reflexivity. simpl.
  do 2 mstep (first [apply setattr_last|reflexivity]).
  do 7 mstep (apply setattr_last).
  mstep (apply init_contacts_last; by simplify_map_eq).
  mstep (apply setattr_last).
  split; [reflexivity|]. by simplify_map_eq.
Qed.

End Init.


(** C9: a store initialized with size [n >= 0] holds a transmission tree
    whose [sources] and [targets] both have [n] entries, every source
    unset and every target list empty. *)
Theorem init_transtree_sized `{Defaults} (pars : option Pars) (n : Z) (h : heap) :
  0 ≤ n →
  ∃ self h' tt,
    BasePeople.__init__ pars (Some n) h = (Ok self, h')
    ∧ attr_val h' self "pop_size" = Some (VInt n)
    ∧ attr_val h' self "transtree" = Some (VTransTree tt)
    ∧ Z.of_nat (length (sources tt)) = n
    ∧ Z.of_nat (length (targets tt)) = n
    ∧ Forall (λ s, s = None) (sources tt)
    ∧ Forall (λ t, t = []) (targets tt).
Proof.
  intros Hn. destruct (init_last pars n h) as (d & Hrun & Hpop & _ & Htt).
  eexists _, _, _. split; [exact Hrun|].
  unfold attr_val. simpl. rewrite lookup_last. simpl.
  split; [exact Hpop|]. split; [exact Htt|]. simpl.
  rewrite length_replicate, length_map, arange_length.
  repeat split; try lia.
  - apply Forall_replicate. done.
  - apply Forall_forall. intros t Ht. apply list_elem_of_fmap in Ht as [? [-> _]]. done.
Qed.

Lemma init_transtree_sized_witness :
  0 ≤ 3
  ∧ ∃ self h' tt,
      BasePeople.__init__ (Some sample_pars) (Some 3) (Heap [] [] []) = (Ok self, h')
      ∧ attr_val h' self "pop_size" = Some (VInt 3)
      ∧ attr_val h' self "transtree" = Some (VTransTree tt)
      ∧ Z.of_nat (length (sources tt)) = 3
      ∧ Z.of_nat (length (targets tt)) = 3
      ∧ Forall (λ s, s = None) (sources tt)
      ∧ Forall (λ t, t = []) (targets tt).
Proof.
  split; [lia|].
  apply (init_transtree_sized (Some sample_pars) 3 (Heap [] [] [])). lia.
Defined.

(** ** Item assignment and the lock *)

Section Lock.
Context `{Numpy}.

Lemma setitem_run h self d lk key v :
  objs h !! self = Some d →
  d !! "_lock" = Some (VBool lk) →
  BasePeople.__setitem__ self key v h =
    if lk && negb (bool_decide (is_Some (d !! key)))
    then (Raise AttributeError, h)
    else (Ok tt, Heap (arrs h) (<[self := <[key := v]> d]> (objs h)) (views h)).
Proof.
  intros Ho Hl. unfold BasePeople.__setitem__.
  mstep (by eapply getattr_ok).
  mstep reflexivity.
  mstep (unfold read_obj; rewrite Ho; reflexivity).
  by destruct (lk && negb (bool_decide (is_Some (d !! key)))).
Qed.

End Lock.

(** C7 (as the code has it): the lock is a flag, [_lock], that base
    initialization leaves off.  A write to an existing attribute name
    succeeds and replaces the value.  A write to a name that is not an
    attribute fails with [AttributeError] and changes nothing when the flag
    is on, and succeeds, adding the attribute, when it is off. *)
Theorem setitem_guarded_by_lock_flag `{Defaults} (h : heap) (self : nat)
    (d : gmap string pyval) (lk : bool) (key : string) (v : pyval) :
  objs h !! self = Some d →
  d !! "_lock" = Some (VBool lk) →
  (∀ pars n h0, ∃ p h1, BasePeople.__init__ pars (Some n) h0 = (Ok p, h1)
                        ∧ attr_val h1 p "_lock" = Some (VBool false))
  ∧ (is_Some (d !! key) ∨ lk = false →
       ∃ h', BasePeople.__setitem__ self key v h = (Ok tt, h')
             ∧ objs h' !! self = Some (<[key := v]> d))
  ∧ (d !! key = None → lk = true →
       BasePeople.__setitem__ self key v h = (Raise AttributeError, h)).
Proof.
  intros Ho Hl. split; [|split].
  - intros pars n h0. destruct (init_last pars n h0) as (d0 & Hrun & _ & Hlock & _).
    eexists _, _. split; [exact Hrun|].
    unfold attr_val. simpl. by rewrite lookup_last.
  - intros Hcase. rewrite (setitem_run h self d lk key v Ho Hl).
    assert (lk && negb (bool_decide (is_Some (d !! key))) = false) as ->.
    { destruct Hcase as [Hin| ->]; [|done].
      rewrite bool_decide_eq_true_2 by done. by rewrite andb_false_r. }
    eexists. split; [reflexivity|]. simpl.
    apply list_lookup_insert_eq. by eapply lookup_lt_Some.
  - intros Hnone ->. rewrite (setitem_run h self d true key v Ho Hl).
    rewrite bool_decide_eq_false_2; [done|].
    rewrite Hnone. by intros [? ?].
Qed.

Lemma setitem_guarded_by_lock_flag_witness :
  objs locked_heap !! 0%nat = Some locked_dict
  ∧ locked_dict !! "_lock" = Some (VBool true)
  ∧ (∀ pars n h0, ∃ p h1, BasePeople.__init__ pars (Some n) h0 = (Ok p, h1)
                          ∧ attr_val h1 p "_lock" = Some (VBool false))
  ∧ (is_Some (locked_dict !! "age") ∨ true = false →
       ∃ h', BasePeople.__setitem__ 0 "age" VNone locked_heap = (Ok tt, h')
             ∧ objs h' !! 0%nat = Some (<["age" := VNone]> locked_dict))
  ∧ (locked_dict !! "age" = None → true = true →
       BasePeople.__setitem__ 0 "age" VNone locked_heap = (Raise AttributeError, locked_heap)).
Proof.
  split; [reflexivity|]. split; [reflexivity|].
  apply (setitem_guarded_by_lock_flag locked_heap 0 locked_dict true "age" VNone); reflexivity.
Defined.

(** Right after base initialization the name set is open: a write to a name
    that is not an attribute goes through. *)
Lemma setitem_after_init_adds_attribute :
  ∃ p h,
    BasePeople.__init__ None (Some 0) (Heap [] [] []) = (Ok p, h)
    ∧ attr_val h p "nickname" = None
    ∧ (BasePeople.__setitem__ p "nickname" VNone h).1 = Ok tt.
Proof.
  eexists _, _. split; [vm_compute; reflexivity|].
  split; vm_compute; reflexivity.
Qed.

(** ** Selecting by a predicate: [true] and [false] *)

Section Select.
Context `{Numpy}.

Lemma attr_val_inv h self name v :
  attr_val h self name = Some v ↔ ∃ d, objs h !! self = Some d ∧ d !! name = Some v.
Proof.
  unfold attr_val. destruct (objs h !! self) as [d|]; simpl.
  - split; [by eexists|]. by intros (? & [= ->] & ?).
  - split; [done|]. by intros (? & ? & ?).
Qed.

Lemma attr_inv h self key a :
  attr h self key = Some a ↔
  ∃ l, attr_val h self key = Some (VArr l) ∧ arrs h !! l = Some a.
Proof.
  unfold attr. destruct (attr_val h self key) as [v|]; simpl.
  - split.
    + destruct v; try done. intros ?. by eexists.
    + by intros (l & [= ->] & ?).
  - split; [done|]. by intros (? & ? & ?).
Qed.

Lemma getitem_ok h self key v :
  attr_val h self key = Some v → BasePeople.__getitem__ self key h = (Ok v, h).
Proof.
  intros (d & Ho & Hv)%attr_val_inv.
  unfold BasePeople.__getitem__, read_obj, mbind, M_bind. by rewrite Ho, Hv.
Qed.

Lemma read_arr_ok h l a : arrs h !! l = Some a → read_arr l h = (Ok a, h).
Proof. intros E. unfold read_arr. by rewrite E. Qed.

Lemma nonzero_ok h l a :
  arrs h !! l = Some a → nonzero (VArr l) h = (Ok (nonzero_from 0 a), h).
Proof. intros E. unfold nonzero. mstep (by apply read_arr_ok). done. Qed.

Lemma true_run h self key a :
  attr h self key = Some a →
  BasePeople.true_ self key h = (Ok (nonzero_from 0 a), h).
Proof.
  intros (l & Hv & Ha)%attr_inv. unfold BasePeople.true_.
  mstep (by apply getitem_ok). by apply nonzero_ok.
Qed.

Lemma false_run h self key a :
  attr h self key = Some a →
  BasePeople.false_ self key h = (Ok (map Z.lnot (nonzero_from 0 a)), h).
Proof.
  intros (l & Hv & Ha)%attr_inv. unfold BasePeople.false_.
  mstep (by apply getitem_ok). mstep (by apply nonzero_ok). done.
Qed.

Lemma nonzero_from_elem a i0 i :
  i ∈ nonzero_from i0 a ↔
  ∃ j x, a !! j = Some x ∧ is_nonzero x = true ∧ i = i0 + Z.of_nat j.
Proof.
  revert i0. induction a as [|y t IH]; intros i0; simpl.
  - split; [by intros ?%elem_of_nil|]. by intros (j & x & ? & _).
  - assert (i ∈ nonzero_from (i0 + 1) t ↔
            ∃ j x, (y :: t) !! S j = Some x ∧ is_nonzero x = true
                   ∧ i = i0 + Z.of_nat (S j)) as Htail.
    { rewrite IH. split; intros (j & x & ? & ? & ?); exists j, x;
        (split; [done|split; [done|lia]]). }
    destruct (is_nonzero y) eqn:Ey.
    + rewrite elem_of_cons, Htail. split.
      * intros [->|(j & x & ? & ? & ?)]; [|by eauto].
        exists 0%nat, y. split; [done|split; [done|lia]].
      * intros ([|j] & x & Hj & Hx & ->); [left; lia|right; by eauto].
    + rewrite Htail. split; [by intros (j & x & ? & ? & ?); eauto|].
      intros ([|j] & x & Hj & Hx & ->); [|by eauto].
      simpl in Hj. congruence.
Qed.

Lemma nonzero_from_sorted a i0 : StronglySorted Z.lt (nonzero_from i0 a).
Proof.
  revert i0. induction a as [|y t IH]; intros i0; simpl; [constructor|].
  destruct (is_nonzero y); [|apply IH].
  constructor; [apply IH|].
  apply Forall_forall. intros i (j & x & _ & _ & ->)%nonzero_from_elem. lia.
Qed.

(** [true] is right: the positions of the nonzero elements, ascending. *)
Lemma true_selects_nonzero h self key a :
  attr h self key = Some a →
  ∃ idx, BasePeople.true_ self key h = (Ok idx, h)
         ∧ StronglySorted Z.lt idx
         ∧ ∀ i, i ∈ idx ↔ ∃ x, 0 ≤ i ∧ a !! Z.to_nat i = Some x ∧ is_nonzero x = true.
Proof.
  intros Ha. eexists. split; [by apply true_run|].
  split; [apply nonzero_from_sorted|].
  intros i. rewrite nonzero_from_elem. split.
  - intros (j & x & Hj & Hx & ->). exists x.
    rewrite Z.add_0_l, Nat2Z.id. split; [lia|done].
  - intros (x & Hi & Hj & Hx). exists (Z.to_nat i), x. split; [done|split; [done|lia]].
Qed.

(** [false] never returns a position: all it returns is negative. *)
Lemma false_returns_negatives h self key a :
  attr h self key = Some a →
  ∃ idx, BasePeople.false_ self key h = (Ok idx, h) ∧ Forall (λ i, i < 0) idx.
Proof.
  intros Ha. eexists. split; [by apply false_run|].
  apply Forall_forall. intros i (i' & -> & Hi)%list_elem_of_fmap.
  apply nonzero_from_elem in Hi as (j & x & _ & _ & ->).
  unfold Z.lnot. lia.
Qed.

End Select.

(** C2: on the attribute [1, 0, 1] the zero sits at position 1, and [false]
    returns [-1, -3], the bitwise complements of the positions 0 and 2 that
    [true] returns. *)
Theorem false_complements_the_true_positions :
  attr sample_heap 0 "susceptible" = Some [1; 0; 1]
  ∧ (BasePeople.true_ 0 "susceptible" sample_heap).1 = Ok [0; 2]
  ∧ (BasePeople.false_ 0 "susceptible" sample_heap).1 = Ok [-1; -3].
Proof. repeat split; vm_compute; reflexivity. Qed.

(** ** Replacing an array: [set] *)

Section SetArray.
Context `{Numpy}.

Lemma py_len_arr h l a :
  arrs h !! l = Some a → py_len (VArr l) h = (Ok (Z.of_nat (length a)), h).
Proof. intros E. unfold py_len. mstep (by apply read_arr_ok). done. Qed.

(** What [set] does to a store whose attribute [key] is an array *)
Lemma set_run h self d key l cur t dt lk value die :
  objs h !! self = Some d →
  d !! key = Some (VArr l) →
  arrs h !! l = Some cur →
  d !! "_dtypes" = Some (VDtypes t) →
  t !! key = Some dt →
  d !! "_lock" = Some (VBool lk) →
  BasePeople.set_ self key value die h =
    if die && bool_decide (length value ≠ length cur)
    then (Raise IndexError, h)
    else (Ok tt, Heap (arrs h ++ [map (astype dt) value])
                      (<[self := <[key := VArr (length (arrs h))]> d]> (objs h))
                      (own_from (length (arrs h)) (views h))).
Proof.
  intros Ho Hk Hl Hd Ht Hlk. unfold BasePeople.set_.
  mstep (apply getitem_ok, attr_val_inv; by eauto).
  mstep (by eapply getattr_ok).
  rewrite Ht. mstep reflexivity.
  destruct die; simpl.
  - destruct (decide (length value = length cur)) as [Heq|Hne].
    + rewrite (bool_decide_eq_false_2 (length value ≠ length cur)) by tauto.
      mstep (mstep (by apply py_len_arr);
             rewrite bool_decide_eq_false_2 by (rewrite length_map; lia);
             reflexivity).
      mstep reflexivity.
      erewrite setitem_run by (simpl; by eauto).
      rewrite bool_decide_eq_true_2 by (by rewrite Hk).
      by rewrite andb_false_r.
    + rewrite (bool_decide_eq_true_2 (length value ≠ length cur)) by done.
      erewrite bind_raise; [reflexivity|].
      mstep (by apply py_len_arr).
      rewrite bool_decide_eq_true_2 by (rewrite length_map; lia).
      reflexivity.
  - mstep reflexivity. mstep reflexivity.
    erewrite setitem_run by (simpl; by eauto).
    rewrite bool_decide_eq_true_2 by (by rewrite Hk).
    by rewrite andb_false_r.
Qed.

(** Reading a store after one of its attributes was given a new array *)
Lemma attr_val_updated h self d name v ext V :
  objs h !! self = Some d →
  attr_val (Heap (arrs h ++ ext) (<[self := <[name := v]> d]> (objs h)) V) self name
    = Some v.
Proof.
  intros Ho. apply attr_val_inv. eexists. split.
  - simpl. apply list_lookup_insert_eq. by eapply lookup_lt_Some.
  - apply lookup_insert_eq.
Qed.

Lemma attr_val_updated_ne h self d name name' v ext V :
  objs h !! self = Some d →
  name ≠ name' →
  attr_val (Heap (arrs h ++ ext) (<[self := <[name := v]> d]> (objs h)) V) self name'
    = attr_val h self name'.
Proof.
  intros Ho Hne. unfold attr_val. simpl.
  rewrite list_lookup_insert_eq by (by eapply lookup_lt_Some).
  rewrite Ho. simpl. by apply lookup_insert_ne.
Qed.

Lemma attr_updated_ne h self d name name' v ext a V :
  objs h !! self = Some d →
  name ≠ name' →
  attr h self name' = Some a →
  attr (Heap (arrs h ++ ext) (<[self := <[name := v]> d]> (objs h)) V) self name'
    = Some a.
Proof.
  intros Ho Hne (l & Hv & Ha)%attr_inv. apply attr_inv. exists l. split.
  - by erewrite attr_val_updated_ne.
  - simpl. by apply lookup_app_l_Some.
Qed.

End SetArray.

(** C4: on an initialized store, [set] of a schema attribute with a value
    whose length is not [pop_size] fails with the length-mismatch error
    ([IndexError]) and leaves everything as it was; with [die=False] it
    succeeds, and the attribute is then the given values converted to the
    attribute's dtype (the other attributes and [pop_size] are as before). *)
Theorem set_checks_length `{Numpy} (h : heap) (self : nat) (k : PeopleKeys)
    (t : gmap string dtype) (n : Z) (key : string) (values : list elt) :
  people_store h self k t n →
  key ∈ all_states k →
  Z.of_nat (length values) ≠ n →
  BasePeople.set_ self key values true h = (Raise IndexError, h)
  ∧ ∃ h' dt,
      BasePeople.set_ self key values false h = (Ok tt, h')
      ∧ t !! key = Some dt
      ∧ attr h' self key = Some (map (astype dt) values)
      ∧ attr_val h' self "pop_size" = Some (VInt n)
      ∧ ∀ key' a, key' ≠ key → attr h self key' = Some a → attr h' self key' = Some a.
Proof.
  intros ((Hkl & Hpop & _) & _ & (lk & Hlk) & Hdt & Harr) Hkey Hlen.
  destruct (Harr key Hkey) as (cur & dt & Hcur & Hn & Ht & _).
  apply attr_inv in Hcur as (l & Hv & Hl).
  apply attr_val_inv in Hv as (d & Ho & Hk).
  apply attr_val_inv in Hlk as (d1 & Ho1 & Hlk).
  apply attr_val_inv in Hdt as (d2 & Ho2 & Hdt).
  assert (d1 = d) as -> by congruence. assert (d2 = d) as -> by congruence.
  split.
  - rewrite (set_run h self d key l cur t dt lk values true Ho Hk Hl Hdt Ht Hlk).
    rewrite bool_decide_eq_true_2 by lia. done.
  - rewrite (set_run h self d key l cur t dt lk values false Ho Hk Hl Hdt Ht Hlk).
    simpl. eexists _, dt. split; [reflexivity|]. split; [done|].
    split; [|split].
    + apply attr_inv. eexists. split; [by apply attr_val_updated|].
      simpl. apply lookup_last.
    + erewrite attr_val_updated_ne; [done..|].
      intros ->. apply attr_val_inv in Hpop as (d' & Ho' & Hp). congruence.
    + intros key' a Hne Ha. by eapply attr_updated_ne.
Qed.

(** ** The sample stores are initialized stores *)

Ltac sample_key Hk :=
  apply list_elem_of_In in Hk; simpl in Hk;
  destruct Hk as [<-|[<-|[<-|[]]]].

Lemma sample_store_0 : people_store sample_heap 0 sample_keys sample_dtypes 3.
Proof.
  split; [|split; [|split; [|split]]].
  - split; [vm_compute; reflexivity|]. split; [vm_compute; reflexivity|].
    intros key Hk. sample_key Hk; eexists; vm_compute; reflexivity.
  - by apply (bool_decide_unpack _).
  - exists true. vm_compute. reflexivity.
  - vm_compute. reflexivity.
  - intros key Hk.
    sample_key Hk; eexists _, _;
      (split; [vm_compute; reflexivity|]);
      (split; [reflexivity|]);
      (split; [vm_compute; reflexivity|]);
      repeat constructor.
Qed.

Lemma sample_store_1 : people_store sample_heap 1 sample_keys sample_dtypes 2.
Proof.
  split; [|split; [|split; [|split]]].
  - split; [vm_compute; reflexivity|]. split; [vm_compute; reflexivity|].
    intros key Hk. sample_key Hk; eexists; vm_compute; reflexivity.
  - by apply (bool_decide_unpack _).
  - exists true. vm_compute. reflexivity.
  - vm_compute. reflexivity.
  - intros key Hk.
    sample_key Hk; eexists _, _;
      (split; [vm_compute; reflexivity|]);
      (split; [reflexivity|]);
      (split; [vm_compute; reflexivity|]);
      repeat constructor.
Qed.

Lemma set_checks_length_witness :
  people_store sample_heap 0 sample_keys sample_dtypes 3
  ∧ "age" ∈ all_states sample_keys
  ∧ Z.of_nat (length [31; 41]) ≠ 3
  ∧ BasePeople.set_ 0 "age" [31; 41] true sample_heap = (Raise IndexError, sample_heap)
  ∧ ∃ h' dt,
      BasePeople.set_ 0 "age" [31; 41] false sample_heap = (Ok tt, h')
      ∧ sample_dtypes !! "age" = Some dt
      ∧ attr h' 0 "age" = Some (map (astype dt) [31; 41])
      ∧ attr_val h' 0 "pop_size" = Some (VInt 3)
      ∧ ∀ key' a, key' ≠ "age" → attr sample_heap 0 key' = Some a →
                  attr h' 0 key' = Some a.
Proof.
  split; [exact sample_store_0|].
  split; [by apply (bool_decide_unpack _)|].
  split; [simpl; lia|].
  apply (set_checks_length sample_heap 0 sample_keys sample_dtypes 3 "age" [31; 41]).
  - exact sample_store_0.
  - by apply (bool_decide_unpack _).
  - simpl. lia.
Defined.

(** ** Checking the lengths: [validate] *)

Section Resize.
Context `{Numpy}.

Lemma ndarray_resize_ok h l a n :
  arrs h !! l = Some a →
  0 ≤ n →
  (Z.to_nat n ≠ length a → l ∉ views h) →
  ndarray_resize (VArr l) n h
    = (Ok tt, Heap (<[l := resize (Z.to_nat n) zero a]> (arrs h)) (objs h) (views h)).
Proof.
  intros Ha Hn Hown. unfold ndarray_resize.
  mstep (by apply read_arr_ok). mstep reflexivity.
  rewrite (proj2 (Z.ltb_ge n 0)) by lia.
  destruct (decide (Z.to_nat n = length a)) as [Heq|Hne].
  - by rewrite (bool_decide_eq_false_2 (Z.to_nat n ≠ length a)) by tauto.
  - rewrite (bool_decide_eq_true_2 (l ∉ views h)) by auto.
    by rewrite andb_false_r.
Qed.

Lemma ndarray_resize_view h l a n :
  arrs h !! l = Some a →
  Z.to_nat n ≠ length a →
  l ∈ views h →
  ndarray_resize (VArr l) n h = (Raise ValueError, h).
Proof.
  intros Ha Hne Hv. unfold ndarray_resize.
  mstep (by apply read_arr_ok). mstep reflexivity.
  destruct (n <? 0); [done|].
  rewrite (bool_decide_eq_true_2 (Z.to_nat n ≠ length a)) by done.
  by rewrite (bool_decide_eq_false_2 (l ∉ views h)) by tauto.
Qed.

End Resize.

Section Validate.
Context `{Numpy}.
Variables (h : heap) (self : nat) (d : gmap string pyval) (k : PeopleKeys) (N : Z).
Hypothesis Ho : objs h !! self = Some d.
Hypothesis Hkl : d !! "keylist" = Some (VKeys k).
Hypothesis Hpop : d !! "pop_size" = Some (VInt N).
Hypothesis HN : 0 ≤ N.

Local Abbreviation healing := (resized_or_same h N).

Lemma len_run A :
  BasePeople.__len__ self (Heap A (objs h) (views h)) = (Ok N, Heap A (objs h) (views h)).
Proof.
  unfold BasePeople.__len__. mstep (by eapply getattr_ok).
  by rewrite (proj2 (Z.ltb_ge N 0)) by lia.
Qed.

Lemma keys_run A :
  BasePeople.keys self (Heap A (objs h) (views h))
    = (Ok (all_states k), Heap A (objs h) (views h)).
Proof. unfold BasePeople.keys. mstep (by eapply getattr_ok). done. Qed.

Lemma getitem_run A key v :
  d !! key = Some v →
  BasePeople.__getitem__ self key (Heap A (objs h) (views h)) = (Ok v, Heap A (objs h) (views h)).
Proof. intros Hv. apply getitem_ok, attr_val_inv. by eauto. Qed.

Lemma resize_one_run A key l cur :
  d !! key = Some (VArr l) →
  A !! l = Some cur →
  (Z.to_nat N ≠ length cur → l ∉ views h) →
  BasePeople.resize_ self None (Some [key]) (Heap A (objs h) (views h))
    = (Ok tt, Heap (<[l := resize (Z.to_nat N) zero cur]> A) (objs h) (views h)).
Proof.
  intros Hk Hl Hown. unfold BasePeople.resize_.
  mstep (apply len_run).
  mstep (by eapply setattr_ok). simpl.
  rewrite (insert_id d) by done. rewrite list_insert_id by done.
  mstep reflexivity. simpl.
  mstep (mstep (by apply getitem_run); by apply ndarray_resize_ok).
  done.
Qed.

Lemma validate_step A key l a :
  healing A →
  d !! key = Some (VArr l) →
  arrs h !! l = Some a →
  (Z.of_nat (length a) ≠ N → l ∉ views h) →
  ∃ A',
    (v ← BasePeople.__getitem__ self key;
     actual_len ← py_len v;
     if bool_decide (actual_len ≠ N) then BasePeople.resize_ self None (Some [key])
     else mret tt) (Heap A (objs h) (views h)) = (Ok tt, Heap A' (objs h) (views h))
    ∧ healing A'
    ∧ A' !! l = Some (resize (Z.to_nat N) zero a)
    ∧ ∀ l0 a0, arrs h !! l0 = Some a0 →
               A !! l0 = Some (resize (Z.to_nat N) zero a0) →
               A' !! l0 = Some (resize (Z.to_nat N) zero a0).
Proof.
  intros HA Hk Ha Hown.
  assert (∃ cur, A !! l = Some cur
                 ∧ resize (Z.to_nat N) zero cur = resize (Z.to_nat N) zero a
                 ∧ (Z.of_nat (length cur) ≠ N → cur = a))
    as (cur & Hcur & Hre & Hsame).
  { destruct (HA l a Ha) as [E|[_ E]]; eexists; (split; [exact E|]).
    - done.
    - split; [by rewrite resize_resize|]. rewrite length_resize. lia. }
  destruct (decide (Z.of_nat (length cur) = N)) as [Hlen|Hlen].
  - exists A. split; [|split; [done|split; [|done]]].
    + mstep (by apply getitem_run). mstep (by apply py_len_arr).
      by rewrite bool_decide_eq_false_2 by tauto.
    + rewrite Hcur, <- Hre. f_equal.
      replace (Z.to_nat N) with (length cur) by lia. by rewrite resize_all.
  - exists (<[l := resize (Z.to_nat N) zero a]> A).
    assert (l < length A)%nat by (by eapply lookup_lt_Some).
    split; [|split; [|split]].
    + mstep (by apply getitem_run). mstep (by apply py_len_arr).
      rewrite bool_decide_eq_true_2 by done.
      rewrite <- Hre. apply resize_one_run; [done|done|].
      intros _. apply Hown. by rewrite <- (Hsame Hlen).
    + intros l0 a0 Ha0. destruct (decide (l0 = l)) as [->|Hne].
      * right. rewrite list_lookup_insert_eq by done.
        split; [|congruence]. apply Hown. by rewrite <- (Hsame Hlen).
      * rewrite list_lookup_insert_ne by done. by apply HA.
    + by apply list_lookup_insert_eq.
    + intros l0 a0 Ha0 HA0. destruct (decide (l0 = l)) as [->|Hne].
      * rewrite list_lookup_insert_eq by done. congruence.
      * by rewrite list_lookup_insert_ne by done.
Qed.

Lemma validate_loop ks A :
  healing A →
  (∀ key, key ∈ ks → ∃ l a, d !! key = Some (VArr l) ∧ arrs h !! l = Some a
                            ∧ (Z.of_nat (length a) ≠ N → l ∉ views h)) →
  ∃ A',
    for_ ks (λ key,
      v ← BasePeople.__getitem__ self key;
      actual_len ← py_len v;
      if bool_decide (actual_len ≠ N) then
        if false then raise IndexError
        else BasePeople.resize_ self None (Some [key])
      else mret tt) (Heap A (objs h) (views h)) = (Ok tt, Heap A' (objs h) (views h))
    ∧ healing A'
    ∧ (∀ l0 a0, arrs h !! l0 = Some a0 →
                A !! l0 = Some (resize (Z.to_nat N) zero a0) →
                A' !! l0 = Some (resize (Z.to_nat N) zero a0))
    ∧ ∀ key l a, key ∈ ks → d !! key = Some (VArr l) → arrs h !! l = Some a →
                 A' !! l = Some (resize (Z.to_nat N) zero a).
Proof.
  revert A. induction ks as [|key ks IH]; intros A HA Hks.
  - exists A. split; [done|]. split; [done|]. split; [done|].
    by intros ? ? ? ?%elem_of_nil.
  - destruct (Hks key) as (l & a & Hk & Ha & Hown); [by left|].
    destruct (validate_step A key l a HA Hk Ha Hown) as (A1 & Hrun & HA1 & Hl & Hkeep).
    destruct (IH A1 HA1) as (A2 & Hrun2 & HA2 & Hkeep2 & Hdone).
    { intros key' Hin. apply Hks. by right. }
    exists A2. split; [|split; [done|split]].
    + simpl. mstep (exact Hrun). exact Hrun2.
    + intros l0 a0 Ha0 HA0. by apply Hkeep2, Hkeep.
    + intros key' l' a' [->|Hin]%elem_of_cons Hk' Ha'.
      * assert (l' = l) as -> by congruence. assert (a' = a) as -> by congruence.
        by apply Hkeep2.
      * by eapply Hdone.
Qed.

(** Strict mode reads, and stops at the first array of another length. *)
Local Abbreviation strict_body := (validate_body self N true).

Lemma strict_step_ok key l a :
  d !! key = Some (VArr l) → arrs h !! l = Some a → Z.of_nat (length a) = N →
  strict_body key h = (Ok tt, h).
Proof.
  intros Hk Ha Hlen. unfold validate_body.
  mstep (apply getitem_ok, attr_val_inv; by eauto).
  mstep (by apply py_len_arr).
  by rewrite bool_decide_eq_false_2 by tauto.
Qed.

Lemma strict_step_raise key l a :
  d !! key = Some (VArr l) → arrs h !! l = Some a → Z.of_nat (length a) ≠ N →
  strict_body key h = (Raise IndexError, h).
Proof.
  intros Hk Ha Hlen. unfold validate_body.
  mstep (apply getitem_ok, attr_val_inv; by eauto).
  mstep (by apply py_len_arr).
  by rewrite bool_decide_eq_true_2 by done.
Qed.

Lemma validate_strict_ok ks :
  (∀ key, key ∈ ks → ∃ l a, d !! key = Some (VArr l) ∧ arrs h !! l = Some a
                            ∧ Z.of_nat (length a) = N) →
  for_ ks strict_body h = (Ok tt, h).
Proof.
  induction ks as [|key ks IH]; intros Hks; [done|].
  destruct (Hks key) as (l & a & Hk & Ha & Hlen); [by left|].
  simpl. mstep (by eapply strict_step_ok).
  apply IH. intros ? ?. apply Hks. by right.
Qed.

Lemma validate_strict_raise ks :
  (∀ key, key ∈ ks → ∃ l a, d !! key = Some (VArr l) ∧ arrs h !! l = Some a) →
  (∃ key l a, key ∈ ks ∧ d !! key = Some (VArr l) ∧ arrs h !! l = Some a
              ∧ Z.of_nat (length a) ≠ N) →
  for_ ks strict_body h = (Raise IndexError, h).
Proof.
  induction ks as [|key ks IH]; intros Hks (bad & lb & ab & Hin & Hkb & Hab & Hlb).
  { by apply elem_of_nil in Hin. }
  destruct (Hks key) as (l & a & Hk & Ha); [by left|].
  simpl. destruct (decide (Z.of_nat (length a) = N)) as [Hlen|Hlen].
  - mstep (by eapply strict_step_ok).
    apply IH; [intros ? ?; apply Hks; by right|].
    exists bad, lb, ab. split; [|done].
    apply elem_of_cons in Hin as [->|Hin]; [|done].
    assert (lb = l) as -> by congruence. congruence.
  - erewrite bind_raise; [done|]. by eapply strict_step_raise.
Qed.

End Validate.

(** Lenient validation stops at a schema array that has another length and
    does not own its data: numpy refuses the resize. *)
Lemma validate_view_raises `{Numpy} (h : heap) (self : nat) (d : gmap string pyval)
    (k : PeopleKeys) (N : Z) (ks : list string) : ∀ A,
  objs h !! self = Some d →
  d !! "keylist" = Some (VKeys k) →
  d !! "pop_size" = Some (VInt N) →
  0 ≤ N →
  resized_or_same h N A →
  (∀ key, key ∈ ks → ∃ l a, d !! key = Some (VArr l) ∧ arrs h !! l = Some a) →
  (∃ key l a, key ∈ ks ∧ d !! key = Some (VArr l) ∧ arrs h !! l = Some a
              ∧ Z.of_nat (length a) ≠ N ∧ l ∈ views h) →
  ∃ A', for_ ks (validate_body self N false) (Heap A (objs h) (views h))
          = (Raise ValueError, Heap A' (objs h) (views h)).
Proof.
  induction ks as [|key ks IH];
    intros A Ho Hkl Hpop HN HA Hks (bad & lb & ab & Hin & Hkb & Hab & Hlb & Hvb).
  { by apply elem_of_nil in Hin. }
  destruct (Hks key) as (l & a & Hk & Ha); [by left|].
  destruct (decide (Z.of_nat (length a) ≠ N ∧ l ∈ views h)) as [[Hlen Hv]|Hgood].
  - (* this array is the view: it is as it was, and the resize fails *)
    assert (A !! l = Some a) as Hcur by (by destruct (HA l a Ha) as [E|[? _]]).
    exists A. simpl. erewrite bind_raise; [done|].
    unfold validate_body.
    mstep (by apply (getitem_run h self d Ho)). mstep (by apply py_len_arr).
    rewrite bool_decide_eq_true_2 by done.
    unfold BasePeople.resize_.
    mstep (by apply (len_run h self d N Ho Hpop HN)).
    mstep (by eapply setattr_ok). simpl.
    rewrite (insert_id d) by done. rewrite list_insert_id by done.
    mstep reflexivity. simpl.
    erewrite bind_raise; [done|].
    mstep (by apply (getitem_run h self d Ho)).
    apply (ndarray_resize_view _ l a); [done|lia|done].
  - destruct (validate_step h self d N Ho Hpop HN A key l a HA Hk Ha)
      as (A1 & Hrun & HA1 & _ & _).
    { intros Hlen. destruct (decide (l ∈ views h)); [|done]. by destruct Hgood. }
    destruct (IH A1 Ho Hkl Hpop HN HA1) as [A2 Hrun2].
    { intros ? ?. apply Hks. by right. }
    { exists bad, lb, ab. split; [|done].
      apply elem_of_cons in Hin as [->|Hin]; [|done].
      assert (lb = l) as -> by congruence. assert (ab = a) as -> by congruence.
      by destruct Hgood. }
    exists A2. simpl. mstep (exact Hrun). exact Hrun2.
Qed.


Lemma ragged_store : has_arrays ragged_heap 0 sample_keys 3.
Proof.
  split; [vm_compute; reflexivity|]. split; [vm_compute; reflexivity|].
  intros key Hk. sample_key Hk; eexists; vm_compute; reflexivity.
Qed.


(** On the ragged store, whose arrays all own their data: strict validation
    raises, lenient validation pads [age] to [31, 41, 0]. *)
Example validate_ragged :
  views ragged_heap = []
  ∧ (BasePeople.validate 0 true ragged_heap).1 = Raise IndexError
  ∧ attr (BasePeople.validate 0 false ragged_heap).2 0 "age" = Some [31; 41; 0].
Proof. repeat split; vm_compute; reflexivity. Qed.

Lemma view_store : has_arrays view_heap 0 sample_keys 3.
Proof.
  split; [vm_compute; reflexivity|]. split; [vm_compute; reflexivity|].
  intros key Hk. sample_key Hk; eexists; vm_compute; reflexivity.
Qed.


(** ** Dropping layers: [remove_dynamic_contacts] *)

Section DictFacts.
Context {V : Type}.
Implicit Types (d : list (string * V)) (k : string).

Lemma Dict_mem_get d k : Dict.mem d k = true ↔ is_Some (Dict.get d k).
Proof.
  unfold Dict.mem.
  destruct (Dict.get d k); split; first [done | by eexists | by intros [? ?]].
Qed.

Lemma Dict_get_keys d k : is_Some (Dict.get d k) ↔ k ∈ Dict.keys d.
Proof.
  induction d as [|[k' v] t IH]; simpl.
  - split; [by intros [? ?]|by intros ?%elem_of_nil].
  - destruct (String.eqb_spec k' k) as [->|Hne].
    + split; [by left|by eexists].
    + rewrite IH, elem_of_cons. split; [by right|]. by intros [?|?].
Qed.

Lemma Dict_get_remove_ne d k k' :
  k ≠ k' → Dict.get (Dict.remove d k) k' = Dict.get d k'.
Proof.
  intros Hne. induction d as [|[k0 v] t IH]; simpl; [done|].
  destruct (String.eqb_spec k0 k) as [->|Hk]; simpl.
  - by rewrite (proj2 (String.eqb_neq k k')).
  - by rewrite IH.
Qed.

Lemma Dict_get_remove_eq d k :
  NoDup (Dict.keys d) → Dict.get (Dict.remove d k) k = None.
Proof.
  induction d as [|[k0 v] t IH]; simpl; [done|].
  intros [Hnin Hnd]%NoDup_cons.
  destruct (String.eqb_spec k0 k) as [->|Hk]; simpl.
  - apply eq_None_not_Some. by rewrite Dict_get_keys.
  - rewrite (proj2 (String.eqb_neq k0 k)) by done. by apply IH.
Qed.

Lemma Dict_keys_remove d k x : x ∈ Dict.keys (Dict.remove d k) → x ∈ Dict.keys d.
Proof.
  induction d as [|[k0 v] t IH]; simpl; [done|].
  destruct (String.eqb_spec k0 k) as [->|Hk]; simpl.
  - by right.
  - rewrite !elem_of_cons. intros [?|?]; [by left|right; by apply IH].
Qed.

Lemma Dict_remove_NoDup d k :
  NoDup (Dict.keys d) → NoDup (Dict.keys (Dict.remove d k)).
Proof.
  induction d as [|[k0 v] t IH]; simpl; [done|].
  intros [Hnin Hnd]%NoDup_cons.
  destruct (String.eqb_spec k0 k) as [->|Hk]; simpl; [done|].
  apply NoDup_cons. split; [|by apply IH].
  intros ?%Dict_keys_remove. done.
Qed.

End DictFacts.

Section RemoveDynamic.
Context `{Numpy}.

Lemma layers_inv h self c :
  layers h self = Some c ↔ attr_val h self "contacts" = Some (VContacts c).
Proof.
  unfold layers. destruct (attr_val h self "contacts") as [v|]; simpl; [|done].
  destruct v; split; intros E; try done; congruence.
Qed.

(** One turn of the loop: a key that the parameter lists is popped (which
    fails when the store has no such layer), any other key is skipped. *)
Lemma remove_cons h self d p cfg c key ks :
  objs h !! self = Some d →
  d !! "pars" = Some (VPars p) →
  par_contacts p = Some cfg →
  d !! "contacts" = Some (VContacts c) →
  BasePeople.remove_dynamic_contacts self (key :: ks) h =
    if Dict.mem cfg key then
      if Dict.mem c key then
        BasePeople.remove_dynamic_contacts self ks
          (Heap (arrs h) (<[self := <["contacts" := VContacts (Dict.remove c key)]> d]> (objs h)) (views h))
      else (Raise KeyError, h)
    else BasePeople.remove_dynamic_contacts self ks h.
Proof.
  intros Ho Hp Hcfg Hc. unfold BasePeople.remove_dynamic_contacts. simpl for_.
  destruct (Dict.mem cfg key) eqn:E1; [destruct (Dict.mem c key) eqn:E2|].
  - mstep (mstep (by eapply getattr_ok); rewrite Hcfg; mstep reflexivity;
           rewrite E1; mstep (by eapply getattr_ok); rewrite E2;
           by eapply setattr_ok).
    reflexivity.
  - erewrite bind_raise; [reflexivity|].
    mstep (by eapply getattr_ok). rewrite Hcfg. mstep reflexivity.
    rewrite E1. mstep (by eapply getattr_ok). by rewrite E2.
  - mstep (mstep (by eapply getattr_ok); rewrite Hcfg; mstep reflexivity;
           rewrite E1; reflexivity).
    reflexivity.
Qed.

Lemma remove_loop self p cfg ks : ∀ h d c,
  objs h !! self = Some d →
  d !! "pars" = Some (VPars p) →
  par_contacts p = Some cfg →
  d !! "contacts" = Some (VContacts c) →
  NoDup (Dict.keys c) →
  NoDup ks →
  (∀ key, key ∈ ks → Dict.mem cfg key = true → Dict.mem c key = true) →
  ∃ h' d' c',
    BasePeople.remove_dynamic_contacts self ks h = (Ok tt, h')
    ∧ arrs h' = arrs h
    ∧ objs h' !! self = Some d'
    ∧ d' !! "contacts" = Some (VContacts c')
    ∧ (∀ name, name ≠ "contacts" → d' !! name = d !! name)
    ∧ (∀ key, key ∈ ks → Dict.mem cfg key = true → Dict.get c' key = None)
    ∧ (∀ key, key ∉ ks ∨ Dict.mem cfg key = false → Dict.get c' key = Dict.get c key).
Proof.
  induction ks as [|key ks IH]; intros h d c Ho Hp Hcfg Hc Hndc Hnd Hin.
  { exists h, d, c. repeat split; try done. by intros ? ?%elem_of_nil. }
  apply NoDup_cons in Hnd as [Hnin Hnd].
  rewrite (remove_cons h self d p cfg c key ks Ho Hp Hcfg Hc).
  destruct (Dict.mem cfg key) eqn:E1.
  - rewrite (Hin key) by (done || by left).
    set (d1 := <["contacts" := VContacts (Dict.remove c key)]> d).
    destruct (IH (Heap (arrs h) (<[self := d1]> (objs h)) (views h)) d1 (Dict.remove c key))
      as (h' & d' & c' & Hrun & Ha & Ho' & Hc' & Hsame & Hgone & Hkept); try done.
    + simpl. apply list_lookup_insert_eq. by eapply lookup_lt_Some.
    + unfold d1. by rewrite lookup_insert_ne.
    + unfold d1. by rewrite lookup_insert_eq.
    + by apply Dict_remove_NoDup.
    + intros key' Hk' Hm. apply Dict_mem_get.
      rewrite Dict_get_remove_ne by (intros ->; done).
      apply Dict_mem_get, Hin; [by right|done].
    + exists h', d', c'. split; [done|]. split; [done|]. split; [done|].
      split; [done|]. split; [|split].
      * intros name Hne. rewrite Hsame by done. unfold d1. by rewrite lookup_insert_ne.
      * intros key' [->|Hk']%elem_of_cons Hm; [|by apply Hgone].
        rewrite Hkept by (by left). by apply Dict_get_remove_eq.
      * intros key' Hcase.
        assert (key ≠ key') as Hne.
        { intros ->. destruct Hcase as [Hn|Hm]; [|congruence]. apply Hn. by left. }
        rewrite Hkept; [by apply Dict_get_remove_ne|].
        destruct Hcase as [Hn|Hm]; [left|by right].
        intros ?. apply Hn. by right.
  - destruct (IH h d c) as (h' & d' & c' & Hrun & Ha & Ho' & Hc' & Hsame & Hgone & Hkept);
      try done.
    { intros key' Hk' Hm. apply Hin; [by right|done]. }
    exists h', d', c'. split; [done|]. split; [done|]. split; [done|].
    split; [done|]. split; [done|]. split.
    + intros key' [->|Hk']%elem_of_cons Hm; [congruence|by apply Hgone].
    + intros key' Hcase. apply Hkept.
      destruct (decide (key' ∈ ks)) as [Hk'|Hk']; [|by left].
      right. destruct Hcase as [Hn|Hm]; [|done].
      exfalso. apply Hn. by right.
Qed.

End RemoveDynamic.

(** C8 (as the code has it): [remove_dynamic_contacts] pops the given keys
    that are listed in the parameter [pars['contacts']], and those only.
    On a store that has a layer for every such key, and with the keys given
    once each, it returns normally; afterwards none of the given keys that
    the parameter lists is a layer, and every other layer is as before. *)
Theorem remove_dynamic_contacts_pops_listed `{Numpy} (h : heap) (self : nat) (p : Pars)
    (cfg : list (string * Z)) (c : list (string * LayerObj)) (ks : list string) :
  attr_val h self "pars" = Some (VPars p) →
  par_contacts p = Some cfg →
  layers h self = Some c →
  NoDup (Dict.keys c) →
  NoDup ks →
  (∀ key, key ∈ ks → Dict.mem cfg key = true → Dict.mem c key = true) →
  ∃ h' c',
    BasePeople.remove_dynamic_contacts self ks h = (Ok tt, h')
    ∧ layers h' self = Some c'
    ∧ (∀ key, key ∈ ks → Dict.mem cfg key = true → Dict.get c' key = None)
    ∧ (∀ key, key ∉ ks ∨ Dict.mem cfg key = false → Dict.get c' key = Dict.get c key)
    ∧ arrs h' = arrs h
    ∧ (∀ name, name ≠ "contacts" → attr_val h' self name = attr_val h self name).
Proof.
  intros Hp Hcfg Hc Hndc Hnd Hin.
  apply attr_val_inv in Hp as (d & Ho & Hp).
  apply layers_inv, attr_val_inv in Hc as (d' & Ho' & Hc).
  assert (d' = d) as -> by congruence.
  destruct (remove_loop self p cfg ks h d c Ho Hp Hcfg Hc Hndc Hnd Hin)
    as (h' & d1 & c' & Hrun & Ha & Ho1 & Hc1 & Hsame & Hgone & Hkept).
  exists h', c'. split; [done|]. split; [|split; [done|split; [done|split; [done|]]]].
  - apply layers_inv, attr_val_inv. by eauto.
  - intros name Hne. unfold attr_val. rewrite Ho1, Ho. simpl. by apply Hsame.
Qed.

Lemma remove_dynamic_contacts_pops_listed_witness :
  attr_val sample_heap 0 "pars" = Some (VPars sample_pars)
  ∧ par_contacts sample_pars = Some [("h", 4); ("c", 20)]
  ∧ layers sample_heap 0 = Some sample_layers
  ∧ NoDup (Dict.keys sample_layers)
  ∧ NoDup ["c"]
  ∧ (∀ key, key ∈ ["c"] → Dict.mem [("h", 4); ("c", 20)] key = true →
            Dict.mem sample_layers key = true)
  ∧ ∃ h' c',
      BasePeople.remove_dynamic_contacts 0 ["c"] sample_heap = (Ok tt, h')
      ∧ layers h' 0 = Some c'
      ∧ (∀ key, key ∈ ["c"] → Dict.mem [("h", 4); ("c", 20)] key = true →
                Dict.get c' key = None)
      ∧ (∀ key, key ∉ ["c"] ∨ Dict.mem [("h", 4); ("c", 20)] key = false →
                Dict.get c' key = Dict.get sample_layers key)
      ∧ arrs h' = arrs sample_heap
      ∧ (∀ name, name ≠ "contacts" → attr_val h' 0 name = attr_val sample_heap 0 name).
Proof.
  assert (∀ key, key ∈ ["c"] → Dict.mem [("h", 4); ("c", 20)] key = true →
                 Dict.mem sample_layers key = true) as Hin.
  { intros key ->%list_elem_of_singleton _. vm_compute. reflexivity. }
  assert (NoDup (Dict.keys sample_layers)) as Hnd.
  { vm_compute. apply (bool_decide_unpack _). vm_compute. exact I. }
  assert (NoDup ["c"]) as Hks by (by apply (bool_decide_unpack _)).
  split; [vm_compute; reflexivity|]. split; [reflexivity|].
  split; [vm_compute; reflexivity|]. split; [exact Hnd|]. split; [exact Hks|].
  split; [exact Hin|].
  apply (remove_dynamic_contacts_pops_listed sample_heap 0 sample_pars
           [("h", 4); ("c", 20)] sample_layers ["c"]);
    [vm_compute; reflexivity|reflexivity|vm_compute; reflexivity|exact Hnd|exact Hks|exact Hin].
Defined.

(** A layer whose key the parameter does not list stays: the store with
    layers ['h'] and ['c'] and [pars['contacts'] = {'h': 4}] still has its
    layer ['c'] after [remove_dynamic_contacts('c')], which returns normally. *)
Lemma remove_dynamic_contacts_keeps_unlisted :
  (∃ c, layers unlisted_heap 0 = Some c ∧ Dict.keys c = ["h"; "c"])
  ∧ ∃ h' c',
      BasePeople.remove_dynamic_contacts 0 ["c"] unlisted_heap = (Ok tt, h')
      ∧ layers h' 0 = Some c'
      ∧ "c" ∈ ["c"]
      ∧ Dict.mem c' "c" = true.
Proof.
  split.
  - eexists. split; vm_compute; reflexivity.
  - eexists _, _. split; [vm_compute; reflexivity|].
    split; [vm_compute; reflexivity|]. split; [by left|]. vm_compute. reflexivity.
Qed.

(** ** Contacts given per person: [add_contacts] and [make_edgelist] *)

Section MakeEdgelist.
Context `{Numpy}.

Lemma foldl_raise {A B} (f : B → A → res B) (e : exn) (l : list A) :
  foldl (λ acc x, nc ← acc; f nc x) (Raise e) l = Raise e.
Proof. by induction l. Qed.

(** [make_edgelist] starts from an empty [Contacts()] and indexes it by the
    first layer key of the first person: nothing is there. *)
Lemma make_edgelist_raises self lkey v c0 rest h :
  BasePeople.make_edgelist self (((lkey, v) :: c0) :: rest) h = (Raise KeyError, h).
Proof.
  unfold BasePeople.make_edgelist. simpl Dict.keys.
  erewrite bind_raise; [reflexivity|].
  unfold lift. f_equal. simpl foldl. apply foldl_raise.
Qed.

Lemma make_edgelist_empty self h : BasePeople.make_edgelist self [] h = (Raise IndexError, h).
Proof. reflexivity. Qed.

End MakeEdgelist.

(** C6: on a store of three people with an (empty) layer ['h'],
    [add_contacts([{'h':[1,2]}, {'h':[0]}, {'h':[0]}])] raises [KeyError]
    and leaves the store as it was: the layer gets no row.  Of the rows
    (0,1), (0,2), (1,0), (2,0), [remove_duplicates] keeps (0,1) and (0,2). *)
Theorem add_contacts_per_person_raises :
  attr sample_heap 0 "uid" = Some [0; 1; 2]
  ∧ Dict.keys sample_layers = ["h"; "c"]
  ∧ BasePeople.add_contacts 0 sample_adjacency None None sample_heap
      = (Raise KeyError, sample_heap)
  ∧ BasePeople.add_contacts 0 sample_adjacency (Some "h") None sample_heap
      = (Raise KeyError, sample_heap)
  ∧ map (λ e, (p1 e, p2 e)) (BasePeople.remove_duplicates household_rows)
      = [(0, 1); (0, 2)].
Proof.
  split; [vm_compute; reflexivity|]. split; [vm_compute; reflexivity|].
  assert (∀ key, key = None ∨ key = Some "h"%string →
            BasePeople.add_contacts 0 sample_adjacency key None sample_heap
              = (Raise KeyError, sample_heap)) as Hrun.
  { intros key Hkey. unfold BasePeople.add_contacts.
    rewrite (bind_ok _ _ sample_heap "h"%string sample_heap)
      by (destruct Hkey as [-> | ->]; vm_compute; reflexivity).
    rewrite (bind_ok _ _ sample_heap (VContacts sample_layers) sample_heap)
      by (vm_compute; reflexivity).
    rewrite (bind_ok _ _ sample_heap tt sample_heap) by (vm_compute; reflexivity).
    erewrite bind_raise; [reflexivity|].
    unfold sample_adjacency. apply make_edgelist_raises. }
  split; [apply Hrun; by left|]. split; [apply Hrun; by right|].
  vm_compute. reflexivity.
Qed.

(** ** Combining two stores: [__add__] *)

Section Add.
Context `{Numpy}.
Variables (A : list (list elt)) (O : list (gmap string pyval)) (V : list nat).
Variables (a b : nat) (da db : gmap string pyval).
Variables (k : PeopleKeys) (t : gmap string dtype) (nA nB : Z) (lk : bool).
Hypothesis Ha : O !! a = Some da.
Hypothesis Hb : O !! b = Some db.
Hypothesis Hkl : da !! "keylist" = Some (VKeys k).
Hypothesis Hdt : da !! "_dtypes" = Some (VDtypes t).
Hypothesis Hlk : da !! "_lock" = Some (VBool lk).
Hypothesis Hpa : da !! "pop_size" = Some (VInt nA).
Hypothesis Hpb : db !! "pop_size" = Some (VInt nB).
Hypothesis Harr_a : ∀ key, key ∈ all_states k →
  ∃ l x dt, da !! key = Some (VArr l) ∧ A !! l = Some x ∧ Z.of_nat (length x) = nA
            ∧ t !! key = Some dt ∧ Forall (λ e, astype dt e = e) x.
Hypothesis Harr_b : ∀ key, key ∈ all_states k →
  ∃ l x dt, db !! key = Some (VArr l) ∧ A !! l = Some x ∧ Z.of_nat (length x) = nB
            ∧ t !! key = Some dt ∧ Forall (λ e, astype dt e = e) x.

(** The copy that [sc.dcp] makes of the first store, and the loop body. *)
Local Abbreviation copied := (relocate (length A) <$> da).
Local Abbreviation add_body :=
  (λ key, x ← BasePeople.__getitem__ (length O) key;
          y ← BasePeople.__getitem__ b key;
          v ← np_concatenate x y;
          BasePeople.set_ (length O) key v false).

Lemma dcp_run :
  sc_dcp a (Heap A O V)
    = (Ok (length O), Heap (A ++ A) (O ++ [copied]) (own_from (length A) V)).
Proof.
  unfold sc_dcp. mstep (unfold read_obj; simpl; rewrite Ha; reflexivity).
  mstep reflexivity. reflexivity.
Qed.

Lemma copied_array key l : da !! key = Some (VArr l) → copied !! key = Some (VArr (length A + l)).
Proof. intros E. by rewrite lookup_fmap, E. Qed.

Lemma copied_scalar name v :
  da !! name = Some v → (∀ l, v ≠ VArr l) → copied !! name = Some v.
Proof.
  intros E Hv. rewrite lookup_fmap, E. simpl.
  destruct v; try done. by destruct (Hv l).
Qed.

Lemma lookup_copy AA l x :
  (A ++ A) `prefix_of` AA → A !! l = Some x → AA !! (length A + l)%nat = Some x.
Proof.
  intros Hpre E. eapply prefix_lookup_Some; [|exact Hpre].
  rewrite lookup_app_r by lia. by replace (length A + l - length A)%nat with l by lia.
Qed.

Lemma lookup_orig AA l x :
  (A ++ A) `prefix_of` AA → A !! l = Some x → AA !! l = Some x.
Proof.
  intros Hpre E. eapply prefix_lookup_Some; [|exact Hpre]. by apply lookup_app_l_Some.
Qed.

Lemma special_not_state name v :
  da !! name = Some v → (∀ l, v ≠ VArr l) → name ∉ all_states k.
Proof.
  intros E Hv Hin. destruct (Harr_a name Hin) as (l & x & dt & E' & _).
  apply (Hv l). congruence.
Qed.

(** One turn of the loop: the attribute of the copy becomes a new array,
    the concatenation converted to the dtype of the attribute. *)
Lemma add_step VV AA dc key l lb xa xb dt :
  (A ++ A) `prefix_of` AA →
  dc !! key = Some (VArr (length A + l)) →
  A !! l = Some xa →
  db !! key = Some (VArr lb) →
  A !! lb = Some xb →
  dc !! "_dtypes" = Some (VDtypes t) →
  t !! key = Some dt →
  dc !! "_lock" = Some (VBool lk) →
  add_body key (Heap AA (O ++ [dc]) VV)
    = (Ok tt, Heap (AA ++ [map (astype dt) (xa ++ xb)])
                   (O ++ [<[key := VArr (length AA)]> dc])
                   (own_from (length AA) VV)).
Proof.
  intros Hpre Hk Hxa Hkb Hxb Hd Ht Hl. cbv beta.
  mstep (apply getitem_ok, attr_val_inv; eexists; split; [apply lookup_last|exact Hk]).
  mstep (apply getitem_ok, attr_val_inv; eexists; split;
         [simpl; by apply lookup_app_l_Some|exact Hkb]).
  mstep (unfold np_concatenate;
         mstep (apply read_arr_ok; simpl; by apply lookup_copy);
         mstep (apply read_arr_ok; simpl; by apply lookup_orig);
         reflexivity).
  erewrite set_run; [|apply lookup_last|exact Hk|simpl; by apply lookup_copy|done..].
  simpl. by rewrite insert_last.
Qed.

Lemma astype_fixed dt x : Forall (λ e, astype dt e = e) x → map (astype dt) x = x.
Proof.
  induction 1 as [|e x He _ IH]; [done|]. simpl. by rewrite He, IH.
Qed.

(** The loop: every attribute of the copy that it visits ends up as a new
    array holding the two operands' arrays, one after the other. *)
Lemma add_loop todo : ∀ AA dc VV,
  (A ++ A) `prefix_of` AA →
  NoDup todo →
  (∀ key, key ∈ todo → key ∈ all_states k ∧ dc !! key = copied !! key) →
  dc !! "_dtypes" = Some (VDtypes t) →
  dc !! "_lock" = Some (VBool lk) →
  ∃ AA' dc' VV',
    for_ todo add_body (Heap AA (O ++ [dc]) VV) = (Ok tt, Heap AA' (O ++ [dc']) VV')
    ∧ AA `prefix_of` AA'
    ∧ (∀ name, name ∉ todo → dc' !! name = dc !! name)
    ∧ (∀ key la lb xa xb, key ∈ todo →
         da !! key = Some (VArr la) → A !! la = Some xa →
         db !! key = Some (VArr lb) → A !! lb = Some xb →
         ∃ l', dc' !! key = Some (VArr l') ∧ AA' !! l' = Some (xa ++ xb)).
Proof.
  induction todo as [|key todo IH]; intros AA dc VV Hpre Hnd Hin Hd Hl.
  { exists AA, dc, VV. split; [done|]. split; [done|]. split; [done|].
    by intros ? ? ? ? ? ?%elem_of_nil. }
  apply NoDup_cons in Hnd as [Hnin Hnd].
  destruct (Hin key) as [Hst Hdc]; [by left|].
  destruct (Harr_a key Hst) as (l & xa & dt & Hka & Hxa & _ & Ht & Hfa).
  destruct (Harr_b key Hst) as (lb & xb & dt' & Hkb & Hxb & _ & Ht' & Hfb).
  assert (dt' = dt) as -> by congruence.
  assert (key ≠ "_dtypes") as Hne1.
  { intros ->. by apply (special_not_state "_dtypes" (VDtypes t)). }
  assert (key ≠ "_lock") as Hne2.
  { intros ->. by apply (special_not_state "_lock" (VBool lk)). }
  assert (add_body key (Heap AA (O ++ [dc]) VV)
          = (Ok tt, Heap (AA ++ [xa ++ xb]) (O ++ [<[key := VArr (length AA)]> dc])
                         (own_from (length AA) VV)))
    as Hstep.
  { pose proof (add_step VV AA dc key l lb xa xb dt Hpre) as Hs.
    rewrite astype_fixed in Hs by (by apply Forall_app).
    apply Hs; try done. rewrite Hdc. by apply copied_array. }
  destruct (IH (AA ++ [xa ++ xb]) (<[key := VArr (length AA)]> dc)
              (own_from (length AA) VV))
    as (AA' & dc' & VV' & Hrun & Hpre' & Hsame & Hcat); try done.
  - etrans; [exact Hpre|]. by apply prefix_app_r.
  - intros key' Hk'. destruct (Hin key') as [? ?]; [by right|]. split; [done|].
    rewrite lookup_insert_ne by (intros ->; done). done.
  - by rewrite lookup_insert_ne.
  - by rewrite lookup_insert_ne.
  - exists AA', dc', VV'. split; [|split; [|split]].
    + simpl for_. mstep (exact Hstep). exact Hrun.
    + etrans; [|exact Hpre']. by apply prefix_app_r.
    + intros name Hn. rewrite Hsame by (intros ?; apply Hn; by right).
      apply lookup_insert_ne. intros ->. apply Hn. by left.
    + intros key' la lb' xa' xb' [->|Hk']%elem_of_cons Hka' Hxa' Hkb' Hxb';
        [|by eapply Hcat].
      assert (la = l) as -> by congruence. assert (lb' = lb) as -> by congruence.
      assert (xa' = xa) as -> by congruence. assert (xb' = xb) as -> by congruence.
      exists (length AA). split.
      * rewrite Hsame by done. apply lookup_insert_eq.
      * eapply prefix_lookup_Some; [|exact Hpre']. apply lookup_last.
Qed.

(** The whole of [__add__] *)
Lemma add_run dtu :
  NoDup (all_states k) →
  "uid" ∈ all_states k →
  t !! "uid" = Some dtu →
  ∃ AA dc VV,
    BasePeople.__add__ a b (Heap A O V) = (Ok (length O), Heap AA (O ++ [dc]) VV)
    ∧ dc !! "pop_size" = Some (VInt (nA + nB))
    ∧ (∃ l, dc !! "uid" = Some (VArr l)
            ∧ AA !! l = Some (map (astype dtu) (map of_int (arange (nA + nB)))))
    ∧ (∀ key la lb xa xb, key ∈ all_states k → key ≠ "uid" →
         da !! key = Some (VArr la) → A !! la = Some xa →
         db !! key = Some (VArr lb) → A !! lb = Some xb →
         ∃ l', dc !! key = Some (VArr l') ∧ AA !! l' = Some (xa ++ xb)).
Proof.
  intros Hnd Huid Htu.
  assert ("pop_size" ∉ all_states k) as Hn1
    by (by apply (special_not_state "pop_size" (VInt nA))).
  assert ("keylist" ∉ all_states k) as Hn2
    by (by apply (special_not_state "keylist" (VKeys k))).
  assert ("_dtypes" ∉ all_states k) as Hn3
    by (by apply (special_not_state "_dtypes" (VDtypes t))).
  assert ("_lock" ∉ all_states k) as Hn4
    by (by apply (special_not_state "_lock" (VBool lk))).
  destruct (add_loop (all_states k) (A ++ A) copied (own_from (length A) V))
    as (AA & dc & VV & Hloop & Hpre & Hsame & Hcat); try done.
  { by apply copied_scalar. }
  { by apply copied_scalar. }
  assert (dc !! "pop_size" = Some (VInt nA)) as Hp1
    by (rewrite Hsame by done; by apply copied_scalar).
  set (dc2 := <["pop_size" := VInt (nA + nB)]> dc).
  assert (0 ≤ nA + nB) as Hpos.
  { destruct (Harr_a "uid" Huid) as (? & ? & ? & _ & _ & ? & _).
    destruct (Harr_b "uid" Huid) as (? & ? & ? & _ & _ & ? & _). lia. }
  assert (dc2 !! "pop_size" = Some (VInt (nA + nB))) as Hp2 by apply lookup_insert_eq.
  assert (dc2 !! "keylist" = Some (VKeys k)) as Hk2.
  { unfold dc2. rewrite lookup_insert_ne by done. rewrite Hsame by done.
    by apply copied_scalar. }
  assert (∀ key, key ∈ all_states k →
            ∃ l x, dc2 !! key = Some (VArr l) ∧ AA !! l = Some x
                   ∧ Z.of_nat (length x) = nA + nB) as Hlen.
  { intros key Hin.
    destruct (Harr_a key Hin) as (la & xa & ? & Hka & Hxa & Hla & _).
    destruct (Harr_b key Hin) as (lb & xb & ? & Hkb & Hxb & Hlb & _).
    destruct (Hcat key la lb xa xb Hin Hka Hxa Hkb Hxb) as (l' & Hk' & Hx').
    exists l', (xa ++ xb). split; [|split; [done|rewrite length_app; lia]].
    unfold dc2. rewrite lookup_insert_ne by (intros <-; done). done. }
  destruct (Hlen "uid" Huid) as (lu & xu & Hku & Hxu & Hlu).
  exists (AA ++ [map (astype dtu) (map of_int (arange (nA + nB)))]),
         (<["uid" := VArr (length AA)]> dc2), (own_from (length AA) VV).
  split; [|split; [|split]].
  - unfold BasePeople.__add__.
    mstep (apply dcp_run).
    mstep (unfold BasePeople.keys;
           mstep (eapply getattr_ok; [simpl; by apply lookup_app_l_Some|exact Hkl]);
           reflexivity).
    mstep (exact Hloop).
    mstep (by apply getattr_last).
    mstep (eapply getattr_ok; [simpl; by apply lookup_app_l_Some|exact Hpb]).
    mstep reflexivity.
    mstep (apply setattr_last). fold dc2.
    mstep (unfold BasePeople.validate;
           mstep (apply (len_run (Heap AA (O ++ [dc2]) VV) (length O) dc2 (nA + nB)
                           (lookup_last O dc2) Hp2 Hpos AA));
           mstep (apply (keys_run (Heap AA (O ++ [dc2]) VV) (length O) dc2 k
                           (lookup_last O dc2) Hk2 AA));
           apply (validate_strict_ok (Heap AA (O ++ [dc2]) VV) (length O) dc2 (nA + nB)
                    (lookup_last O dc2));
           intros key Hin; destruct (Hlen key Hin) as (l & x & ? & ? & ?); by eauto 10).
    mstep (apply (len_run (Heap AA (O ++ [dc2]) VV) (length O) dc2 (nA + nB)
                    (lookup_last O dc2) Hp2 Hpos AA)).
    mstep (erewrite set_run;
           [|apply lookup_last|exact Hku|exact Hxu| |exact Htu|];
           [rewrite bool_decide_eq_false_2
              by (rewrite length_map, arange_length; lia);
            simpl; rewrite insert_last; reflexivity
           |unfold dc2; rewrite lookup_insert_ne by done;
            rewrite Hsame by done; by apply copied_scalar
           |unfold dc2; rewrite lookup_insert_ne by done;
            rewrite Hsame by done; by apply copied_scalar]).
    reflexivity.
  - rewrite lookup_insert_ne by done. exact Hp2.
  - exists (length AA). split; [apply lookup_insert_eq|apply lookup_last].
  - intros key la lb xa xb Hin Hne Hka Hxa Hkb Hxb.
    destruct (Hcat key la lb xa xb Hin Hka Hxa Hkb Hxb) as (l' & Hk' & Hx').
    exists l'. split.
    + rewrite lookup_insert_ne by done. unfold dc2.
      rewrite lookup_insert_ne by (intros <-; done). done.
    + by apply lookup_app_l_Some.
Qed.

End Add.

Section Stores.
Context `{Numpy}.

(** What an initialized store is, attribute by attribute of its dict. *)
Lemma people_store_inv A O V self k t n :
  people_store (Heap A O V) self k t n →
  ∃ d lk,
    O !! self = Some d
    ∧ d !! "keylist" = Some (VKeys k)
    ∧ d !! "pop_size" = Some (VInt n)
    ∧ d !! "_lock" = Some (VBool lk)
    ∧ d !! "_dtypes" = Some (VDtypes t)
    ∧ NoDup (all_states k)
    ∧ ∀ key, key ∈ all_states k →
        ∃ l x dt, d !! key = Some (VArr l) ∧ A !! l = Some x ∧ Z.of_nat (length x) = n
                  ∧ t !! key = Some dt ∧ Forall (λ e, astype dt e = e) x.
Proof.
  intros ((Hkl & Hpop & _) & Hnd & (lk & Hlk) & Hdt & Harr).
  apply attr_val_inv in Hkl as (d & Ho & Hkl). simpl in Ho.
  assert (∀ name v, attr_val (Heap A O V) self name = Some v → d !! name = Some v) as Hd.
  { intros name v (d' & Ho' & Hv)%attr_val_inv. simpl in Ho'. congruence. }
  exists d, lk. repeat (split; [by auto|]).
  intros key Hin. destruct (Harr key Hin) as (x & dt & Hx & Hlen & Ht & Hfix).
  apply attr_inv in Hx as (l & Hv & Hx). by eauto 10.
Qed.

Lemma attr_last A O V d key l x :
  d !! key = Some (VArr l) → A !! l = Some x →
  attr (Heap A (O ++ [d]) V) (length O) key = Some x.
Proof.
  intros Hk Hx. apply attr_inv. exists l. split; [|done].
  apply attr_val_inv. exists d. split; [apply lookup_last|done].
Qed.

End Stores.

(** C1: for two initialized stores with the same schema (which has [uid]),
    [A + B] returns a new store whose [pop_size] is [len(A) + len(B)], whose
    [uid] is [0, 1, ..., len(A)+len(B)-1] converted to the dtype of [uid]
    (so exactly that sequence when the conversion leaves these numbers as
    they are), and whose every other schema attribute is A's array followed
    by B's. *)
Theorem add_concatenates `{Numpy} (h : heap) (a b : nat) (k : PeopleKeys)
    (t : gmap string dtype) (nA nB : Z) :
  people_store h a k t nA →
  people_store h b k t nB →
  "uid" ∈ all_states k →
  ∃ c h' dtu,
    BasePeople.__add__ a b h = (Ok c, h')
    ∧ c = length (objs h)
    ∧ attr_val h' c "pop_size" = Some (VInt (nA + nB))
    ∧ t !! "uid" = Some dtu
    ∧ attr h' c "uid" = Some (map (astype dtu) (map of_int (arange (nA + nB))))
    ∧ ((∀ i, i ∈ arange (nA + nB) → astype dtu (of_int i) = of_int i) →
         attr h' c "uid" = Some (map of_int (arange (nA + nB))))
    ∧ ∀ key xa xb, key ∈ all_states k → key ≠ "uid" →
        attr h a key = Some xa → attr h b key = Some xb →
        attr h' c key = Some (xa ++ xb).
Proof.
  destruct h as [A O V]. intros Hsa Hsb Huid.
  destruct (people_store_inv A O V a k t nA Hsa)
    as (da & lk & Ha & Hkl & Hpa & Hlk & Hdt & Hnd & Harr_a).
  destruct (people_store_inv A O V b k t nB Hsb)
    as (db & lk' & Hb & _ & Hpb & _ & _ & _ & Harr_b).
  destruct (Harr_a "uid" Huid) as (_ & _ & dtu & _ & _ & _ & Htu & _).
  destruct (add_run A O V a b da db k t nA nB lk Ha Hb Hkl Hdt Hlk Hpa Hpb Harr_a Harr_b
              dtu Hnd Huid Htu)
    as (AA & dc & VV & Hrun & Hpop & (lu & Hku & Hxu) & Hcat).
  assert (attr (Heap AA (O ++ [dc]) VV) (length O) "uid"
          = Some (map (astype dtu) (map of_int (arange (nA + nB))))) as Hu
    by (by eapply attr_last).
  exists (length O), (Heap AA (O ++ [dc]) VV), dtu.
  split; [exact Hrun|]. split; [done|]. split; [|split; [done|split; [done|split]]].
  - apply attr_val_inv. exists dc. split; [apply lookup_last|done].
  - intros Hfix. rewrite Hu. f_equal. rewrite <- list_fmap_compose.
    apply list_fmap_ext. intros ? i Hi. apply Hfix. by eapply list_elem_of_lookup_2.
  - intros key xa xb Hin Hne Hxa Hxb.
    apply attr_inv in Hxa as (la & Hva & Hxa). apply attr_inv in Hxb as (lb & Hvb & Hxb).
    apply attr_val_inv in Hva as (d1 & Ho1 & Hva).
    apply attr_val_inv in Hvb as (d2 & Ho2 & Hvb). simpl in *.
    assert (d1 = da) as -> by congruence. assert (d2 = db) as -> by congruence.
    destruct (Hcat key la lb xa xb Hin Hne Hva Hxa Hvb Hxb) as (l' & Hk' & Hx').
    by eapply attr_last.
Qed.

Lemma add_concatenates_witness :
  people_store sample_heap 0 sample_keys sample_dtypes 3
  ∧ people_store sample_heap 1 sample_keys sample_dtypes 2
  ∧ "uid" ∈ all_states sample_keys
  ∧ ∃ c h' dtu,
      BasePeople.__add__ 0 1 sample_heap = (Ok c, h')
      ∧ c = length (objs sample_heap)
      ∧ attr_val h' c "pop_size" = Some (VInt (3 + 2))
      ∧ sample_dtypes !! "uid" = Some dtu
      ∧ attr h' c "uid" = Some (map (astype dtu) (map of_int (arange (3 + 2))))
      ∧ ((∀ i, i ∈ arange (3 + 2) → astype dtu (of_int i) = of_int i) →
           attr h' c "uid" = Some (map of_int (arange (3 + 2))))
      ∧ ∀ key xa xb, key ∈ all_states sample_keys → key ≠ "uid" →
          attr sample_heap 0 key = Some xa → attr sample_heap 1 key = Some xb →
          attr h' c key = Some (xa ++ xb).
Proof.
  assert ("uid" ∈ all_states sample_keys) as Huid by (by apply (bool_decide_unpack _)).
  split; [exact sample_store_0|]. split; [exact sample_store_1|]. split; [exact Huid|].
  exact (add_concatenates sample_heap 0 1 sample_keys sample_dtypes 3 2
           sample_store_0 sample_store_1 Huid).
Defined.

(** The two sample stores combined: five people, numbered anew. *)
Example add_sample_stores :
  (BasePeople.__add__ 0 1 sample_heap).1 = Ok 2%nat
  ∧ attr_val (BasePeople.__add__ 0 1 sample_heap).2 2 "pop_size" = Some (VInt 5)
  ∧ attr (BasePeople.__add__ 0 1 sample_heap).2 2 "uid" = Some [0; 1; 2; 3; 4]
  ∧ attr (BasePeople.__add__ 0 1 sample_heap).2 2 "age" = Some [30; 40; 50; 60; 70]
  ∧ attr (BasePeople.__add__ 0 1 sample_heap).2 2 "susceptible" = Some [1; 0; 1; 0; 1].
Proof. repeat split; vm_compute; reflexivity. Qed.

(** ** What [__add__] leaves alone *)

Section Frame.
Context `{Numpy}.
Variable h0 : heap.

Local Abbreviation reads m := (keeps h0 m (λ _, True)).
Local Abbreviation made := (length (objs h0)).

Lemma extends_refl : extends h0 h0.
Proof.
  split; [done|]. split; [done|].
  intros d Hd. apply lookup_lt_Some in Hd. lia.
Qed.

Lemma keeps_ret {X} (x : X) (R : X → Prop) : R x → keeps h0 (mret x) R.
Proof. intros Hx h Hh. split; [done|]. by intros ? [= <-]. Qed.

Lemma keeps_raise {X} e (R : X → Prop) : keeps h0 (raise e) R.
Proof. intros h Hh. by split. Qed.

Lemma keeps_lift {X} (r : res X) : reads (lift r).
Proof. intros h Hh. by split. Qed.

Lemma keeps_bind {X Y} (m : M X) (f : X → M Y) R S :
  keeps h0 m R → (∀ x, R x → keeps h0 (f x) S) → keeps h0 (m ≫= f) S.
Proof.
  intros Hm Hf h Hh. destruct (Hm h Hh) as [Hext Hres].
  unfold mbind, M_bind. destruct (m h) as [[x|e] h1] eqn:E; simpl in *.
  - apply Hf; [by apply Hres|done].
  - by split.
Qed.

Lemma keeps_weaken {X} (m : M X) (R S : X → Prop) :
  keeps h0 m R → (∀ x, R x → S x) → keeps h0 m S.
Proof.
  intros Hm HRS h Hh. destruct (Hm h Hh) as [Hext Hres].
  split; [done|]. intros x Hx. by apply HRS, Hres.
Qed.

Lemma keeps_for {X} (l : list X) body :
  (∀ x, reads (body x)) → reads (for_ l body).
Proof.
  intros Hb. induction l as [|x l IH]; simpl.
  - by apply keeps_ret.
  - eapply keeps_bind; [apply Hb|]. by intros _ _.
Qed.

(** *** The heap operations *)

Lemma keeps_read_obj o : keeps h0 (read_obj o) (λ d, o = made → new_dict h0 d).
Proof.
  intros h Hh. unfold read_obj.
  destruct (objs h !! o) as [d|] eqn:E; simpl; (split; [done|]); [|done].
  intros x [= <-] ->. destruct Hh as (_ & _ & Hnew). by apply Hnew.
Qed.

Lemma keeps_read_arr l : reads (read_arr l).
Proof. intros h Hh. unfold read_arr. destruct (arrs h !! l); by split. Qed.

Lemma keeps_alloc_arr v : keeps h0 (alloc_arr v) (λ l, (length (arrs h0) ≤ l)%nat).
Proof.
  intros h (Ha & Ho & Hnew). unfold alloc_arr. simpl. split.
  - split; [by apply prefix_app_r|]. by split.
  - intros x [= <-]. by apply prefix_length.
Qed.

Lemma keeps_write_obj d : new_dict h0 d → reads (write_obj made d).
Proof.
  intros Hd h (Ha & Ho & Hnew). unfold write_obj. simpl. split; [|done].
  split; [done|]. split.
  - destruct Ho as [K ->]. rewrite insert_app_r_alt by lia. by eexists.
  - intros d' Hd'. simpl in Hd'. destruct (decide (made < length (objs h))%nat).
    + rewrite list_lookup_insert_eq in Hd' by done. by simplify_eq.
    + apply lookup_lt_Some in Hd'. rewrite length_insert in Hd'. lia.
Qed.

Lemma keeps_getattr o name : keeps h0 (getattr o name) (λ v, o = made → new_val h0 v).
Proof.
  unfold getattr. eapply keeps_bind; [apply keeps_read_obj|].
  intros d Hd. destruct (d !! name) as [v|] eqn:E; [|apply keeps_raise].
  apply keeps_ret. intros Ho. by eapply Hd.
Qed.

Lemma keeps_setattr name v : new_val h0 v → reads (setattr made name v).
Proof.
  intros Hv. unfold setattr. eapply keeps_bind; [apply keeps_read_obj|].
  intros d Hd. apply keeps_write_obj.
  intros n w [[<- <-]|[_ E]]%lookup_insert_Some; [done|]. by eapply Hd.
Qed.

(** *** The operations on values *)

Lemma keeps_truthy v : reads (truthy v).
Proof.
  destruct v; simpl; try (by apply keeps_ret).
  eapply keeps_bind; [apply keeps_read_arr|]. intros a _.
  destruct a as [|x [|y a]]; first [by apply keeps_ret | apply keeps_raise].
Qed.

Lemma keeps_py_len v : reads (py_len v).
Proof.
  destruct v; simpl; try (by apply keeps_ret); try apply keeps_raise.
  eapply keeps_bind; [apply keeps_read_arr|]. intros a _. by apply keeps_ret.
Qed.

Lemma keeps_py_add x y : keeps h0 (py_add x y) (new_val h0).
Proof.
  destruct x, y; simpl; try apply keeps_raise; apply keeps_ret; by intros l.
Qed.

Lemma keeps_np_concatenate x y : reads (np_concatenate x y).
Proof.
  destruct x, y; simpl; try apply keeps_raise.
  eapply keeps_bind; [apply keeps_read_arr|]. intros xa _.
  eapply keeps_bind; [apply keeps_read_arr|]. intros xb _. by apply keeps_ret.
Qed.

(** *** The methods that [__add__] calls *)

Lemma keeps_getitem o key : reads (BasePeople.__getitem__ o key).
Proof.
  unfold BasePeople.__getitem__. eapply keeps_bind; [apply keeps_read_obj|].
  intros d _. destruct (d !! key); [by apply keeps_ret|apply keeps_raise].
Qed.

Lemma keeps_keys o : reads (BasePeople.keys o).
Proof.
  unfold BasePeople.keys. eapply keeps_bind; [apply keeps_getattr|].
  intros v _. destruct v; first [by apply keeps_ret | apply keeps_raise].
Qed.

Lemma keeps_len o : reads (BasePeople.__len__ o).
Proof.
  unfold BasePeople.__len__. eapply keeps_bind; [apply keeps_getattr|].
  intros v _. destruct v; try apply keeps_raise; [by apply keeps_ret|].
  destruct (n <? 0); [apply keeps_raise|by apply keeps_ret].
Qed.

Lemma keeps_setitem key v : new_val h0 v → reads (BasePeople.__setitem__ made key v).
Proof.
  intros Hv. unfold BasePeople.__setitem__.
  eapply keeps_bind; [apply keeps_getattr|]. intros lock _.
  eapply keeps_bind; [apply keeps_truthy|]. intros locked _.
  eapply keeps_bind; [apply keeps_read_obj|]. intros d Hd.
  destruct (locked && negb (bool_decide (is_Some (d !! key)))); [apply keeps_raise|].
  apply keeps_write_obj.
  intros n w [[<- <-]|[_ E]]%lookup_insert_Some; [done|]. by eapply Hd.
Qed.

Lemma keeps_set key value die : reads (BasePeople.set_ made key value die).
Proof.
  unfold BasePeople.set_.
  eapply keeps_bind; [apply keeps_getitem|]. intros current _.
  eapply keeps_bind; [apply keeps_getattr|]. intros dts _.
  eapply (keeps_bind _ _ (λ _, True)).
  { destruct dts; try apply keeps_raise.
    destruct (t !! key); [by apply keeps_ret|apply keeps_raise]. }
  intros dt _.
  eapply (keeps_bind _ _ (λ _, True)).
  { destruct die; [|by apply keeps_ret].
    eapply keeps_bind; [apply keeps_py_len|]. intros n _.
    destruct (bool_decide _); [apply keeps_raise|by apply keeps_ret]. }
  intros _ _.
  eapply keeps_bind; [apply keeps_alloc_arr|]. intros l Hl.
  apply keeps_setitem. by intros ? [= <-].
Qed.

Lemma keeps_validate_strict o : reads (BasePeople.validate o true).
Proof.
  unfold BasePeople.validate.
  eapply keeps_bind; [apply keeps_len|]. intros expected_len _.
  eapply keeps_bind; [apply keeps_keys|]. intros ks _.
  apply keeps_for. intros key.
  eapply keeps_bind; [apply keeps_getitem|]. intros v _.
  eapply keeps_bind; [apply keeps_py_len|]. intros n _.
  destruct (bool_decide _); [apply keeps_raise|by apply keeps_ret].
Qed.

(** [sc.dcp] makes the object that the rest of [__add__] works on. *)
Lemma dcp_extends o :
  extends h0 (sc_dcp o h0).2 ∧ ∀ c, (sc_dcp o h0).1 = Ok c → c = made.
Proof.
  unfold sc_dcp, read_obj, mbind, M_bind.
  destruct (objs h0 !! o) as [d|] eqn:E; simpl.
  - split; [|by intros ? [= <-]].
    split; [by apply prefix_app_r|]. split; [by apply prefix_app_r|].
    simpl. intros d'. rewrite lookup_last. intros [= <-].
    intros name v. rewrite lookup_fmap.
    destruct (d !! name) as [w|]; [|done]. simpl. intros [= <-] l.
    destruct w; try done. simpl. intros [= <-]. lia.
  - split; [apply extends_refl|done].
Qed.

(** What [__add__] does after the copy is made *)
Lemma keeps_add_rest o ks :
  keeps h0
    (_ ← for_ ks (λ key,
           x ← BasePeople.__getitem__ made key;
           y ← BasePeople.__getitem__ o key;
           v ← np_concatenate x y;
           BasePeople.set_ made key v false);
     n1 ← getattr made "pop_size";
     n2 ← getattr o "pop_size";
     n ← py_add n1 n2;
     _ ← setattr made "pop_size" n;
     _ ← BasePeople.validate made true;
     n ← BasePeople.__len__ made;
     _ ← BasePeople.set_ made "uid" (map of_int (arange n)) true;
     mret made)
    (λ c, c = made).
Proof.
  eapply (keeps_bind _ _ (λ _, True)).
  { apply keeps_for. intros key.
    eapply keeps_bind; [apply keeps_getitem|]. intros x _.
    eapply keeps_bind; [apply keeps_getitem|]. intros y _.
    eapply keeps_bind; [apply keeps_np_concatenate|]. intros v _.
    apply keeps_set. }
  intros _ _.
  eapply keeps_bind; [apply keeps_getattr|]. intros n1 _.
  eapply keeps_bind; [apply keeps_getattr|]. intros n2 _.
  eapply keeps_bind; [apply keeps_py_add|]. intros n Hn.
  eapply keeps_bind; [by apply keeps_setattr|]. intros _ _.
  eapply keeps_bind; [apply keeps_validate_strict|]. intros _ _.
  eapply keeps_bind; [apply keeps_len|]. intros len _.
  eapply keeps_bind; [apply keeps_set|]. intros _ _.
  by apply keeps_ret.
Qed.

Lemma bind_from_start {X Y} (m : M X) (f : X → M Y) (R : X → Prop) (S : Y → Prop) :
  (extends h0 (m h0).2 ∧ ∀ x, (m h0).1 = Ok x → R x) →
  (∀ x, R x → keeps h0 (f x) S) →
  extends h0 ((m ≫= f) h0).2 ∧ ∀ y, ((m ≫= f) h0).1 = Ok y → S y.
Proof.
  intros [Hext Hres] Hf. unfold mbind, M_bind.
  destruct (m h0) as [[x|e] h1]; simpl in *.
  - apply Hf; [by apply Hres|done].
  - by split.
Qed.

Lemma add_extends a b :
  extends h0 (BasePeople.__add__ a b h0).2
  ∧ ∀ c, (BasePeople.__add__ a b h0).1 = Ok c → c = made.
Proof.
  unfold BasePeople.__add__.
  apply (bind_from_start _ _ (λ c, c = made)); [apply dcp_extends|].
  intros c ->.
  eapply keeps_bind; [apply keeps_keys|]. intros ks _.
  apply keeps_add_rest.
Qed.

(** What an extension of [h0] keeps of the stores of [h0] *)
Lemma extends_preserved h o : extends h0 h → preserved h0 h o.
Proof.
  intros (Ha & Ho & _).
  assert (∀ d, objs h0 !! o = Some d → objs h !! o = Some d) as Hobj.
  { intros d Hd. by eapply prefix_lookup_Some. }
  split; [done|].
  intros key x (l & (d & Hd & Hk)%attr_val_inv & Hx)%attr_inv.
  apply attr_inv. exists l. split.
  - apply attr_val_inv. exists d. split; [by apply Hobj|done].
  - by eapply prefix_lookup_Some.
Qed.

Lemma extends_shares_nothing h : extends h0 h → shares_nothing h0 h made.
Proof.
  intros (_ & _ & Hnew) name l (d & Hd & Hk)%attr_val_inv.
  by eapply (Hnew d Hd name).
Qed.

End Frame.

(** C10: [A + B] leaves the stores it is given as they were: in the heap it
    ends in (also when it raises), every store that was there has the
    attributes it had, [pop_size] among them, and its every array, [uid]
    among them, has the elements it had; when a store is returned, it is a
    new one, and none of its attributes is an array that was there before. *)
Theorem add_leaves_operands `{Numpy} (h : heap) (a b : nat) :
  preserved h (BasePeople.__add__ a b h).2 a
  ∧ preserved h (BasePeople.__add__ a b h).2 b
  ∧ ∀ c, (BasePeople.__add__ a b h).1 = Ok c →
      c = length (objs h)
      ∧ objs h !! c = None
      ∧ shares_nothing h (BasePeople.__add__ a b h).2 c.
Proof.
  destruct (add_extends h a b) as [Hext Hc].
  split; [by apply extends_preserved|]. split; [by apply extends_preserved|].
  intros c ->%Hc. split; [done|]. split.
  - by apply lookup_ge_None.
  - by apply extends_shares_nothing.
Qed.

(** The sample stores after they are combined are what they were, also
    after the sum is then cut down, in place, to one person. *)
Example add_sample_operands_kept :
  attr (BasePeople.__add__ 0 1 sample_heap).2 0 "uid" = Some [0; 1; 2]
  ∧ attr (BasePeople.__add__ 0 1 sample_heap).2 1 "uid" = Some [0; 1]
  ∧ attr (BasePeople.__add__ 0 1 sample_heap).2 0 "age" = Some [30; 40; 50]
  ∧ attr_val (BasePeople.__add__ 0 1 sample_heap).2 0 "pop_size" = Some (VInt 3)
  ∧ attr (BasePeople.resize_ 2 (Some 1) None (BasePeople.__add__ 0 1 sample_heap).2).2
         0 "age" = Some [30; 40; 50].
Proof. repeat split; vm_compute; reflexivity. Qed.

(** ** The attributes of the first sample store *)

Lemma sample_dict_lookup : objs sample_heap !! 0%nat = Some sample_dict.
Proof.
  unfold sample_dict. destruct (objs sample_heap !! 0%nat) eqn:E; [done|].
  apply lookup_ge_None in E. vm_compute in E. lia.
Qed.

Lemma sample_dict_contacts : sample_dict !! "contacts" = Some (VContacts sample_layers).
Proof. vm_compute. reflexivity. Qed.

Lemma sample_dict_layer_info :
  sample_dict !! "layer_info" = Some (VLayerInfo (contacts sample_keys)).
Proof. vm_compute. reflexivity. Qed.

Lemma sample_layers_NoDup : NoDup (Dict.keys sample_layers).
Proof. vm_compute. apply (bool_decide_unpack _). vm_compute. exact I. Qed.

(** Every array of the sample stores was made by [set]: none is a view. *)
Lemma sample_views : views sample_heap = [].
Proof. vm_compute. reflexivity. Qed.

Lemma ragged_views : views ragged_heap = [].
Proof. vm_compute. reflexivity. Qed.

Lemma sample_owns k n : resizable sample_heap 0 k n.
Proof. intros key l a _ _ _ _. rewrite sample_views. apply not_elem_of_nil. Qed.

Lemma ragged_owns k n : resizable ragged_heap 0 k n.
Proof. intros key l a _ _ _ _. rewrite ragged_views. apply not_elem_of_nil. Qed.

(** * Further properties of the code *)

(** ** Layers by position: [Contacts.__getitem__] *)

Section ContactsByPosition.
Context `{Numpy}.

Lemma Dict_get_lookup {V} (d : list (string * V)) i k v :
  NoDup (Dict.keys d) → d !! i = Some (k, v) → Dict.get d k = Some v.
Proof.
  revert i. induction d as [|[k0 v0] t IH]; intros i Hnd Hi; [done|].
  apply NoDup_cons in Hnd as [Hnin Hnd]. simpl.
  destruct i as [|i]; simpl in Hi.
  - injection Hi as -> ->. by rewrite String.eqb_refl.
  - destruct (String.eqb_spec k0 k) as [->|Hne]; [|by eapply IH].
    exfalso. apply Hnin. apply list_elem_of_fmap. exists (k, v).
    split; [done|]. by eapply list_elem_of_lookup_2.
Qed.

Lemma contacts_position c (j : Z) i k l :
  NoDup (Dict.keys c) →
  c !! i = Some (k, l) →
  (if j <? 0 then j + Z.of_nat (length c) else j) = Z.of_nat i →
  Contacts.__getitem__ c (KInt j) = Ok l.
Proof.
  intros Hnd Hi Hj. unfold Contacts.__getitem__, Dict.keys.
  rewrite length_map, Hj, Nat2Z.id.
  assert (i < length c)%nat by (by eapply lookup_lt_Some).
  rewrite (proj2 (Z.leb_le 0 (Z.of_nat i))) by lia.
  rewrite (proj2 (Z.ltb_lt (Z.of_nat i) (Z.of_nat (length c)))) by lia. simpl.
  rewrite list_lookup_fmap, Hi. simpl.
  by rewrite (Dict_get_lookup c i k l).
Qed.

End ContactsByPosition.

(** X1: in a layer mapping with [n] layers, [contacts[i]] for [0 <= i < n]
    is the layer at position [i] in insertion order, [contacts[i - n]] (a
    negative index) is the same layer, and so is [contacts[k]] for its key
    [k]; an integer outside [-n .. n-1] raises [KeyError], not
    [IndexError]. *)
Theorem contacts_getitem_by_position `{Numpy} (c : list (string * LayerObj)) (i : nat)
    (k : string) (l : LayerObj) :
  NoDup (Dict.keys c) →
  c !! i = Some (k, l) →
  Contacts.__getitem__ c (KInt (Z.of_nat i)) = Ok l
  ∧ Contacts.__getitem__ c (KInt (Z.of_nat i - Z.of_nat (length c))) = Ok l
  ∧ Contacts.__getitem__ c (KStr k) = Ok l
  ∧ ∀ j, j < - Z.of_nat (length c) ∨ Z.of_nat (length c) ≤ j →
         Contacts.__getitem__ c (KInt j) = Raise KeyError.
Proof.
  intros Hnd Hi.
  assert (i < length c)%nat by (by eapply lookup_lt_Some).
  split; [|split; [|split]].
  - apply (contacts_position c _ i k l Hnd Hi).
    by rewrite (proj2 (Z.ltb_ge (Z.of_nat i) 0)) by lia.
  - apply (contacts_position c _ i k l Hnd Hi).
    rewrite (proj2 (Z.ltb_lt (Z.of_nat i - Z.of_nat (length c)) 0)) by lia. lia.
  - simpl. by rewrite (Dict_get_lookup c i k l).
  - intros j Hj. unfold Contacts.__getitem__, Dict.keys. rewrite length_map.
    destruct (Z.ltb_spec j 0).
    + rewrite (proj2 (Z.leb_gt 0 (j + Z.of_nat (length c)))) by lia. done.
    + rewrite (proj2 (Z.ltb_ge j (Z.of_nat (length c)))) by lia.
      by rewrite andb_false_r.
Qed.

Lemma contacts_getitem_by_position_witness :
  NoDup (Dict.keys sample_layers)
  ∧ sample_layers !! 1%nat = Some ("c", Layer.__init__ (contacts sample_keys))
  ∧ Contacts.__getitem__ sample_layers (KInt (Z.of_nat 1))
      = Ok (Layer.__init__ (contacts sample_keys))
  ∧ Contacts.__getitem__ sample_layers (KInt (Z.of_nat 1 - Z.of_nat (length sample_layers)))
      = Ok (Layer.__init__ (contacts sample_keys))
  ∧ Contacts.__getitem__ sample_layers (KStr "c") = Ok (Layer.__init__ (contacts sample_keys))
  ∧ ∀ j, j < - Z.of_nat (length sample_layers) ∨ Z.of_nat (length sample_layers) ≤ j →
         Contacts.__getitem__ sample_layers (KInt j) = Raise KeyError.
Proof.
  assert (sample_layers !! 1%nat = Some ("c"%string, Layer.__init__ (contacts sample_keys)))
    as Hi by (vm_compute; reflexivity).
  split; [exact sample_layers_NoDup|]. split; [exact Hi|].
  exact (contacts_getitem_by_position sample_layers 1 "c"
           (Layer.__init__ (contacts sample_keys)) sample_layers_NoDup Hi).
Defined.

(** ** Per-person contact lists: [make_edgelist] *)

Section EdgelistOutcomes.
Context `{Numpy}.

(** With no layer name bound, the second loop of [make_edgelist] gets past
    the people that list nothing, and no further. *)
Lemma edgelist_people_nothing contacts : ∀ p nc,
  Forall (λ cdict, cdict = []) contacts →
  BasePeople.edgelist_people None p contacts nc = Ok nc.
Proof.
  induction contacts as [|cdict rest IH]; intros p nc Hall; [done|].
  apply Forall_cons in Hall as [-> Hall]. simpl. by apply IH.
Qed.

Lemma edgelist_people_unbound contacts : ∀ p nc,
  ¬ Forall (λ cdict, cdict = []) contacts →
  BasePeople.edgelist_people None p contacts nc = Raise UnboundLocalError.
Proof.
  induction contacts as [|cdict rest IH]; intros p nc Hsome.
  { destruct Hsome. constructor. }
  destruct cdict as [|[key p_contacts] cdict]; simpl.
  - apply IH. intros Hall. apply Hsome. by constructor.
  - by rewrite foldl_raise.
Qed.

Lemma make_edgelist_nothing self rest h :
  Forall (λ cdict, cdict = []) rest →
  BasePeople.make_edgelist self ([] :: rest) h = (Ok [], h).
Proof.
  intros Hall. unfold BasePeople.make_edgelist. simpl Dict.keys. simpl foldl.
  mstep reflexivity. simpl last.
  mstep (unfold lift; rewrite edgelist_people_nothing by (by constructor); reflexivity).
  reflexivity.
Qed.

Lemma make_edgelist_unbound self rest h :
  ¬ Forall (λ cdict, cdict = []) rest →
  BasePeople.make_edgelist self ([] :: rest) h = (Raise UnboundLocalError, h).
Proof.
  intros Hsome. unfold BasePeople.make_edgelist. simpl Dict.keys. simpl foldl.
  mstep reflexivity. simpl last.
  erewrite bind_raise; [reflexivity|].
  unfold lift. rewrite edgelist_people_unbound; [done|].
  by intros [_ ?]%Forall_cons.
Qed.

End EdgelistOutcomes.

(** X2: [make_edgelist] never returns an edge.  It raises [IndexError] on
    the empty list, [KeyError] when the first person lists a layer, and
    [UnboundLocalError] when the first person lists none but a later one
    does; it returns only when no person lists anything, and then returns
    an empty [Contacts].  It changes nothing in the store. *)
Theorem make_edgelist_outcomes `{Numpy} (self : nat)
    (contacts : list (list (string * list Z))) (h : heap) :
  BasePeople.make_edgelist self contacts h =
    (match contacts with
     | [] => Raise IndexError
     | (_ :: _) :: _ => Raise KeyError
     | [] :: rest =>
         if bool_decide (Forall (λ cdict, cdict = []) rest) then Ok []
         else Raise UnboundLocalError
     end, h).
Proof.
  destruct contacts as [|[|[lkey v] c0] rest].
  - reflexivity.
  - case_bool_decide.
    + by apply make_edgelist_nothing.
    + by apply make_edgelist_unbound.
  - apply make_edgelist_raises.
Qed.

(** The three ways to fail, and the one way to return *)
Example make_edgelist_samples :
  (BasePeople.make_edgelist 0 [] sample_heap).1 = Raise IndexError
  ∧ (BasePeople.make_edgelist 0 [[("h", [1])]; []] sample_heap).1 = Raise KeyError
  ∧ (BasePeople.make_edgelist 0 [[]; [("h", [0])]] sample_heap).1 = Raise UnboundLocalError
  ∧ (BasePeople.make_edgelist 0 [[]; []] sample_heap).1 = Ok [].
Proof. repeat split; vm_compute; reflexivity. Qed.

(** ** What [add_contacts] does before it looks at the contacts *)

Section AddContacts.
Context `{Numpy}.

Lemma Dict_get_set {V} (d : list (string * V)) k v k' :
  Dict.get (Dict.set d k v) k' = if String.eqb k k' then Some v else Dict.get d k'.
Proof.
  induction d as [|[k0 v0] t IH]; simpl.
  - done.
  - destruct (String.eqb_spec k0 k) as [->|Hne]; simpl.
    + by destruct (String.eqb k k').
    + rewrite IH. destruct (String.eqb_spec k k') as [->|Hne'].
      * by rewrite (proj2 (String.eqb_neq k0 k')).
      * done.
Qed.

(** The layer [key] is made when the store has none *)
Lemma add_contacts_start h self d c li key :
  objs h !! self = Some d →
  d !! "contacts" = Some (VContacts c) →
  d !! "layer_info" = Some (VLayerInfo li) →
  ∃ h',
    (if Dict.mem c key then mret tt
     else
       li ← getattr self "layer_info";
       match li with
       | VLayerInfo li =>
           setattr self "contacts" (VContacts (Dict.set c key (Layer.__init__ li)))
       | _ => raise AttributeError
       end) h = (Ok tt, h')
    ∧ arrs h' = arrs h
    ∧ layers h' self
        = Some (if Dict.mem c key then c else Dict.set c key (Layer.__init__ li))
    ∧ ∀ name, name ≠ "contacts" → attr_val h' self name = attr_val h self name.
Proof.
  intros Ho Hc Hli. destruct (Dict.mem c key) eqn:E.
  - exists h. split; [|split; [done|split; [|done]]].
    + done.
    + apply layers_inv, attr_val_inv. by eauto.
  - eexists. split; [|split; [|split]].
    + mstep (by eapply getattr_ok). by eapply setattr_ok.
    + done.
    + apply layers_inv, attr_val_inv. eexists. split.
      * simpl. apply list_lookup_insert_eq. by eapply lookup_lt_Some.
      * apply lookup_insert_eq.
    + intros name Hne. unfold attr_val. simpl.
      rewrite list_lookup_insert_eq by (by eapply lookup_lt_Some).
      rewrite Ho. simpl. by apply lookup_insert_ne.
Qed.

(** Every column of a new layer is empty *)
Lemma layer_init_cols (li : list (string * dtype)) : ∀ (c0 : list (string * list cell)) col v,
  (∀ k w, Dict.get c0 k = Some w → w = []) →
  Dict.get (foldl (λ c kd, Dict.set c kd.1 []) c0 li) col = Some v → v = [].
Proof.
  induction li as [|[k dt] li IH]; intros c0 col v Hc0; simpl.
  - apply Hc0.
  - apply IH. intros k' w. rewrite Dict_get_set.
    destruct (String.eqb k k'); [congruence|apply Hc0].
Qed.

Lemma layer_init_len (li : list (string * dtype)) : Layer.__len__ (Layer.__init__ li) = 0.
Proof.
  unfold Layer.__len__, Layer.__getitem__. simpl.
  destruct (Dict.get _ "p1") as [col|] eqn:E; [|done].
  apply layer_init_cols in E; [by subst|done].
Qed.

End AddContacts.

(** X3: [add_contacts] makes the layer [key], empty, when the store has
    none, before it looks at what it is given; so the layer is there also
    when the call fails.  Given a value of no accepted type it raises
    [TypeError]; given a per-person list it fails as [make_edgelist] does,
    or returns when no person lists a contact.  In every case the layers
    that were there keep their rows: no edge is added. *)
Theorem add_contacts_adds_no_edge `{Numpy} (h : heap) (self : nat) (d : gmap string pyval)
    (c : list (string * LayerObj)) (li : list (string * dtype)) (contacts : contacts_arg)
    (key : string) (beta : option Q) :
  objs h !! self = Some d →
  d !! "contacts" = Some (VContacts c) →
  d !! "layer_info" = Some (VLayerInfo li) →
  ∃ h' c',
    (BasePeople.add_contacts self contacts (Some key) beta h).2 = h'
    ∧ (BasePeople.add_contacts self contacts (Some key) beta h).1 =
        match contacts with
        | Unrecognised => Raise TypeError
        | PerPerson [] => Raise IndexError
        | PerPerson ((_ :: _) :: _) => Raise KeyError
        | PerPerson ([] :: rest) =>
            if bool_decide (Forall (λ cdict, cdict = []) rest) then Ok tt
            else Raise UnboundLocalError
        end
    ∧ layers h' self = Some c'
    ∧ (∀ k, k ≠ key → Dict.get c' k = Dict.get c k)
    ∧ Dict.get c' key = match Dict.get c key with
                        | Some l => Some l
                        | None => Some (Layer.__init__ li)
                        end
    ∧ Layer.__len__ (Layer.__init__ li) = 0
    ∧ arrs h' = arrs h
    ∧ ∀ name, name ≠ "contacts" → attr_val h' self name = attr_val h self name.
Proof.
  intros Ho Hc Hli.
  destruct (add_contacts_start h self d c li key Ho Hc Hli) as (h' & Hrun & Ha & Hl & Hsame).
  exists h', (if Dict.mem c key then c else Dict.set c key (Layer.__init__ li)).
  assert (BasePeople.add_contacts self contacts (Some key) beta h =
          (match contacts with
           | Unrecognised => Raise TypeError
           | PerPerson [] => Raise IndexError
           | PerPerson ((_ :: _) :: _) => Raise KeyError
           | PerPerson ([] :: rest) =>
               if bool_decide (Forall (λ cdict, cdict = []) rest) then Ok tt
               else Raise UnboundLocalError
           end, h')) as ->.
  { unfold BasePeople.add_contacts. mstep reflexivity.
    mstep (by eapply getattr_ok).
    rewrite (bind_ok _ _ h tt h') by exact Hrun.
    destruct contacts as [[|[|[lkey v] c0] rest]|].
    - erewrite bind_raise; [reflexivity|]. apply make_edgelist_empty.
    - case_bool_decide.
      + mstep (by apply make_edgelist_nothing). simpl foldl.
        mstep reflexivity. reflexivity.
      + erewrite bind_raise; [reflexivity|]. by apply make_edgelist_unbound.
    - erewrite bind_raise; [reflexivity|]. apply make_edgelist_raises.
    - erewrite bind_raise; reflexivity. }
  split; [done|]. split; [done|]. split; [done|].
  split; [|split; [|split; [|split; [done|done]]]].
  - intros k Hne. destruct (Dict.mem c key); [done|].
    rewrite Dict_get_set. by rewrite (proj2 (String.eqb_neq key k)).
  - unfold Dict.mem. destruct (Dict.get c key) eqn:E; [done|].
    by rewrite Dict_get_set, String.eqb_refl.
  - apply layer_init_len.
Qed.

Lemma add_contacts_adds_no_edge_witness :
  objs sample_heap !! 0%nat = Some sample_dict
  ∧ sample_dict !! "contacts" = Some (VContacts sample_layers)
  ∧ sample_dict !! "layer_info" = Some (VLayerInfo (contacts sample_keys))
  ∧ ∃ h' c',
      (BasePeople.add_contacts 0 Unrecognised (Some "w") None sample_heap).2 = h'
      ∧ (BasePeople.add_contacts 0 Unrecognised (Some "w") None sample_heap).1
          = Raise TypeError
      ∧ layers h' 0 = Some c'
      ∧ (∀ k, k ≠ "w" → Dict.get c' k = Dict.get sample_layers k)
      ∧ Dict.get c' "w" = match Dict.get sample_layers "w" with
                          | Some l => Some l
                          | None => Some (Layer.__init__ (contacts sample_keys))
                          end
      ∧ Layer.__len__ (Layer.__init__ (contacts sample_keys)) = 0
      ∧ arrs h' = arrs sample_heap
      ∧ ∀ name, name ≠ "contacts" → attr_val h' 0 name = attr_val sample_heap 0 name.
Proof.
  split; [exact sample_dict_lookup|]. split; [exact sample_dict_contacts|].
  split; [exact sample_dict_layer_info|].
  exact (add_contacts_adds_no_edge sample_heap 0 sample_dict sample_layers
           (contacts sample_keys) Unrecognised "w" None
           sample_dict_lookup sample_dict_contacts sample_dict_layer_info).
Defined.

(** A call that fails leaves the layer it made *)
Example add_contacts_leaves_the_new_layer :
  (BasePeople.add_contacts 0 Unrecognised (Some "w") None sample_heap).1 = Raise TypeError
  ∧ Dict.keys sample_layers = ["h"; "c"]
  ∧ Dict.keys <$> layers (BasePeople.add_contacts 0 Unrecognised (Some "w") None sample_heap).2 0
      = Some ["h"; "c"; "w"].
Proof. repeat split; vm_compute; reflexivity. Qed.

(** ** Resetting layers: [init_contacts] *)

Section InitContacts.
Context `{Numpy}.

Lemma fresh_get {V} (v : V) ks : ∀ c0 k,
  Dict.get (foldl (λ c key, Dict.set c key v) c0 ks) k
    = if bool_decide (k ∈ ks) then Some v else Dict.get c0 k.
Proof.
  induction ks as [|k0 ks IH]; intros c0 k; simpl; [done|].
  rewrite IH, Dict_get_set.
  destruct (decide (k ∈ ks)) as [Hin|Hnin].
  - rewrite !bool_decide_eq_true_2; [done| by right | done].
  - rewrite (bool_decide_eq_false_2 (k ∈ ks)) by done.
    destruct (String.eqb_spec k0 k) as [->|Hne].
    + by rewrite bool_decide_eq_true_2 by (by left).
    + rewrite bool_decide_eq_false_2; [done|].
      by intros [->|?]%elem_of_cons.
Qed.

Lemma set_all_same {V} (v : V) d k :
  Forall (λ kl, kl.2 = v) d → Forall (λ kl, kl.2 = v) (Dict.set d k v).
Proof.
  induction 1 as [|[k0 v0] t Hv Ht IH]; simpl.
  - by apply Forall_singleton.
  - destruct (String.eqb k0 k); by constructor.
Qed.

Lemma fresh_all_same {V} (v : V) ks : ∀ c0,
  Forall (λ kl, kl.2 = v) c0 →
  Forall (λ kl, kl.2 = v) (foldl (λ c key, Dict.set c key v) c0 ks).
Proof.
  induction ks as [|k0 ks IH]; intros c0 Hc0; simpl; [done|].
  by apply IH, set_all_same.
Qed.

(** [for key, layer in contacts.items(): self.contacts[key] = layer] *)
Lemma merge_get {V} (v : V) new : ∀ (c0 : list (string * V)) k,
  Forall (λ kl, kl.2 = v) new →
  Dict.get (foldl (λ c kl, Dict.set c kl.1 kl.2) c0 new) k
    = if bool_decide (k ∈ Dict.keys new) then Some v else Dict.get c0 k.
Proof.
  induction new as [|[k0 v0] new IH]; intros c0 k Hall; simpl; [done|].
  apply Forall_cons in Hall as [Hv Hall]. simpl in Hv. subst v0.
  rewrite IH by done. rewrite Dict_get_set.
  destruct (decide (k ∈ Dict.keys new)) as [Hin|Hnin].
  - rewrite !bool_decide_eq_true_2; [done| by right | done].
  - rewrite (bool_decide_eq_false_2 (k ∈ Dict.keys new)) by done.
    destruct (String.eqb_spec k0 k) as [->|Hne].
    + by rewrite bool_decide_eq_true_2 by (by left).
    + rewrite bool_decide_eq_false_2; [done|].
      by intros [->|?]%elem_of_cons.
Qed.

Lemma fresh_keys {V} (v : V) ks k :
  k ∈ Dict.keys (foldl (λ c key, Dict.set c key v) [] ks) ↔ k ∈ ks.
Proof.
  rewrite <- Dict_get_keys, fresh_get. case_bool_decide; simpl.
  - split; [done|by eexists].
  - split; [by intros [? ?]|done].
Qed.

(** The layers that [init_contacts] makes for the keys it is given *)
Lemma init_contacts_new h self d li ks :
  objs h !! self = Some d →
  d !! "layer_info" = Some (VLayerInfo li) →
  match ks with
  | [] => mret Contacts.__init__
  | _ =>
      li ← getattr self "layer_info";
      match li with
      | VLayerInfo li =>
          mret (foldl (λ c key, Dict.set c key (Layer.__init__ li)) Contacts.__init__ ks)
      | _ => raise AttributeError
      end
  end h = (Ok (foldl (λ c key, Dict.set c key (Layer.__init__ li)) [] ks), h).
Proof.
  intros Ho Hli. destruct ks as [|k0 ks]; [done|].
  mstep (by eapply getattr_ok). done.
Qed.

End InitContacts.

(** X4: on a store that has layers, [init_contacts(keys=ks)] returns [None]
    and resets exactly the layers named: each is afterwards a new, empty
    layer, every other layer is as it was, and nothing else in the store
    changes.  With [output=True] the store is left alone and the new layers
    are returned: one for each key given, and no other. *)
Theorem init_contacts_resets_named_layers `{Numpy} (h : heap) (self : nat)
    (d : gmap string pyval) (c0 : list (string * LayerObj)) (li : list (string * dtype))
    (ks : list string) :
  objs h !! self = Some d →
  d !! "contacts" = Some (VContacts c0) →
  d !! "layer_info" = Some (VLayerInfo li) →
  (∃ h' c',
     BasePeople.init_contacts self false (Some ks) h = (Ok None, h')
     ∧ layers h' self = Some c'
     ∧ (∀ k, k ∈ ks → Dict.get c' k = Some (Layer.__init__ li))
     ∧ (∀ k, k ∉ ks → Dict.get c' k = Dict.get c0 k)
     ∧ Layer.__len__ (Layer.__init__ li) = 0
     ∧ arrs h' = arrs h
     ∧ ∀ name, name ≠ "contacts" → attr_val h' self name = attr_val h self name)
  ∧ (∃ r,
       BasePeople.init_contacts self true (Some ks) h = (Ok (Some r), h)
       ∧ ∀ k, Dict.get r k = if bool_decide (k ∈ ks) then Some (Layer.__init__ li) else None).
Proof.
  intros Ho Hc Hli. split.
  - eexists _, _. split; [|split; [|split; [|split; [|split; [|split]]]]].
    + unfold BasePeople.init_contacts. mstep reflexivity.
      mstep (by apply (init_contacts_new h self d li ks)).
      mstep (by eapply getattr_ok).
      mstep (by eapply setattr_ok). reflexivity.
    + apply layers_inv, attr_val_inv. eexists. split.
      * simpl. apply list_lookup_insert_eq. by eapply lookup_lt_Some.
      * apply lookup_insert_eq.
    + intros k Hk. rewrite (merge_get (Layer.__init__ li)).
      * rewrite bool_decide_eq_true_2; [done|]. by apply fresh_keys.
      * by apply fresh_all_same.
    + intros k Hk. rewrite (merge_get (Layer.__init__ li)).
      * rewrite bool_decide_eq_false_2; [done|]. by rewrite fresh_keys.
      * by apply fresh_all_same.
    + apply layer_init_len.
    + done.
    + intros name Hne. unfold attr_val. simpl.
      rewrite list_lookup_insert_eq by (by eapply lookup_lt_Some).
      rewrite Ho. simpl. by apply lookup_insert_ne.
  - eexists. split.
    + unfold BasePeople.init_contacts. mstep reflexivity.
      mstep (by apply (init_contacts_new h self d li ks)). reflexivity.
    + intros k. by rewrite fresh_get.
Qed.

Lemma init_contacts_resets_named_layers_witness :
  objs sample_heap !! 0%nat = Some sample_dict
  ∧ sample_dict !! "contacts" = Some (VContacts sample_layers)
  ∧ sample_dict !! "layer_info" = Some (VLayerInfo (contacts sample_keys))
  ∧ (∃ h' c',
       BasePeople.init_contacts 0 false (Some ["c"; "w"]) sample_heap = (Ok None, h')
       ∧ layers h' 0 = Some c'
       ∧ (∀ k, k ∈ ["c"; "w"] → Dict.get c' k = Some (Layer.__init__ (contacts sample_keys)))
       ∧ (∀ k, k ∉ ["c"; "w"] → Dict.get c' k = Dict.get sample_layers k)
       ∧ Layer.__len__ (Layer.__init__ (contacts sample_keys)) = 0
       ∧ arrs h' = arrs sample_heap
       ∧ ∀ name, name ≠ "contacts" → attr_val h' 0 name = attr_val sample_heap 0 name)
  ∧ (∃ r,
       BasePeople.init_contacts 0 true (Some ["c"; "w"]) sample_heap = (Ok (Some r), sample_heap)
       ∧ ∀ k, Dict.get r k = if bool_decide (k ∈ ["c"; "w"])
                             then Some (Layer.__init__ (contacts sample_keys)) else None).
Proof.
  split; [exact sample_dict_lookup|]. split; [exact sample_dict_contacts|].
  split; [exact sample_dict_layer_info|].
  exact (init_contacts_resets_named_layers sample_heap 0 sample_dict sample_layers
           (contacts sample_keys) ["c"; "w"]
           sample_dict_lookup sample_dict_contacts sample_dict_layer_info).
Defined.

(** ** Resizing a store: [resize] *)

Section Resize.
Context `{Numpy}.
Variables (h : heap) (self : nat) (d : gmap string pyval) (N : Z).
Hypothesis Ho : objs h !! self = Some d.
Hypothesis HN : 0 ≤ N.

(** The store once [pop_size] is written *)
Local Abbreviation sized := (<["pop_size" := VInt N]> d).
Local Abbreviation O1 := (<[self := sized]> (objs h)).

Lemma sized_lookup : O1 !! self = Some sized.
Proof. apply list_lookup_insert_eq. by eapply lookup_lt_Some. Qed.

Lemma resize_body_run A key l cur :
  key ≠ "pop_size" →
  d !! key = Some (VArr l) →
  A !! l = Some cur →
  (Z.to_nat N ≠ length cur → l ∉ views h) →
  (v ← BasePeople.__getitem__ self key; ndarray_resize v N) (Heap A O1 (views h))
    = (Ok tt, Heap (<[l := resize (Z.to_nat N) zero cur]> A) O1 (views h)).
Proof.
  intros Hne Hk Hl Hown.
  assert (sized !! key = Some (VArr l)) as Hk' by (by rewrite lookup_insert_ne).
  mstep (apply getitem_ok, attr_val_inv; exists sized; split; [apply sized_lookup|exact Hk']).
  by apply (ndarray_resize_ok (Heap A O1 (views h)) l cur N).
Qed.

Lemma resize_loop ks : ∀ A,
  resized_or_same h N A →
  (∀ key, key ∈ ks →
     key ≠ "pop_size" ∧ ∃ l a, d !! key = Some (VArr l) ∧ arrs h !! l = Some a
                               ∧ (Z.of_nat (length a) ≠ N → l ∉ views h)) →
  ∃ A',
    for_ ks (λ key, v ← BasePeople.__getitem__ self key; ndarray_resize v N)
         (Heap A O1 (views h))
      = (Ok tt, Heap A' O1 (views h))
    ∧ resized_or_same h N A'
    ∧ (∀ l0 a0, arrs h !! l0 = Some a0 →
                A !! l0 = Some (resize (Z.to_nat N) zero a0) →
                A' !! l0 = Some (resize (Z.to_nat N) zero a0))
    ∧ ∀ key l a, key ∈ ks → d !! key = Some (VArr l) → arrs h !! l = Some a →
                 A' !! l = Some (resize (Z.to_nat N) zero a).
Proof.
  induction ks as [|key ks IH]; intros A HA Hks.
  { exists A. split; [done|]. split; [done|]. split; [done|].
    by intros ? ? ? ?%elem_of_nil. }
  destruct (Hks key) as (Hkp & l & a & Hk & Ha & Hown); [by left|].
  assert (∃ cur, A !! l = Some cur
                 ∧ resize (Z.to_nat N) zero cur = resize (Z.to_nat N) zero a
                 ∧ (Z.to_nat N ≠ length cur → cur = a))
    as (cur & Hcur & Hre & Hsame).
  { destruct (HA l a Ha) as [E|[_ E]]; eexists; (split; [exact E|]).
    - done.
    - split; [by rewrite resize_resize|]. by rewrite length_resize. }
  assert (l < length A)%nat by (by eapply lookup_lt_Some).
  set (A1 := <[l := resize (Z.to_nat N) zero a]> A).
  assert (resized_or_same h N A1) as HA1.
  { intros l0 a0 Ha0. unfold A1. destruct (decide (l0 = l)) as [->|Hne].
    - rewrite list_lookup_insert_eq by done.
      assert (a0 = a) as -> by congruence.
      destruct (decide (Z.of_nat (length a) = N)) as [Hlen|Hlen].
      + left. f_equal. replace (Z.to_nat N) with (length a) by lia.
        by rewrite resize_all.
      + right. by auto.
    - rewrite list_lookup_insert_ne by done. by apply HA. }
  destruct (IH A1 HA1) as (A2 & Hrun2 & HA2 & Hkeep2 & Hdone).
  { intros key' Hin. apply Hks. by right. }
  assert (A1 !! l = Some (resize (Z.to_nat N) zero a)) as Hl
    by (by apply list_lookup_insert_eq).
  exists A2. split; [|split; [done|split]].
  - assert (Z.to_nat N ≠ length cur → l ∉ views h) as Hown'.
    { intros Hne. apply Hown. rewrite <- (Hsame Hne). lia. }
    simpl for_. mstep (by apply (resize_body_run A key l cur)).
    rewrite Hre. exact Hrun2.
  - intros l0 a0 Ha0 HA0. apply Hkeep2; [done|]. unfold A1.
    destruct (decide (l0 = l)) as [->|Hne].
    + rewrite list_lookup_insert_eq by done. congruence.
    + by rewrite list_lookup_insert_ne by done.
  - intros key' l' a' [->|Hin]%elem_of_cons Hk' Ha'.
    + assert (l' = l) as -> by congruence. assert (a' = a) as -> by congruence.
      by apply Hkeep2.
    + by eapply Hdone.
Qed.

End Resize.



(** Growing the first sample store to five people, and cutting it to one *)
Example resize_sample :
  attr (BasePeople.resize_ 0 (Some 5) None sample_heap).2 0 "age" = Some [30; 40; 50; 0; 0]
  ∧ attr (BasePeople.resize_ 0 (Some 1) None sample_heap).2 0 "age" = Some [30].
Proof. split; vm_compute; reflexivity. Qed.

(** X6: [resize(pop_size=n)] with a negative [n], on a store with at least
    one schema array, raises [ValueError] at the first array; but it has
    written [pop_size] before, so the store is left with the negative
    [pop_size] and its arrays as they were, and [len] of it now raises
    [ValueError] too. *)
Theorem resize_negative_leaves_pop_size `{Numpy} (h : heap) (self : nat) (k : PeopleKeys)
    (m n : Z) (key0 : string) (rest : list string) :
  has_arrays h self k m →
  all_states k = key0 :: rest →
  n < 0 →
  ∃ h',
    BasePeople.resize_ self (Some n) None h = (Raise ValueError, h')
    ∧ attr_val h' self "pop_size" = Some (VInt n)
    ∧ arrs h' = arrs h
    ∧ (∀ key a, attr h self key = Some a → attr h' self key = Some a)
    ∧ BasePeople.__len__ self h' = (Raise ValueError, h').
Proof.
  intros (Hkl & Hpop & Harr) Hst Hn.
  apply attr_val_inv in Hkl as (d & Ho & Hkl).
  apply attr_val_inv in Hpop as (d' & Ho' & Hpop).
  assert (d' = d) as -> by congruence. clear Ho'.
  destruct (Harr key0) as [a Ha]; [rewrite Hst; by left|].
  apply attr_inv in Ha as (l & Hv & Ha). apply attr_val_inv in Hv as (d' & Ho' & Hv).
  assert (d' = d) as -> by congruence. clear Ho'.
  assert (key0 ≠ "pop_size") as Hne by (intros ->; congruence).
  set (d1 := <["pop_size" := VInt n]> d).
  set (h1 := Heap (arrs h) (<[self := d1]> (objs h)) (views h)).
  assert (objs h1 !! self = Some d1) as Ho1.
  { simpl. apply list_lookup_insert_eq. by eapply lookup_lt_Some. }
  assert (d1 !! "pop_size" = Some (VInt n)) as Hpop1 by apply lookup_insert_eq.
  exists h1. split; [|split; [|split; [done|split]]].
  - unfold BasePeople.resize_. mstep reflexivity.
    mstep (by eapply setattr_ok). fold d1 h1.
    mstep (unfold BasePeople.keys;
           mstep (eapply getattr_ok; [exact Ho1|unfold d1; by rewrite lookup_insert_ne]);
           reflexivity).
    rewrite Hst. simpl for_.
    erewrite bind_raise; [reflexivity|].
    mstep (apply getitem_ok, attr_val_inv; exists d1; split;
           [exact Ho1|unfold d1; by rewrite lookup_insert_ne]).
    unfold ndarray_resize. mstep (by apply read_arr_ok). mstep reflexivity.
    by rewrite (proj2 (Z.ltb_lt n 0)) by lia.
  - apply attr_val_inv. by eauto.
  - intros key x (lx & Hvx & Hx)%attr_inv. apply attr_val_inv in Hvx as (d' & Ho' & Hvx).
    assert (d' = d) as -> by congruence.
    apply attr_inv. exists lx. split; [|done].
    apply attr_val_inv. exists d1. split; [done|].
    unfold d1. rewrite lookup_insert_ne; [done|]. intros <-. congruence.
  - unfold BasePeople.__len__. mstep (by eapply getattr_ok).
    by rewrite (proj2 (Z.ltb_lt n 0)) by lia.
Qed.

Lemma resize_negative_leaves_pop_size_witness :
  has_arrays sample_heap 0 sample_keys 3
  ∧ all_states sample_keys = "uid" :: ["age"; "susceptible"]
  ∧ -1 < 0
  ∧ ∃ h',
      BasePeople.resize_ 0 (Some (-1)) None sample_heap = (Raise ValueError, h')
      ∧ attr_val h' 0 "pop_size" = Some (VInt (-1))
      ∧ arrs h' = arrs sample_heap
      ∧ (∀ key a, attr sample_heap 0 key = Some a → attr h' 0 key = Some a)
      ∧ BasePeople.__len__ 0 h' = (Raise ValueError, h').
Proof.
  split; [exact (proj1 sample_store_0)|]. split; [reflexivity|]. split; [lia|].
  apply (resize_negative_leaves_pop_size sample_heap 0 sample_keys 3 (-1) "uid"
           ["age"; "susceptible"] (proj1 sample_store_0)); [reflexivity|lia].
Defined.

(** ** Writing and reading an attribute: [__setitem__], [__getitem__] *)

Section Items.
Context `{Numpy}.

Lemma truthy_heap v h : (truthy v h).2 = h.
Proof.
  destruct v; try done. simpl. unfold mbind, M_bind, read_arr.
  destruct (arrs h !! l) as [[|x [|y a]]|]; done.
Qed.

(** The two ways [__setitem__] can end *)
Lemma setitem_cases self key v h :
  (∃ e, BasePeople.__setitem__ self key v h = (Raise e, h))
  ∨ (∃ d, objs h !! self = Some d
          ∧ BasePeople.__setitem__ self key v h
              = (Ok tt, Heap (arrs h) (<[self := <[key := v]> d]> (objs h)) (views h))).
Proof.
  unfold BasePeople.__setitem__, getattr, read_obj, mbind, M_bind.
  destruct (objs h !! self) as [d|] eqn:Ho; [|left; by eexists].
  destruct (d !! "_lock") as [lock|]; [|left; by eexists].
  simpl. pose proof (truthy_heap lock h) as Hpure.
  destruct (truthy lock h) as [[locked|e] h1]; simpl in Hpure; subst h1;
    [|left; by eexists].
  rewrite Ho.
  destruct (locked && negb (bool_decide (is_Some (d !! key)))); [left; by eexists|].
  right. by exists d.
Qed.

End Items.

(** X7: an item assignment [people[key] = v] either raises, and then
    changes nothing, or returns; after it returns, [people[key]] is [v],
    every other name reads as it did before, and no array and no other
    object has changed. *)
Theorem setitem_then_getitem `{Numpy} (self : nat) (key : string) (v : pyval) (h : heap) :
  match BasePeople.__setitem__ self key v h with
  | (Raise _, h') => h' = h
  | (Ok _, h') =>
      BasePeople.__getitem__ self key h' = (Ok v, h')
      ∧ (∀ key', key' ≠ key →
           (BasePeople.__getitem__ self key' h').1 = (BasePeople.__getitem__ self key' h).1)
      ∧ arrs h' = arrs h
      ∧ ∀ o, o ≠ self → objs h' !! o = objs h !! o
  end.
Proof.
  destruct (setitem_cases self key v h) as [[e ->]|(d & Ho & ->)]; [done|].
  assert (self < length (objs h))%nat by (by eapply lookup_lt_Some).
  split; [|split; [|split; [done|]]].
  - apply getitem_ok, attr_val_inv. eexists. split.
    + simpl. by apply list_lookup_insert_eq.
    + apply lookup_insert_eq.
  - intros key' Hne. unfold BasePeople.__getitem__, read_obj, mbind, M_bind. simpl.
    rewrite list_lookup_insert_eq by done. rewrite Ho.
    rewrite lookup_insert_ne by done. by destruct (d !! key').
  - intros o Hne. simpl. by rewrite list_lookup_insert_ne.
Qed.

(** On the locked sample store: a known name is written and read back, an
    unknown one is refused. *)
Example setitem_sample :
  (BasePeople.__setitem__ 0 "age" VNone sample_heap).1 = Ok tt
  ∧ (BasePeople.__getitem__ 0 "age" (BasePeople.__setitem__ 0 "age" VNone sample_heap).2).1
      = Ok VNone
  ∧ (BasePeople.__setitem__ 0 "height" VNone sample_heap).1 = Raise AttributeError
  ∧ (BasePeople.__getitem__ 0 "height" sample_heap).1 = Raise AttributeError.
Proof. repeat split; vm_compute; reflexivity. Qed.

(** ** [set] keeps a store initialized *)

(** X8: on an initialized store, [set(key, values)] of a schema attribute
    with as many values as [pop_size] returns normally and leaves an
    initialized store with the same schema, dtypes and [pop_size]: the
    attribute is the values converted to its dtype, the others are as they
    were.  (Converting twice to the dtype is assumed to be the same as
    converting once.) *)
Theorem set_keeps_store_initialized `{Numpy} (h : heap) (self : nat) (k : PeopleKeys)
    (t : gmap string dtype) (n : Z) (key : string) (dt : dtype) (values : list elt) :
  people_store h self k t n →
  key ∈ all_states k →
  t !! key = Some dt →
  Z.of_nat (length values) = n →
  (∀ x, astype dt (astype dt x) = astype dt x) →
  ∃ h',
    BasePeople.set_ self key values true h = (Ok tt, h')
    ∧ people_store h' self k t n
    ∧ attr h' self key = Some (map (astype dt) values)
    ∧ ∀ key' a, key' ≠ key → attr h self key' = Some a → attr h' self key' = Some a.
Proof.
  intros ((Hkl & Hpop & Hsome) & Hnd & (lk & Hlk) & Hdt & Harr) Hkey Ht Hlen Hidem.
  destruct (Harr key Hkey) as (cur & dt' & Hcur & Hn & Ht' & _).
  assert (dt' = dt) as -> by congruence.
  apply attr_inv in Hcur as (l & Hv & Hl).
  apply attr_val_inv in Hv as (d & Ho & Hk).
  assert (∀ name v, attr_val h self name = Some v → d !! name = Some v) as Hd.
  { intros name v (d' & Ho' & Hv)%attr_val_inv. congruence. }
  assert (∀ name v, attr_val h self name = Some v → (∀ l', v ≠ VArr l') →
            attr_val (Heap (arrs h ++ [map (astype dt) values])
                           (<[self := <[key := VArr (length (arrs h))]> d]> (objs h))
                           (own_from (length (arrs h)) (views h)))
                     self name = Some v) as Hspecial.
  { intros name v Hv Hnarr. erewrite attr_val_updated_ne; [done..|].
    intros ->. apply Hd in Hv. apply (Hnarr l). congruence. }
  eexists. split; [|split; [|split]].
  - rewrite (set_run h self d key l cur t dt lk values true Ho Hk Hl
               (Hd _ _ Hdt) Ht (Hd _ _ Hlk)).
    rewrite bool_decide_eq_false_2 by lia. reflexivity.
  - assert (attr (Heap (arrs h ++ [map (astype dt) values])
                       (<[self := <[key := VArr (length (arrs h))]> d]> (objs h))
                           (own_from (length (arrs h)) (views h)))
                 self key = Some (map (astype dt) values)) as Hnew.
    { apply attr_inv. eexists. split; [by apply attr_val_updated|].
      simpl. apply lookup_last. }
    split; [split; [|split]|split; [done|split; [|split]]].
    + by apply Hspecial.
    + by apply Hspecial.
    + intros key' Hin. destruct (decide (key' = key)) as [->|Hne]; [by eexists|].
      destruct (Hsome key' Hin) as [a Ha]. exists a. by eapply attr_updated_ne.
    + exists lk. by apply Hspecial.
    + by apply Hspecial.
    + intros key' Hin. destruct (decide (key' = key)) as [->|Hne].
      * exists (map (astype dt) values), dt. split; [done|].
        split; [rewrite length_map; lia|]. split; [done|].
        apply Forall_forall. intros x (y & -> & _)%list_elem_of_fmap. apply Hidem.
      * destruct (Harr key' Hin) as (a & dt' & Ha & Hla & Hta & Hfa).
        exists a, dt'. split; [by eapply attr_updated_ne|done].
  - apply attr_inv. eexists. split; [by apply attr_val_updated|].
    simpl. apply lookup_last.
  - intros key' a Hne Ha. by eapply attr_updated_ne.
Qed.

Lemma set_keeps_store_initialized_witness :
  people_store sample_heap 0 sample_keys sample_dtypes 3
  ∧ "susceptible" ∈ all_states sample_keys
  ∧ sample_dtypes !! "susceptible" = Some np_bool
  ∧ Z.of_nat (length [0; 7; 0]) = 3
  ∧ (∀ x, astype np_bool (astype np_bool x) = astype np_bool x)
  ∧ ∃ h',
      BasePeople.set_ 0 "susceptible" [0; 7; 0] true sample_heap = (Ok tt, h')
      ∧ people_store h' 0 sample_keys sample_dtypes 3
      ∧ attr h' 0 "susceptible" = Some (map (astype np_bool) [0; 7; 0])
      ∧ ∀ key' a, key' ≠ "susceptible" → attr sample_heap 0 key' = Some a →
                  attr h' 0 key' = Some a.
Proof.
  assert ("susceptible" ∈ all_states sample_keys) as Hin by (by apply (bool_decide_unpack _)).
  assert (∀ x, astype np_bool (astype np_bool x) = astype np_bool x) as Hidem.
  { intros x. simpl. by destruct (x =? 0). }
  split; [exact sample_store_0|]. split; [exact Hin|]. split; [reflexivity|].
  split; [reflexivity|]. split; [exact Hidem|].
  exact (set_keeps_store_initialized sample_heap 0 sample_keys sample_dtypes 3
           "susceptible" np_bool [0; 7; 0] sample_store_0 Hin eq_refl eq_refl Hidem).
Defined.

(** The value 7 is stored as the boolean 1 *)
Example set_sample_converts :
  attr (BasePeople.set_ 0 "susceptible" [0; 7; 0] true sample_heap).2 0 "susceptible"
    = Some [0; 1; 0].
Proof. vm_compute. reflexivity. Qed.

(** ** Validation after validation *)

Section ValidateAgain.
Context `{Numpy}.

(** On arrays of the right length, the body of the loop does nothing,
    whatever the mode. *)
Lemma validate_body_ok h self d N die key l a :
  objs h !! self = Some d →
  d !! key = Some (VArr l) → arrs h !! l = Some a → Z.of_nat (length a) = N →
  validate_body self N die key h = (Ok tt, h).
Proof.
  intros Ho Hk Ha Hlen. unfold validate_body.
  mstep (apply getitem_ok, attr_val_inv; by eauto).
  mstep (by apply py_len_arr).
  by rewrite bool_decide_eq_false_2 by tauto.
Qed.

Lemma validate_loop_ok h self d N die ks :
  objs h !! self = Some d →
  (∀ key, key ∈ ks → ∃ l a, d !! key = Some (VArr l) ∧ arrs h !! l = Some a
                            ∧ Z.of_nat (length a) = N) →
  for_ ks (validate_body self N die) h = (Ok tt, h).
Proof.
  intros Ho. induction ks as [|key ks IH]; intros Hks; [done|].
  destruct (Hks key) as (l & a & Hk & Ha & Hlen); [by left|].
  simpl. mstep (by eapply validate_body_ok).
  apply IH. intros ? ?. apply Hks. by right.
Qed.

End ValidateAgain.

(** X9: what lenient validation leaves is valid.  On a store whose schema
    attributes are arrays, those of another length than [pop_size] owning
    their data, and whose [pop_size] is not negative, [validate(die=False)]
    returns a store on which [validate()] in strict mode passes, and on
    which a second [validate(die=False)] changes nothing. *)
Theorem validate_lenient_then_strict `{Numpy} (h : heap) (self : nat) (k : PeopleKeys)
    (n : Z) :
  has_arrays h self k n →
  resizable h self k n →
  0 ≤ n →
  ∃ h',
    BasePeople.validate self false h = (Ok tt, h')
    ∧ BasePeople.validate self true h' = (Ok tt, h')
    ∧ BasePeople.validate self false h' = (Ok tt, h').
Proof.
  intros (Hkl & Hpop & Harr) Hown Hn.
  apply attr_val_inv in Hkl as (d & Ho & Hkl).
  apply attr_val_inv in Hpop as (d' & Ho' & Hpop).
  assert (d' = d) as -> by congruence. clear Ho'.
  assert (∀ key, key ∈ all_states k →
            ∃ l a, d !! key = Some (VArr l) ∧ arrs h !! l = Some a
                   ∧ (Z.of_nat (length a) ≠ n → l ∉ views h)) as Hks.
  { intros key Hin. destruct (Harr key Hin) as [a Ha].
    apply attr_inv in Ha as (l & Hv & Ha).
    pose proof (Hown key l a Hin Hv Ha) as Hl.
    apply attr_val_inv in Hv as (d' & Ho' & Hv).
    exists l, a. split; [congruence|done]. }
  destruct h as [A O V]. simpl in *.
  destruct (validate_loop (Heap A O V) self d n Ho Hpop Hn (all_states k) A)
    as (A' & Hrun & _ & _ & Hdone); [by left|done|]. simpl in *.
  assert (∀ die, BasePeople.validate self die (Heap A' O V) = (Ok tt, Heap A' O V)) as Hagain.
  { intros die. unfold BasePeople.validate.
    mstep (apply (len_run (Heap A' O V) self d n Ho Hpop Hn A')).
    mstep (apply (keys_run (Heap A' O V) self d k Ho Hkl A')).
    apply (validate_loop_ok (Heap A' O V) self d n die (all_states k) Ho).
    intros key Hin. destruct (Hks key Hin) as (l & a & Hk & Ha & _).
    exists l, (resize (Z.to_nat n) zero a). split; [done|].
    split; [simpl; by eapply Hdone|]. rewrite length_resize. lia. }
  exists (Heap A' O V). split; [|split; apply Hagain].
  unfold BasePeople.validate.
  mstep (apply (len_run (Heap A O V) self d n Ho Hpop Hn A)).
  mstep (apply (keys_run (Heap A O V) self d k Ho Hkl A)).
  exact Hrun.
Qed.

Lemma validate_lenient_then_strict_witness :
  has_arrays ragged_heap 0 sample_keys 3
  ∧ resizable ragged_heap 0 sample_keys 3
  ∧ 0 ≤ 3
  ∧ ∃ h',
      BasePeople.validate 0 false ragged_heap = (Ok tt, h')
      ∧ BasePeople.validate 0 true h' = (Ok tt, h')
      ∧ BasePeople.validate 0 false h' = (Ok tt, h').
Proof.
  split; [exact ragged_store|]. split; [exact (ragged_owns sample_keys 3)|].
  split; [lia|].
  apply (validate_lenient_then_strict ragged_heap 0 sample_keys 3 ragged_store
           (ragged_owns sample_keys 3)). lia.
Defined.

(** ** Removing a layer twice *)

(** X10: [remove_dynamic_contacts] pops without a default.  When [key] is
    listed in [pars['contacts']] and is a layer of the store, a first call
    removes the layer; a second call with the same key then raises
    [KeyError] and changes nothing, and so does one call that names the key
    twice, after having removed the layer. *)
Theorem remove_dynamic_contacts_twice_raises `{Numpy} (h : heap) (self : nat) (p : Pars)
    (cfg : list (string * Z)) (c : list (string * LayerObj)) (key : string) :
  attr_val h self "pars" = Some (VPars p) →
  par_contacts p = Some cfg →
  layers h self = Some c →
  NoDup (Dict.keys c) →
  Dict.mem cfg key = true →
  Dict.mem c key = true →
  ∃ h1,
    BasePeople.remove_dynamic_contacts self [key] h = (Ok tt, h1)
    ∧ layers h1 self = Some (Dict.remove c key)
    ∧ Dict.get (Dict.remove c key) key = None
    ∧ BasePeople.remove_dynamic_contacts self [key] h1 = (Raise KeyError, h1)
    ∧ BasePeople.remove_dynamic_contacts self [key; key] h = (Raise KeyError, h1).
Proof.
  intros Hp Hcfg Hc Hnd Hlisted Hthere.
  apply attr_val_inv in Hp as (d & Ho & Hp).
  apply layers_inv, attr_val_inv in Hc as (d' & Ho' & Hc).
  assert (d' = d) as -> by congruence. clear Ho'.
  set (d1 := <["contacts" := VContacts (Dict.remove c key)]> d).
  set (h1 := Heap (arrs h) (<[self := d1]> (objs h)) (views h)).
  assert (objs h1 !! self = Some d1) as Ho1.
  { simpl. apply list_lookup_insert_eq. by eapply lookup_lt_Some. }
  assert (d1 !! "pars" = Some (VPars p)) as Hp1 by (unfold d1; by rewrite lookup_insert_ne).
  assert (d1 !! "contacts" = Some (VContacts (Dict.remove c key))) as Hc1
    by apply lookup_insert_eq.
  assert (Dict.get (Dict.remove c key) key = None) as Hgone by (by apply Dict_get_remove_eq).
  assert (Dict.mem (Dict.remove c key) key = false) as Hmem
    by (unfold Dict.mem; by rewrite Hgone).
  assert (BasePeople.remove_dynamic_contacts self [key] h1 = (Raise KeyError, h1)) as Hsecond.
  { rewrite (remove_cons h1 self d1 p cfg (Dict.remove c key) key [] Ho1 Hp1 Hcfg Hc1).
    by rewrite Hlisted, Hmem. }
  exists h1. split; [|split; [|split; [done|split; [done|]]]].
  - rewrite (remove_cons h self d p cfg c key [] Ho Hp Hcfg Hc).
    by rewrite Hlisted, Hthere.
  - apply layers_inv, attr_val_inv. by eauto.
  - rewrite (remove_cons h self d p cfg c key [key] Ho Hp Hcfg Hc).
    rewrite Hlisted, Hthere. exact Hsecond.
Qed.

Lemma remove_dynamic_contacts_twice_raises_witness :
  attr_val sample_heap 0 "pars" = Some (VPars sample_pars)
  ∧ par_contacts sample_pars = Some [("h", 4); ("c", 20)]
  ∧ layers sample_heap 0 = Some sample_layers
  ∧ NoDup (Dict.keys sample_layers)
  ∧ Dict.mem [("h", 4); ("c", 20)] "c" = true
  ∧ Dict.mem sample_layers "c" = true
  ∧ ∃ h1,
      BasePeople.remove_dynamic_contacts 0 ["c"] sample_heap = (Ok tt, h1)
      ∧ layers h1 0 = Some (Dict.remove sample_layers "c")
      ∧ Dict.get (Dict.remove sample_layers "c") "c" = None
      ∧ BasePeople.remove_dynamic_contacts 0 ["c"] h1 = (Raise KeyError, h1)
      ∧ BasePeople.remove_dynamic_contacts 0 ["c"; "c"] sample_heap = (Raise KeyError, h1).
Proof.
  assert (attr_val sample_heap 0 "pars" = Some (VPars sample_pars)) as Hp
    by (vm_compute; reflexivity).
  assert (layers sample_heap 0 = Some sample_layers) as Hc by (vm_compute; reflexivity).
  assert (Dict.mem sample_layers "c" = true) as Hm by (vm_compute; reflexivity).
  split; [exact Hp|]. split; [reflexivity|]. split; [exact Hc|].
  split; [exact sample_layers_NoDup|]. split; [reflexivity|]. split; [exact Hm|].
  exact (remove_dynamic_contacts_twice_raises sample_heap 0 sample_pars
           [("h", 4); ("c", 20)] sample_layers "c" Hp eq_refl Hc sample_layers_NoDup
           eq_refl Hm).
Defined.

(** ** [remove_duplicates] neither invents nor loses a contact *)

Section DedupComplete.
Import BasePeople.

Lemma same_pair_refl x : same_pair x x = true.
Proof. by apply same_pair_spec. Qed.

(** Every row given to [drop_duplicates] has its pair in the result, or
    among the rows seen before. *)
Lemma drop_duplicates_from_complete l : ∀ seen x,
  x ∈ l →
  existsb (same_pair x) seen = true
  ∨ ∃ y, y ∈ drop_duplicates_from seen l ∧ same_pair x y = true.
Proof.
  induction l as [|y0 t IH]; intros seen x Hx; [by apply elem_of_nil in Hx|].
  simpl. destruct (existsb (same_pair y0) seen) eqn:E.
  - apply elem_of_cons in Hx as [->|Hx]; [by left|by apply IH].
  - apply elem_of_cons in Hx as [->|Hx].
    + right. exists y0. split; [by left|apply same_pair_refl].
    + destruct (IH (y0 :: seen) x Hx) as [Hseen|(y & Hy & Hxy)].
      * simpl in Hseen. apply orb_true_iff in Hseen as [Hxy|Hseen]; [|by left].
        right. exists y0. split; [by left|done].
      * right. exists y. split; [by right|done].
Qed.

Lemma drop_duplicates_from_length seen l :
  (length (drop_duplicates_from seen l) ≤ length l)%nat.
Proof.
  revert seen. induction l as [|y0 t IH]; intros seen; simpl; [done|].
  destruct (existsb (same_pair y0) seen); simpl.
  - specialize (IH seen). lia.
  - specialize (IH (y0 :: seen)). lia.
Qed.

Lemma sort_values_length l : length (sort_values l) = length l.
Proof.
  induction l as [|x l IH]; simpl; [done|].
  rewrite <- IH. generalize (sort_values l). intros s.
  induction s as [|y s IHs]; simpl; [done|].
  destruct (row_le x y); simpl; [done|]. by rewrite IHs.
Qed.

End DedupComplete.

(** X11: [remove_duplicates] neither invents nor loses a contact.  Every
    row it returns is a row of the dataframe with its two people put in
    order (its other columns as they were); every row of the dataframe
    that joins two different people has its pair, in order, in the result;
    and the result has no more rows than the dataframe. *)
Theorem remove_duplicates_keeps_the_pairs (df : list edge) :
  (∀ e, e ∈ BasePeople.remove_duplicates df →
        ∃ e0, e0 ∈ df ∧ e = BasePeople.minmax e0 ∧ beta e = beta e0 ∧ layer e = layer e0)
  ∧ (∀ e0, e0 ∈ df → p1 e0 ≠ p2 e0 →
           ∃ e, e ∈ BasePeople.remove_duplicates df
                ∧ p1 e = Z.min (p1 e0) (p2 e0) ∧ p2 e = Z.max (p1 e0) (p2 e0))
  ∧ (length (BasePeople.remove_duplicates df) ≤ length df)%nat.
Proof.
  unfold BasePeople.remove_duplicates, BasePeople.drop_duplicates. split; [|split].
  - intros e [_ He]%list_elem_of_filter.
    apply drop_duplicates_from_elem in He as [He _].
    apply sort_values_elem, list_elem_of_fmap in He as (e0 & -> & He0).
    by exists e0.
  - intros e0 He0 Hne.
    assert (BasePeople.minmax e0 ∈ BasePeople.sort_values (map BasePeople.minmax df)) as Hin.
    { apply sort_values_elem, list_elem_of_fmap. by exists e0. }
    destruct (drop_duplicates_from_complete _ [] _ Hin) as [Hseen|(y & Hy & Hxy)];
      [done|].
    apply same_pair_spec in Hxy as [H1 H2]. simpl in H1, H2.
    exists y. split; [|split; congruence].
    apply list_elem_of_filter. split; [lia|done].
  - etrans; [apply length_filter|].
    etrans; [apply drop_duplicates_from_length|].
    by rewrite sort_values_length, length_map.
Qed.

(** ** The parameter object: [ParsObj] *)

Section ParsObjFacts.
Context {V : Type}.
Implicit Types (c p : list (string * V)) (k : string).

Lemma mismatches_nil c (ks : list string) :
  List.filter (λ key, negb (Dict.mem c key)) ks = [] ↔ forallb (Dict.mem c) ks = true.
Proof.
  induction ks as [|k ks IH]; simpl; [done|].
  destruct (Dict.mem c k); simpl; [done|]. split; [done|discriminate].
Qed.

Lemma Dict_keys_set_mem c k (v : V) :
  Dict.mem c k = true → Dict.keys (Dict.set c k v) = Dict.keys c.
Proof.
  unfold Dict.mem. induction c as [|[k0 v0] t IH]; simpl; [done|].
  destruct (String.eqb k0 k); simpl; [done|]. intros Hm. by rewrite IH.
Qed.

Lemma Dict_mem_keys c c' k : Dict.keys c' = Dict.keys c → Dict.mem c' k = Dict.mem c k.
Proof.
  intros Hk. apply eq_true_iff_eq. rewrite !Dict_mem_get, !Dict_get_keys. by rewrite Hk.
Qed.

(** [self.pars.update(pars)] when every key is known: no key is added *)
Lemma update_keys p : ∀ c,
  (∀ k, k ∈ Dict.keys p → Dict.mem c k = true) →
  Dict.keys (foldl (λ c kv, Dict.set c kv.1 kv.2) c p) = Dict.keys c.
Proof.
  induction p as [|[k0 v0] p IH]; intros c Hall; simpl in *; [done|].
  assert (Dict.keys (Dict.set c k0 v0) = Dict.keys c) as Hk0.
  { apply Dict_keys_set_mem, Hall. by left. }
  rewrite IH; [done|].
  intros k Hk. rewrite (Dict_mem_keys c _ k Hk0). apply Hall. by right.
Qed.

(** [self.pars.update(pars)]: the values of [pars] win *)
Lemma update_get p : ∀ c k,
  NoDup (Dict.keys p) →
  Dict.get (foldl (λ c kv, Dict.set c kv.1 kv.2) c p) k
    = match Dict.get p k with Some v => Some v | None => Dict.get c k end.
Proof.
  induction p as [|[k0 v0] p IH]; intros c k Hnd; simpl; [done|].
  apply NoDup_cons in Hnd as [Hnin Hnd].
  rewrite IH by done. rewrite Dict_get_set.
  destruct (String.eqb_spec k0 k) as [->|Hne]; [|done].
  destruct (Dict.get p k) eqn:E; [|done].
  exfalso. apply Hnin. apply Dict_get_keys. by eexists.
Qed.

Lemma Dict_set_id c k (v : V) : Dict.get c k = Some v → Dict.set c k v = c.
Proof.
  induction c as [|[k0 v0] t IH]; simpl; [done|].
  destruct (String.eqb k0 k); [by intros [= ->]|]. intros E. by rewrite IH.
Qed.

(** Updating a dict with entries it has changes nothing *)
Lemma update_id q : ∀ c,
  (∀ k v, (k, v) ∈ q → Dict.get c k = Some v) →
  foldl (λ c kv, Dict.set c kv.1 kv.2) c q = c.
Proof.
  induction q as [|[k0 v0] q IH]; intros c Hq; simpl; [done|].
  rewrite Dict_set_id by (apply Hq; by left).
  apply IH. intros k v Hin. apply Hq. by right.
Qed.

Lemma update_self p :
  NoDup (Dict.keys p) → foldl (λ c kv, Dict.set c kv.1 kv.2) p p = p.
Proof.
  intros Hnd. apply update_id. intros k v (i & Hi)%list_elem_of_lookup_1.
  by eapply Dict_get_lookup.
Qed.

End ParsObjFacts.

(** X12: [update_pars(pars)] in strict mode ([create=False]) on an object
    that has parameters is all or nothing.  When every key of [pars] is a
    key of the object's parameters, the call returns, no key is added or
    moved, and each parameter has the value [pars] gives it, or its old
    value when [pars] has none.  When some key is unknown it raises
    [KeyError] and no parameter changes, not even those with a known
    key. *)
Theorem update_pars_all_or_nothing {V : Type} (c p : list (string * V)) :
  NoDup (Dict.keys p) →
  if forallb (Dict.mem c) (Dict.keys p) then
    ∃ c', ParsObj.update_pars (Some c) (DictPars p) false = (Ok tt, Some c')
          ∧ Dict.keys c' = Dict.keys c
          ∧ ∀ k, Dict.get c' k
                 = match Dict.get p k with Some v => Some v | None => Dict.get c k end
  else ParsObj.update_pars (Some c) (DictPars p) false = (Raise KeyError, Some c).
Proof.
  intros Hnd. unfold ParsObj.update_pars.
  destruct (forallb (Dict.mem c) (Dict.keys p)) eqn:E.
  - rewrite (proj2 (mismatches_nil c (Dict.keys p)) E).
    eexists. split; [reflexivity|]. split.
    { apply update_keys. intros k Hk. apply (proj1 (forallb_forall _ _) E).
      by apply list_elem_of_In. }
    intros k. by apply update_get.
  - destruct (List.filter _ (Dict.keys p)) eqn:Ef; [|done].
    apply mismatches_nil in Ef. congruence.
Qed.

Lemma update_pars_all_or_nothing_witness :
  NoDup (Dict.keys [("beta", 2); ("n_days", 30)])
  ∧ if forallb (Dict.mem [("n_days", 60); ("beta", 1)]) (Dict.keys [("beta", 2); ("n_days", 30)])
    then
      ∃ c', ParsObj.update_pars (Some [("n_days", 60); ("beta", 1)])
              (DictPars [("beta", 2); ("n_days", 30)]) false = (Ok tt, Some c')
            ∧ Dict.keys c' = Dict.keys [("n_days", 60); ("beta", 1)]
            ∧ ∀ k, Dict.get c' k
                   = match Dict.get [("beta", 2); ("n_days", 30)] k with
                     | Some v => Some v
                     | None => Dict.get [("n_days", 60); ("beta", 1)] k
                     end
    else ParsObj.update_pars (Some [("n_days", 60); ("beta", 1)])
           (DictPars [("beta", 2); ("n_days", 30)]) false
         = (Raise KeyError, Some [("n_days", 60); ("beta", 1)]).
Proof.
  assert (NoDup (Dict.keys [("beta", 2); ("n_days", 30)])) as Hnd
    by (by apply (bool_decide_unpack _)).
  split; [exact Hnd|].
  exact (update_pars_all_or_nothing [("n_days", 60); ("beta", 1)]
           [("beta", 2); ("n_days", 30)] Hnd).
Defined.

(** One unknown key, and the known one is not updated either *)
Example update_pars_strict_sample :
  ParsObj.update_pars (Some [("n_days", 60); ("beta", 1)])
    (DictPars [("beta", 2); ("gamma", 3)]) false
    = (Raise KeyError, Some [("n_days", 60); ("beta", 1)])
  ∧ ParsObj.update_pars (Some [("n_days", 60); ("beta", 1)])
      (DictPars [("beta", 2); ("gamma", 3)]) true
    = (Ok tt, Some [("n_days", 60); ("beta", 2); ("gamma", 3)]).
Proof. split; reflexivity. Qed.

(** X13: an item assignment [obj[key] = value] on a parameter object never
    adds a key.  When [key] is a parameter it returns, [obj[key]] is then
    [value], and the keys, their order and the other parameters are as
    before; otherwise it raises ([KeyError], or [AttributeError] when the
    object has no parameters) and changes nothing. *)
Theorem parsobj_setitem_never_adds_a_key {V : Type} (self : option (list (string * V)))
    (key : string) (value : V) :
  Dict.keys <$> (ParsObj.__setitem__ self key value).2 = Dict.keys <$> self
  ∧ match (ParsObj.__setitem__ self key value).1 with
    | Ok _ =>
        (∃ old, ParsObj.__getitem__ self key = Ok old)
        ∧ ParsObj.__getitem__ (ParsObj.__setitem__ self key value).2 key = Ok value
        ∧ ∀ k, k ≠ key →
               ParsObj.__getitem__ (ParsObj.__setitem__ self key value).2 k
               = ParsObj.__getitem__ self k
    | Raise e =>
        (ParsObj.__setitem__ self key value).2 = self
        ∧ ParsObj.__getitem__ self key = Raise e
    end.
Proof.
  destruct self as [c|]; simpl; [|done].
  unfold Dict.mem. destruct (Dict.get c key) as [old|] eqn:E; simpl.
  - split; [f_equal; apply Dict_keys_set_mem; unfold Dict.mem; by rewrite E|].
    split; [by eexists|]. split.
    + by rewrite Dict_get_set, String.eqb_refl.
    + intros k Hne. rewrite Dict_get_set.
      by rewrite (proj2 (String.eqb_neq key k)) by done.
  - done.
Qed.

(** X14: strict mode checks nothing on an object that has no parameters
    yet.  [ParsObj(None)] leaves the object without parameters, so that
    reading one raises [AttributeError]; on such an object
    [update_pars(pars)] returns in either mode, whatever the keys, and the
    parameters are then exactly [pars]; so are they after [ParsObj(pars)].
    A value that is not a dict is refused with [TypeError]. *)
Theorem parsobj_without_pars_adopts {V : Type} (p : list (string * V)) (create : bool) :
  NoDup (Dict.keys p) →
  ParsObj.__init__ (@NoPars V) = (Ok tt, None)
  ∧ (∀ k, ParsObj.__getitem__ (@None (list (string * V))) k = Raise AttributeError)
  ∧ ParsObj.update_pars None (DictPars p) create = (Ok tt, Some p)
  ∧ ParsObj.__init__ (DictPars p) = (Ok tt, Some p)
  ∧ (∀ k v, Dict.get p k = Some v → ParsObj.__getitem__ (Some p) k = Ok v)
  ∧ ∀ self, ParsObj.update_pars self (@NotADict V) create = (Raise TypeError, self).
Proof.
  intros Hnd.
  assert (∀ b, ParsObj.update_pars None (DictPars p) b = (Ok tt, Some p)) as Hadopt.
  { intros b. unfold ParsObj.update_pars.
    assert ((if b then [] else
               List.filter (λ key, negb (Dict.mem p key)) (Dict.keys p)) = []) as ->.
    { destruct b; [done|]. apply mismatches_nil, forallb_forall.
      intros k Hk. apply Dict_mem_get, Dict_get_keys. by apply list_elem_of_In. }
    by rewrite update_self. }
  split; [done|]. split; [done|]. split; [apply Hadopt|]. split; [apply Hadopt|].
  split; [|done]. intros k v E. simpl. by rewrite E.
Qed.

Lemma parsobj_without_pars_adopts_witness :
  NoDup (Dict.keys [("beta", 2); ("n_days", 30)])
  ∧ ParsObj.__init__ (@NoPars Z) = (Ok tt, None)
  ∧ (∀ k, ParsObj.__getitem__ (@None (list (string * Z))) k = Raise AttributeError)
  ∧ ParsObj.update_pars None (DictPars [("beta", 2); ("n_days", 30)]) false
      = (Ok tt, Some [("beta", 2); ("n_days", 30)])
  ∧ ParsObj.__init__ (DictPars [("beta", 2); ("n_days", 30)])
      = (Ok tt, Some [("beta", 2); ("n_days", 30)])
  ∧ (∀ k v, Dict.get [("beta", 2); ("n_days", 30)] k = Some v →
            ParsObj.__getitem__ (Some [("beta", 2); ("n_days", 30)]) k = Ok v)
  ∧ ∀ self, ParsObj.update_pars self (@NotADict Z) false = (Raise TypeError, self).
Proof.
  assert (NoDup (Dict.keys [("beta", 2); ("n_days", 30)])) as Hnd
    by (by apply (bool_decide_unpack _)).
  split; [exact Hnd|].
  exact (parsobj_without_pars_adopts [("beta", 2); ("n_days", 30)] false Hnd).
Defined.

(** ** What base initialization makes: [BasePeople.__init__] *)

Section InitLayers.
Context `{Defaults}.

Lemma Dict_keys_set_new {V} (c : list (string * V)) k v :
  k ∉ Dict.keys c → Dict.keys (Dict.set c k v) = Dict.keys c ++ [k].
Proof.
  induction c as [|[k0 v0] t IH]; simpl; [done|].
  intros Hnin. apply not_elem_of_cons in Hnin as [Hne Hnin].
  rewrite (proj2 (String.eqb_neq k0 k)) by done. simpl. by rewrite IH.
Qed.

Lemma fresh_keys_list {V} (v : V) ks : ∀ c0,
  NoDup (Dict.keys c0 ++ ks) →
  Dict.keys (foldl (λ c key, Dict.set c key v) c0 ks) = Dict.keys c0 ++ ks.
Proof.
  induction ks as [|k ks IH]; intros c0 Hnd; simpl.
  - by rewrite app_nil_r.
  - assert (k ∉ Dict.keys c0) as Hnin.
    { apply NoDup_app in Hnd as (_ & Hdis & _). intros Hin. apply (Hdis k Hin). by left. }
    rewrite IH; rewrite Dict_keys_set_new by done.
    + by rewrite <- app_assoc.
    + by rewrite <- app_assoc.
Qed.

(** The keys that [contact_keys] finds in [pars] *)
Local Abbreviation beta_keys pars :=
  (match pars with
   | Some p => match par_beta_layer p with Some bl => Dict.keys bl | None => [] end
   | None => []
   end).

Lemma init_run pars n h :
  ∃ d,
    BasePeople.__init__ pars (Some n) h
      = (Ok (length (objs h)), Heap (arrs h) (objs h ++ [d]) (views h))
    ∧ d !! "pars" = Some (match pars with Some p => VPars p | None => VNone end)
    ∧ d !! "contacts"
        = Some (VContacts (foldl (λ c key, Dict.set c key
                                              (Layer.__init__ (contacts cvd_PeopleKeys)))
                                 [] (beta_keys pars)))
    ∧ ∀ key l, d !! key ≠ Some (VArr l).
Proof.
  unfold BasePeople.__init__. eexists.
  mstep reflexivity. simpl.
  do 2 mstep (first [apply setattr_last|reflexivity]).
  do 7 mstep (apply setattr_last).
  mstep (apply init_contacts_last; by simplify_map_eq).
  mstep (apply setattr_last).
  split; [reflexivity|]. split; [by simplify_map_eq|]. split.
  - simplify_map_eq. do 2 f_equal.
    unfold fresh_layers, BasePeople.contact_keys. simpl.
    rewrite lookup_last. simplify_map_eq.
    destruct pars as [p|]; [|done]. by destruct (par_beta_layer p).
  - intros key l Hk.
    repeat (apply lookup_insert_Some in Hk as [[_ Hk]|[_ Hk]]; [discriminate Hk|]).
    apply lookup_insert_Some in Hk as [[_ Hk]|[_ Hk]]; [by destruct pars|].
    by rewrite lookup_empty in Hk.
Qed.

(** X15.  [BasePeople(pars, pop_size)] with a [beta_layer] in [pars]: the
    new store has exactly one layer per key of [beta_layer], in the order
    of [beta_layer], each of them a fresh empty layer with the columns of
    the default contact schema; [contact_keys()] returns those keys.
    Nothing else is made: no array is allocated and no attribute of the new
    store holds an array, so none of the state arrays of the schema exists
    yet. *)
Theorem init_makes_a_layer_per_beta_key (p : Pars) (bl : list (string * Q)) (n : Z)
    (h : heap) :
  par_beta_layer p = Some bl →
  NoDup (Dict.keys bl) →
  ∃ h' c,
    BasePeople.__init__ (Some p) (Some n) h = (Ok (length (objs h)), h')
    ∧ arrs h' = arrs h
    ∧ (∀ key, attr h' (length (objs h)) key = None)
    ∧ BasePeople.contact_keys (length (objs h)) h' = (Ok (Dict.keys bl), h')
    ∧ layers h' (length (objs h)) = Some c
    ∧ Dict.keys c = Dict.keys bl
    ∧ ∀ k, k ∈ Dict.keys bl →
        Dict.get c k = Some (Layer.__init__ (contacts cvd_PeopleKeys)).
Proof.
  intros Hbl Hnd.
  destruct (init_run (Some p) n h) as (d & Hrun & Hpars & Hc & Harr).
  rewrite Hbl in Hc.
  eexists _, _. split; [exact Hrun|]. split; [done|].
  split; [|split; [|split; [|split]]].
  - intros key. unfold attr, attr_val. simpl. rewrite lookup_last. simpl.
    destruct (d !! key) as [v|] eqn:E; [|done]. simpl.
    destruct v; try done. by destruct (Harr key l).
  - unfold BasePeople.contact_keys. simpl. rewrite lookup_last, Hpars.
    by rewrite Hbl.
  - unfold layers, attr_val. simpl. rewrite lookup_last. simpl.
    by rewrite Hc.
  - by apply (fresh_keys_list _ _ []).
  - intros k Hk. rewrite fresh_get. by rewrite bool_decide_eq_true_2.
Qed.

End InitLayers.

Lemma sample_beta_NoDup : NoDup (Dict.keys [("h", 1%Q); ("c", 1%Q)]).
Proof. apply (bool_decide_unpack _). vm_compute. exact I. Qed.

Lemma init_makes_a_layer_per_beta_key_witness :
  par_beta_layer sample_pars = Some [("h", 1%Q); ("c", 1%Q)]
  ∧ NoDup (Dict.keys [("h", 1%Q); ("c", 1%Q)])
  ∧ ∃ h' c,
      BasePeople.__init__ (Some sample_pars) (Some 3) (Heap [] [] [])
        = (Ok (length (objs (Heap [] [] []))), h')
      ∧ arrs h' = arrs (Heap [] [] [])
      ∧ (∀ key, attr h' (length (objs (Heap [] [] []))) key = None)
      ∧ BasePeople.contact_keys (length (objs (Heap [] [] []))) h'
          = (Ok (Dict.keys [("h", 1%Q); ("c", 1%Q)]), h')
      ∧ layers h' (length (objs (Heap [] [] []))) = Some c
      ∧ Dict.keys c = Dict.keys [("h", 1%Q); ("c", 1%Q)]
      ∧ ∀ k, k ∈ Dict.keys [("h", 1%Q); ("c", 1%Q)] →
          Dict.get c k = Some (Layer.__init__ (contacts cvd_PeopleKeys)).
Proof.
  split; [reflexivity|]. split; [exact sample_beta_NoDup|].
  exact (init_makes_a_layer_per_beta_key sample_pars [("h", 1%Q); ("c", 1%Q)] 3
           (Heap [] [] []) eq_refl sample_beta_NoDup).
Defined.
